(** * The XP ledger updater of rustchain-bounties

    A shallow embedding of [.github/scripts/update_xp_tracker_api.py]:
    the level table, the award calculator, the badge rules, the table
    codec, the ledger update and the conflict-retry driver, followed by
    the properties of the specification that concern them.

    Conventions of the embedding.
    - A Python [str] is a [string]; a character stands for one code point
      below 256.  [isspace], [lower] and the line boundaries of
      [splitlines] are the ones Python has on that range.
    - A Python [int] is a [Z].
    - A [Set[str]] is a duplicate-free [list string]; membership is
      [mem], [set.add] is [set_add].  The order of the list stands for
      the iteration order of the set and is taken to be the order of
      insertion.  CPython iterates a set of strings in hash order; that
      order is observed in one place only, the text of the RTC note in
      the reason of [calculate_xp] when more than one label carries an
      amount.  XP, membership and badges do not depend on it.
    - A raised exception is the [Raise] branch of [exc].
    - The clock ([stamp], [today]), the number parser [int(float(_))] and
      the remote store are inputs of the functions that use them. *)

From Stdlib Require Import ZArith List Bool Ascii String Lia.
From Stdlib Require Import Numbers.DecimalString Sorting.Permutation.
From Stdlib Require Import Sorting.Sorted Structures.OrderedTypeEx.
Import ListNotations.

Open Scope string_scope.
Open Scope Z_scope.

(** ** Python's [str] operations *)

Module Py.

Definition code (c : ascii) : nat := nat_of_ascii c.

(** [str.isspace] on one character. *)
Definition isspace (c : ascii) : bool :=
  let n := code c in
  ((9 <=? n) && (n <=? 13) || (28 <=? n) && (n <=? 32)
   || (n =? 133) || (n =? 160))%nat.

(** Regular-expression class [\d]. *)
Definition isdigit (c : ascii) : bool :=
  let n := code c in ((48 <=? n) && (n <=? 57))%nat.

Definition lower_char (c : ascii) : ascii :=
  let n := code c in
  if ((65 <=? n) && (n <=? 90) || (192 <=? n) && (n <=? 214)
      || (216 <=? n) && (n <=? 222))%nat
  then ascii_of_nat (n + 32) else c.

Fixpoint lower (s : string) : string :=
  match s with
  | "" => ""
  | String c s' => String (lower_char c) (lower s')
  end.

Fixpoint drop_while (p : ascii -> bool) (s : string) : string :=
  match s with
  | "" => ""
  | String c s' => if p c then drop_while p s' else s
  end.

Fixpoint take_while (p : ascii -> bool) (s : string) : string :=
  match s with
  | "" => ""
  | String c s' => if p c then String c (take_while p s') else ""
  end.

Fixpoint rev_onto (s acc : string) : string :=
  match s with
  | "" => acc
  | String c s' => rev_onto s' (String c acc)
  end.

Definition rev (s : string) : string := rev_onto s "".

Definition lstrip (s : string) : string := drop_while isspace s.
Definition rstrip (s : string) : string := rev (drop_while isspace (rev s)).
Definition strip (s : string) : string := rstrip (lstrip s).

Definition startswith (s p : string) : bool := prefix p s.

(** [s.split(sep)] for a one-character separator: never empty. *)
Fixpoint split (sep : ascii) (s : string) : list string :=
  match s with
  | "" => [""]
  | String c s' =>
      if Ascii.eqb c sep then "" :: split sep s'
      else match split sep s' with
           | [] => [String c ""]
           | w :: ws => String c w :: ws
           end
  end.

(** [sep.join(parts)]. *)
Definition join (sep : string) (parts : list string) : string :=
  concat sep parts.

(** [s.find(sub)] from offset 0, counted from [k]. *)
Fixpoint find_from (k : nat) (sub s : string) : option nat :=
  if prefix sub s then Some k
  else match s with
       | "" => None
       | String _ s' => find_from (S k) sub s'
       end.

Definition find (sub s : string) : option nat := find_from 0 sub s.

(** [s.find(sub, start)]. *)
Definition find_at (sub s : string) (start : nat) : option nat :=
  find_from start sub (substring start (length s - start) s).

(** [sub in s]. *)
Definition contains (sub s : string) : bool :=
  match find sub s with Some _ => true | None => false end.

(** [s[:n]] and [s[n:]] for [0 <= n]. *)
Definition slice_to (n : nat) (s : string) : string := substring 0 n s.
Definition slice_from (n : nat) (s : string) : string :=
  substring n (length s - n) s.

(** Line boundaries of [str.splitlines]: LF, VT, FF, CR, FS, GS, RS, NEL;
    CR LF counts once. *)
Definition is_linebreak (c : ascii) : bool :=
  let n := code c in
  ((10 <=? n) && (n <=? 13) || (28 <=? n) && (n <=? 30) || (n =? 133))%nat.

(** [cur] is the current line, reversed; [after_cr] says that the
    character before was a CR, so that a LF here closes the same line. *)
Fixpoint splitlines_go (s cur : string) (after_cr : bool) : list string :=
  match s with
  | "" => match cur with "" => [] | _ => [rev cur] end
  | String c s' =>
      if (after_cr && (code c =? 10)%nat)%bool then splitlines_go s' "" false
      else if is_linebreak c
           then rev cur :: splitlines_go s' "" (code c =? 13)%nat
           else splitlines_go s' (String c cur) false
  end.

Definition splitlines (s : string) : list string := splitlines_go s "" false.

End Py.

(** ** Errors and sets *)

(** The exceptions the script can end with. *)
Inductive error : Type :=
| RuntimeError (msg : string)
| SystemExit (msg : string)
| HTTPError (status : option Z)
| OtherException (name : string).

Inductive exc (A : Type) : Type :=
| Ok (a : A)
| Raise (e : error).

Arguments Ok {A} a.
Arguments Raise {A} e.

(** [l.append(x)]. *)
Definition append {A : Type} (l : list A) (x : A) : list A := (l ++ [x])%list.

Definition mem (x : string) (s : list string) : bool :=
  existsb (String.eqb x) s.

Definition set_add (x : string) (s : list string) : list string :=
  if mem x s then s else append s x.

(** [s.update(xs)]. *)
Definition set_update (s xs : list string) : list string :=
  fold_left (fun acc x => set_add x acc) xs s.

(** [set(xs)]. *)
Definition set_of_list (xs : list string) : list string := set_update [] xs.

(** [str(n)] for an [int]. *)
Definition str_of_int (n : Z) : string := NilZero.string_of_int (Z.to_int n).

(** ** Level table *)

Definition LEVEL_THRESHOLDS : list (Z * Z * string) :=
  [ (0, 1, "Starting Hunter");
    (200, 2, "Basic Hunter");
    (500, 3, "Priority Hunter");
    (1000, 4, "Rising Hunter");
    (2000, 5, "Multiplier Hunter");
    (3500, 6, "Featured Hunter");
    (5500, 7, "Veteran Hunter");
    (8000, 8, "Elite Hunter");
    (12000, 9, "Master Hunter");
    (18000, 10, "Legendary Hunter") ].

Definition BADGE_STYLE : list (string * (string * string * string)) :=
  [ ("First Blood", ("red", "git", "white"));
    ("Rising Hunter", ("orange", "rocket", "white"));
    ("Multiplier Hunter", ("yellow", "star", "black"));
    ("Veteran Hunter", ("purple", "shield", "white"));
    ("Legendary Hunter", ("gold", "crown", "black"));
    ("Vintage Veteran", ("purple", "apple", "white"));
    ("Agent Overlord", ("cyan", "robot", "white"));
    ("Tutorial Titan", ("blue", "book", "white"));
    ("Bug Slayer", ("darkred", "bug", "white"));
    ("Outreach Pro", ("teal", "twitter", "white"));
    ("Streak Master", ("green", "fire", "white")) ].

Record HunterRow : Type := mkHunterRow {
  hunter : string;
  wallet : string;
  xp : Z;
  level : Z;
  title : string;
  badges : list string;
  last_action : string;
  notes : string
}.

Definition is_true (value : string) : bool :=
  mem (Py.lower (Py.strip value)) ["1"; "true"; "yes"; "y"].

(** The set of labels, listed in the order the tokens are met. *)
Definition parse_labels (raw : string) : list string :=
  fold_left
    (fun labels token =>
       let token := Py.lower (Py.strip token) in
       if (token =? "")%string then labels else set_add token labels)
    (Py.split "," raw) [].

(** The loop of [get_level_and_title] over the bands it is given. *)
Fixpoint first_band (bands : list (Z * Z * string)) (total_xp : Z)
  : option (Z * string) :=
  match bands with
  | [] => None
  | (threshold, level, title) :: rest =>
      if total_xp >=? threshold then Some (level, title)
      else first_band rest total_xp
  end.

Definition get_level_and_title (total_xp : Z) : Z * string :=
  match first_band (rev LEVEL_THRESHOLDS) total_xp with
  | Some r => r
  | None => (1, "Starting Hunter")
  end.

(** ** Award calculator *)

(** [re.search(r"(\d+)\s*rtc", s)], group 1. *)
Fixpoint rtc_search (s : string) : option string :=
  match s with
  | "" => None
  | String c s' =>
      if Py.isdigit c then
        let after := Py.drop_while Py.isspace (Py.drop_while Py.isdigit s) in
        if Py.startswith after "rtc" then Some (Py.take_while Py.isdigit s)
        else rtc_search s'
      else rtc_search s'
  end.

(** [if cond: xp += n; reasons.append(r)] on the pair of [xp] and
    [reasons]. *)
Definition bonus_if (cond : bool) (n : Z) (r : string)
    (st : Z * list string) : Z * list string :=
  if cond then (fst st + n, append (snd st) r) else st.

(** [if rtc_match: reasons.append(f"{rtc_match.group(1)} RTC")]. *)
Definition rtc_note (labels : list string) (st : Z * list string)
  : Z * list string :=
  match rtc_search (Py.lower (Py.join "," labels)) with
  | Some amount => (fst st, append (snd st) (amount ++ " RTC"))
  | None => st
  end.

(** [if xp == 0: xp = 50; reasons.append("base action")]. *)
Definition base_action (st : Z * list string) : Z * list string :=
  if fst st =? 0 then (50, append (snd st) "base action") else st.

Definition calculate_xp (event_type event_action : string)
    (labels : list string) (pr_merged : bool) : Z * string :=
  let st := (0, @nil string) in
  let st := bonus_if (mem "bounty-approved" labels) 200 "bounty approved" st in
  let st := bonus_if pr_merged 300 "PR merged" st in
  let st := bonus_if ((event_type =? "issues")%string
                      && (event_action =? "closed")%string)
              80 "issue closed" st in
  let st := bonus_if (mem "micro" labels) 50 "micro tier" st in
  let st := bonus_if (mem "standard" labels) 100 "standard tier" st in
  let st := bonus_if (mem "major" labels) 200 "major tier" st in
  let st := bonus_if (mem "critical" labels) 300 "critical tier" st in
  let st := bonus_if (mem "tutorial" labels || mem "docs" labels)
              150 "tutorial/docs" st in
  let st := bonus_if (mem "vintage" labels) 100 "vintage bonus" st in
  let st := rtc_note labels st in
  let st := bonus_if (mem "outreach" labels || mem "seo" labels
                      || mem "marketing" labels) 30 "outreach bonus" st in
  let st := base_action st in
  (fst st, Py.join ", " (snd st)).

(** ** Badges *)

Definition hex_digit (n : nat) : ascii :=
  match get n "0123456789ABCDEF" with Some c => c | None => "0"%char end.

Definition percent (byte : nat) : string :=
  String "%" (String (hex_digit (byte / 16)) (String (hex_digit (byte mod 16)) "")).

(** Characters [urllib.parse.quote] leaves alone: letters, digits, [_.-~]
    and the default safe character [/]. *)
Definition quote_safe (c : ascii) : bool :=
  let n := Py.code c in
  ((48 <=? n) && (n <=? 57) || (65 <=? n) && (n <=? 90)
   || (97 <=? n) && (n <=? 122)
   || (n =? 95) || (n =? 46) || (n =? 45) || (n =? 126) || (n =? 47))%nat.

(** [urllib.parse.quote]: the UTF-8 bytes of the other characters,
    percent-encoded. *)
Fixpoint quote (s : string) : string :=
  match s with
  | "" => ""
  | String c s' =>
      let n := Py.code c in
      (if quote_safe c then String c ""
       else if (n <? 128)%nat then percent n
       else percent (192 + n / 64) ++ percent (128 + n mod 64))
      ++ quote s'
  end.

Fixpoint style_of (table : list (string * (string * string * string)))
    (name : string) : string * string * string :=
  match table with
  | [] => ("blue", "star", "white")
  | (k, v) :: rest => if (k =? name)%string then v else style_of rest name
  end.

Definition badge_url (name : string) : string :=
  let '(color, logo, logo_color) := style_of BADGE_STYLE name in
  let encoded := quote name in
  "https://img.shields.io/badge/" ++ encoded ++ "-" ++ color
  ++ "?style=flat-square&logo=" ++ logo ++ "&logoColor=" ++ logo_color.

Definition badge_md (name : string) : string :=
  "![" ++ name ++ "](" ++ badge_url name ++ ")".

(** Scanner states of [re.findall(r"!\[([^\]]+)\]", cell)]. *)
Inductive badge_scan : Type :=
| Outside
| AfterBang
| Inside (acc : string).

Fixpoint findall_badges (st : badge_scan) (s : string) : list string :=
  match s with
  | "" => []
  | String c s' =>
      match st with
      | Outside =>
          findall_badges (if Ascii.eqb c "!" then AfterBang else Outside) s'
      | AfterBang =>
          findall_badges
            (if Ascii.eqb c "[" then Inside ""
             else if Ascii.eqb c "!" then AfterBang else Outside) s'
      | Inside acc =>
          if Ascii.eqb c "]" then
            match acc with
            | "" => findall_badges Outside s'
            | _ => Py.rev acc :: findall_badges Outside s'
            end
          else findall_badges (Inside (String c acc)) s'
      end
  end.

Definition parse_badges (cell : string) : list string :=
  let names := set_of_list (findall_badges Outside cell) in
  match names with
  | _ :: _ => names
  | [] =>
      fold_left
        (fun fallback token =>
           let token := Py.strip token in
           if negb (token =? "")%string && negb (token =? "-")%string
           then set_add token fallback else fallback)
        (Py.split "," cell) []
  end.

(** Stable insertion sort, as [sorted] and [list.sort] order a list by
    [lt] on the keys. *)
Section Sort.
Context {A : Type} (lt : A -> A -> bool).

Fixpoint insert_sorted (x : A) (l : list A) : list A :=
  match l with
  | [] => [x]
  | y :: l' => if lt y x then y :: insert_sorted x l' else x :: l
  end.

Definition sort_by (l : list A) : list A := fold_right insert_sorted [] l.
End Sort.

Definition format_badges (names : list string) : string :=
  match names with
  | [] => "-"
  | _ =>
      let ordered := sort_by String.ltb names in
      Py.join " " (map badge_md ordered)
  end.

(** ** Table codec *)

(** [l[1:-1]]. *)
Definition inner {A : Type} (l : list A) : list A := removelast (tl l).

Definition parse_table_cells (line : string) : list string :=
  map Py.strip (inner (Py.split "|" (Py.strip line))).

Definition render_row (rank : Z) (row : HunterRow) : string :=
  "| " ++ str_of_int rank ++ " | " ++ hunter row ++ " | " ++ wallet row
  ++ " | " ++ str_of_int (xp row) ++ " | " ++ str_of_int (level row)
  ++ " | " ++ title row ++ " | " ++ format_badges (badges row) ++ " | "
  ++ last_action row ++ " | " ++ notes row ++ " |".

(** [a or b] on strings. *)
Definition or_else (a b : string) : string :=
  match a with "" => b | _ => a end.

Definition cell (cells : list string) (i : nat) : string := nth i cells "".

Definition determine_maybe (existing : list string) (name : string)
    (cond : bool) (unlocked : list string) : list string :=
  if cond && negb (mem name existing) && negb (mem name unlocked)
  then append unlocked name else unlocked.

Definition determine_new_badges (existing : list string) (old_xp new_xp : Z)
    (labels : list string) (actor : string) : list string :=
  let maybe := determine_maybe existing in
  let unlocked := [] in
  let unlocked := maybe "First Blood" (new_xp >? 0) unlocked in
  let unlocked := maybe "Rising Hunter" (new_xp >=? 1000) unlocked in
  let unlocked := maybe "Multiplier Hunter" (new_xp >=? 2000) unlocked in
  let unlocked := maybe "Veteran Hunter" (new_xp >=? 5500) unlocked in
  let unlocked := maybe "Legendary Hunter" (new_xp >=? 18000) unlocked in
  let unlocked := maybe "Vintage Veteran" (mem "vintage" labels) unlocked in
  let unlocked := maybe "Tutorial Titan"
                    (mem "tutorial" labels || mem "docs" labels) unlocked in
  let unlocked := maybe "Bug Slayer"
                    (mem "bug" labels || mem "security" labels
                     || mem "critical" labels) unlocked in
  let unlocked := maybe "Outreach Pro"
                    (mem "outreach" labels || mem "seo" labels
                     || mem "marketing" labels) unlocked in
  let unlocked := maybe "Streak Master" (mem "streak" labels) unlocked in
  let unlocked := maybe "Agent Overlord"
                    (Py.contains "agent" (Py.lower actor)
                     && (new_xp >=? 500)) unlocked in
  unlocked.

(** ** Ledger update *)

Definition TBD : string := "_TBD_".

(** [md[:n]] for a list of lines and the like. *)
Definition upto {A : Type} (n : nat) (l : list A) : list A := firstn n l.
Definition from {A : Type} (n : nat) (l : list A) : list A := skipn n l.

Fixpoint find_header (lines : list string) (i : nat) : option nat :=
  match lines with
  | [] => None
  | line :: rest =>
      if Py.startswith (Py.strip line) "| Rank | Hunter" then Some i
      else find_header rest (S i)
  end.

Definition is_table_line (line : string) : bool :=
  Py.startswith (Py.strip line) "|".

(** The [while] loop that finds the end of the table: the number of table
    lines from [start] on. *)
Fixpoint table_len (lines : list string) : nat :=
  match lines with
  | [] => 0
  | line :: rest => if is_table_line line then S (table_len rest) else 0
  end.

Fixpoint find_target (rows : list HunterRow) (actor_key : string) (i : nat)
  : option nat :=
  match rows with
  | [] => None
  | row :: rest =>
      if (Py.strip (hunter row) =? actor_key)%string then Some i
      else find_target rest actor_key (S i)
  end.

(** The rows are Python objects held by the list: changing the target
    changes the element at its position. *)
Fixpoint set_nth (i : nat) (r : HunterRow) (rows : list HunterRow)
  : list HunterRow :=
  match rows, i with
  | [], _ => []
  | _ :: rest, O => r :: rest
  | x :: rest, S j => x :: set_nth j r rest
  end.

Definition backfill (row : HunterRow) : HunterRow :=
  let retro := determine_new_badges (badges row) (xp row) (xp row) []
                 (hunter row) in
  mkHunterRow (hunter row) (wallet row) (xp row) (level row) (title row)
    (set_update (badges row) retro) (last_action row) (notes row).

Definition new_hunter (actor_key : string) : HunterRow :=
  mkHunterRow actor_key TBD 0 1 "Starting Hunter" [] "first award"
    "auto-tracked".

(** Sort key [(-row.xp, row.hunter.lower())], compared as Python compares
    tuples. *)
Definition row_lt (a b : HunterRow) : bool :=
  (- xp a <? - xp b)
  || ((- xp a =? - xp b) && String.ltb (Py.lower (hunter a)) (Py.lower (hunter b))).

Fixpoint render_rows (idx : Z) (rows : list HunterRow) : list string :=
  match rows with
  | [] => []
  | row :: rest => render_row idx row :: render_rows (idx + 1) rest
  end.

Definition placeholder_line : string :=
  "| 1 | _TBD_ | _TBD_ | 0 | 1 | Starting Hunter | - | bootstrap | tracker initialized |".

Definition LF : string := String "010" "".

(** The insertion of the award line after the ["## Latest Awards"]
    heading, or of a new heading at the end. *)
Definition insert_award (md_new award_line : string) : string :=
  let marker := "## Latest Awards" in
  match Py.find marker md_new with
  | Some idx =>
      match Py.find_at (LF ++ LF) md_new idx with
      | Some insert =>
          Py.slice_to (insert + 2) md_new ++ award_line ++ LF
          ++ Py.slice_from (insert + 2) md_new
      | None => md_new ++ LF ++ LF ++ award_line ++ LF
      end
  | None =>
      md_new ++ LF ++ LF ++ "## Latest Awards" ++ LF ++ LF ++ award_line ++ LF
  end.

(** The search for the target and, when there is none, the new row at
    the end: the rows and the position of the target among them. *)
Definition locate (rows : list HunterRow) (actor_key : string)
  : list HunterRow * nat :=
  match find_target rows actor_key 0 with
  | Some i => (rows, i)
  | None => (append rows (new_hunter actor_key), List.length rows)
  end.

(** What one award does to the decoded rows: the rows in their final
    order, the target as it ends, and the values the update returns. *)
Record awarded : Type := mkAwarded {
  aw_rows : list HunterRow;
  aw_target : HunterRow;
  aw_old_xp : Z;
  aw_total : Z;
  aw_level : Z;
  aw_title : string;
  aw_unlocked : list string
}.

Definition apply_award (stamp : string) (parsed : list HunterRow)
    (actor : string) (gained_xp : Z) (reason : string)
    (labels : list string) : awarded :=
  let rows := map backfill parsed in
  let actor_key := "@" ++ actor in
  let '(rows, pos) := locate rows actor_key in
  let target := nth pos rows (new_hunter actor_key) in
  let old_xp := xp target in
  let new_total := old_xp + gained_xp in
  let '(level, title) := get_level_and_title new_total in
  let unlocked := determine_new_badges (badges target) old_xp new_total
                    labels actor in
  let target :=
    mkHunterRow (hunter target) (wallet target) new_total level title
      (set_update (badges target) unlocked)
      (stamp ++ " (+" ++ str_of_int gained_xp ++ " XP: " ++ reason ++ ")")
      (notes target) in
  let rows := sort_by row_lt (set_nth pos target rows) in
  mkAwarded rows target old_xp new_total level title unlocked.

(** The header search and the [while] loop: where the table rows start
    and stop, or the error raised when there is no header. *)
Definition locate_table (lines : list string) : exc (nat * nat) :=
  match find_header lines 0 with
  | None => Raise (RuntimeError "Leaderboard table header not found")
  | Some header_idx =>
      let start := (header_idx + 2)%nat in
      Ok (start, (start + table_len (from start lines))%nat)
  end.

(** [lines[start:stop]]. *)
Definition table_lines (lines : list string) (start stop : nat)
  : list string :=
  upto (stop - start) (from start lines).

Definition award_line_of (stamp actor : string) (gained_xp : Z)
    (reason : string) (aw : awarded) : string :=
  let award_line :=
    "- " ++ stamp ++ ": @" ++ actor ++ " earned **"
    ++ str_of_int gained_xp ++ " XP** (" ++ reason ++ ") -> Total: "
    ++ str_of_int (aw_total aw) ++ " XP (Level "
    ++ str_of_int (aw_level aw) ++ " - " ++ aw_title aw ++ ")" in
  match aw_unlocked aw with
  | [] => award_line
  | _ => award_line ++ " | New badges: " ++ Py.join ", " (aw_unlocked aw)
  end.

(** The second half of [update_table_in_md]: the document rebuilt around
    the new table, with the award line. *)
Definition serialize (stamp : string) (lines : list string)
    (start stop : nat) (aw : awarded) (actor : string) (gained_xp : Z)
    (reason : string) : string :=
  let new_table_lines :=
    match render_rows 1 (aw_rows aw) with
    | [] => [placeholder_line]
    | ls => ls
    end in
  let rebuilt := (upto start lines ++ new_table_lines
                  ++ from stop lines)%list in
  let md_new := Py.join LF rebuilt in
  let md_new := insert_award md_new
                  (award_line_of stamp actor gained_xp reason aw) in
  Py.rstrip md_new ++ LF.

Section Codec.

(** [int(float(text))]: [None] where it raises. *)
Variable int_float : string -> option Z.

Definition parse_hunter_row (cells : list string) : option HunterRow :=
  if (List.length cells <? 7)%nat then None
  else if (9 <=? List.length cells)%nat then
    let xp_val := match int_float (cell cells 3) with
                  | Some n => n | None => 0 end in
    let level_val := match int_float (cell cells 4) with
                     | Some n => n
                     | None => fst (get_level_and_title xp_val)
                     end in
    let title_val := or_else (Py.strip (cell cells 5))
                       (snd (get_level_and_title xp_val)) in
    Some (mkHunterRow (Py.strip (cell cells 1))
            (or_else (Py.strip (cell cells 2)) TBD)
            xp_val level_val title_val
            (parse_badges (cell cells 6))
            (Py.strip (cell cells 7))
            (Py.strip (cell cells 8)))
  else
    let xp_val := match int_float (cell cells 3) with
                  | Some n => n | None => 0 end in
    let level_val := match int_float (cell cells 4) with
                     | Some n => n
                     | None => fst (get_level_and_title xp_val)
                     end in
    let title := snd (get_level_and_title xp_val) in
    Some (mkHunterRow (Py.strip (cell cells 1))
            (or_else (Py.strip (cell cells 2)) TBD)
            xp_val level_val title
            []
            (if (5 <? List.length cells)%nat
             then Py.strip (cell cells 5) else "")
            (if (6 <? List.length cells)%nat
             then Py.strip (cell cells 6) else "")).

(** The loop that decodes the table lines, template rows left out. *)
Fixpoint parse_rows (table : list string) : list HunterRow :=
  match table with
  | [] => []
  | line :: rest =>
      match parse_hunter_row (parse_table_cells line) with
      | None => parse_rows rest
      | Some row =>
          if (hunter row =? TBD)%string then parse_rows rest
          else row :: parse_rows rest
      end
  end.

(** The first half of [update_table_in_md] on the lines of the
    document: the rows decoded and the award applied. *)
Definition updated_ledger (stamp : string) (lines : list string)
    (actor : string) (gained_xp : Z) (reason : string)
    (labels : list string) : exc (nat * nat * awarded) :=
  match locate_table lines with
  | Raise e => Raise e
  | Ok (start, stop) =>
      let parsed := parse_rows (table_lines lines start stop) in
      Ok (start, stop,
          apply_award stamp parsed actor gained_xp reason labels)
  end.

Definition update_lines (stamp : string) (lines : list string)
    (actor : string) (gained_xp : Z) (reason : string)
    (labels : list string)
  : exc (string * Z * Z * string * list string) :=
  match updated_ledger stamp lines actor gained_xp reason labels with
  | Raise e => Raise e
  | Ok (start, stop, aw) =>
      Ok (serialize stamp lines start stop aw actor gained_xp reason,
          aw_total aw, aw_level aw, aw_title aw, aw_unlocked aw)
  end.

Definition update_table_in_md (stamp md actor : string) (gained_xp : Z)
    (reason : string) (labels : list string)
  : exc (string * Z * Z * string * list string) :=
  update_lines stamp (Py.splitlines md) actor gained_xp reason labels.

End Codec.

(** ** Front matter *)

Definition all_digits (cs : list ascii) : bool := forallb Py.isdigit cs.

(** A match of [last_updated:\s*\d{4}-\d{2}-\d{2}] at the head of [s]:
    what follows the match. *)
Definition match_last_updated (s : string) : option string :=
  if Py.startswith s "last_updated:" then
    match Py.drop_while Py.isspace (Py.slice_from 13 s) with
    | String y1 (String y2 (String y3 (String y4 (String "-"
        (String m1 (String m2 (String "-" (String d1 (String d2 rest))))))))) =>
        if all_digits [y1; y2; y3; y4; m1; m2; d1; d2] then Some rest else None
    | _ => None
    end
  else None.

(** [re.sub(..., f"last_updated: {today}", md, count=1)]. *)
Fixpoint update_frontmatter (today md : string) : string :=
  match match_last_updated md with
  | Some rest => "last_updated: " ++ today ++ rest
  | None =>
      match md with
      | "" => ""
      | String c md' => String c (update_frontmatter today md')
      end
  end.

(** ** Driver *)

Record Args : Type := mkArgs {
  arg_token : string;
  arg_repo : string;
  arg_actor : string;
  arg_event_type : string;
  arg_event_action : string;
  arg_labels : string;
  arg_pr_merged : string;
  arg_branch : string;
  arg_tracker_path : string;
  arg_local_file : string
}.

(** The JSON object the script prints. *)
Record Result : Type := mkResult {
  res_mode : string;
  res_actor : string;
  res_awarded_xp : Z;
  res_total_xp : Z;
  res_level : Z;
  res_title : string;
  res_reason : string;
  res_new_badges : list string;
  res_commit_url : string
}.

(** What the outside answers: the clock and the store at each attempt
    (attempts count from 1), and the local file. *)
Record World : Type := mkWorld {
  clock_today : nat -> string;
  clock_stamp : nat -> string;
  remote_get : nat -> exc (string * string);
  remote_put : nat -> exc string;
  local_read : exc string;
  local_write : option error
}.

(** The calls the script makes, in order. *)
Inductive event : Type :=
| EvRead
| EvWrite (content : string)
| EvGet (attempt : nat)
| EvPut (attempt : nat) (sha content message : string).

(** The variables the retry loop assigns. *)
Record loop_state : Type := mkLoop {
  ls_commit_url : string;
  ls_total_xp : Z;
  ls_level : Z;
  ls_title : string;
  ls_unlocked : list string;
  ls_conflict_exhausted : bool
}.

Definition max_attempts : nat := 4.

Section Driver.

Variable int_float : string -> option Z.
Variable w : World.

Section Loop.
Variables (actor message reason : string) (gained_xp : Z)
  (labels : list string).

(** [for attempt in range(1, max_attempts + 1)], over the attempts left. *)
Fixpoint retry_loop (attempts : list nat) (st : loop_state)
  : list event * exc loop_state :=
  match attempts with
  | [] => ([], Ok st)
  | attempt :: rest =>
      match remote_get w attempt with
      | Raise e => ([EvGet attempt], Raise e)
      | Ok (content, sha) =>
          let content := update_frontmatter (clock_today w attempt) content in
          match update_table_in_md int_float (clock_stamp w attempt)
                  content actor gained_xp reason labels with
          | Raise e => ([EvGet attempt], Raise e)
          | Ok (updated_md, total_xp, level, title, unlocked) =>
              let st := mkLoop (ls_commit_url st) total_xp level title
                          unlocked (ls_conflict_exhausted st) in
              let evs := [EvGet attempt;
                          EvPut attempt sha updated_md message] in
              match remote_put w attempt with
              | Ok url =>
                  (evs, Ok (mkLoop url total_xp level title unlocked
                              (ls_conflict_exhausted st)))
              | Raise (HTTPError (Some 409)) =>
                  if (attempt <? max_attempts)%nat then
                    let '(evs', r) := retry_loop rest st in
                    ((evs ++ evs')%list, r)
                  else
                    (evs, Ok (mkLoop (ls_commit_url st) total_xp level
                                title unlocked true))
              | Raise e => (evs, Raise e)
              end
          end
      end
  end.
End Loop.

Definition main (args : Args) : list event * exc Result :=
  let labels := parse_labels (arg_labels args) in
  let pr_merged := is_true (arg_pr_merged args) in
  let '(gained_xp, reason) :=
    calculate_xp (arg_event_type args) (arg_event_action args) labels
      pr_merged in
  if negb (arg_local_file args =? "")%string then
    match local_read w with
    | Raise e => ([EvRead], Raise e)
    | Ok md =>
        let md := update_frontmatter (clock_today w 1) md in
        match update_table_in_md int_float (clock_stamp w 1) md
                (arg_actor args) gained_xp reason labels with
        | Raise e => ([EvRead], Raise e)
        | Ok (updated_md, total_xp, level, title, unlocked) =>
            match local_write w with
            | Some e => ([EvRead; EvWrite updated_md], Raise e)
            | None =>
                ([EvRead; EvWrite updated_md],
                 Ok (mkResult "local" (arg_actor args) gained_xp total_xp
                       level title reason unlocked ""))
            end
        end
    end
  else if (arg_token args =? "")%string || (arg_repo args =? "")%string then
    ([], Raise (SystemExit "--token and --repo are required in API mode"))
  else
    let message := "chore(xp): update tracker for @" ++ arg_actor args
                   ++ " (+" ++ str_of_int gained_xp ++ " XP)" in
    let st0 := mkLoop "" 0 1 "Starting Hunter" [] false in
    match retry_loop (arg_actor args) message reason gained_xp labels
            (seq 1 max_attempts) st0 with
    | (evs, Raise e) => (evs, Raise e)
    | (evs, Ok st) =>
        let result_reason :=
          if ls_conflict_exhausted st
          then reason ++ "; commit_conflict_skipped" else reason in
        (evs,
         Ok (mkResult "api" (arg_actor args) gained_xp (ls_total_xp st)
               (ls_level st) (ls_title st) result_reason (ls_unlocked st)
               (ls_commit_url st)))
    end.

End Driver.

(** ** A number parser to run the model on *)

(** [int(float(text))] on a text of one to fifteen decimal digits: each
    such integer is a float, so Python returns the number written.  On
    any other text this parser answers [None], which need not be what
    Python does there; it serves to run the model on documents whose
    numeric cells are of that kind, and the theorems hold for every
    parser. *)
Fixpoint digits_value (s : string) (acc : Z) : option Z :=
  match s with
  | "" => Some acc
  | String c s' =>
      if Py.isdigit c
      then digits_value s' (10 * acc + Z.of_nat (Py.code c - 48))
      else None
  end.

Definition int_float_digits (text : string) : option Z :=
  match text with
  | "" => None
  | _ => if (length text <=? 15)%nat then digits_value text 0 else None
  end.

(** ** Documents to run the model on *)

Definition table_header : string :=
  "| Rank | Hunter | Wallet | XP | Level | Title | Badges | Last Action | Notes |".

Definition table_rule : string := "|---|---|---|---|---|---|---|---|---|".

(** A ledger whose first row carries a level and a title that do not
    belong to its XP, whose second row is one cell-pair short of a row,
    and whose only handle differs from [@bob] by letter case. *)
Definition stale_ledger : string :=
  Py.join LF
    [ "# XP Tracker"; "last_updated: 2024-01-01"; "";
      table_header; table_rule;
      "| 1 | @Bob | w1 | 5000 | 1 | Starting Hunter | - | seed | kept |";
      "| 2 | @amy | w2 | 120 |";
      "";
      "## Latest Awards"; ""; "- seed line"; "" ].

(** The same ledger without the malformed row. *)
Definition stale_ledger_clean : string :=
  Py.join LF
    [ "# XP Tracker"; "last_updated: 2024-01-01"; "";
      table_header; table_rule;
      "| 1 | @Bob | w1 | 5000 | 1 | Starting Hunter | - | seed | kept |";
      "";
      "## Latest Awards"; ""; "- seed line"; "" ].

(** A ledger with its table and no award-log heading. *)
Definition ledger_without_log : string :=
  Py.join LF
    [ "# XP Tracker"; "";
      table_header; table_rule;
      "| 1 | @amy | w2 | 120 | 1 | Starting Hunter | - | seed | kept |" ].

Definition example_stamp : string := "2026-01-05 10:00 UTC".

(** A simulated store: attempt 1 reads [stale_ledger], every later
    attempt reads what another writer has put meanwhile,
    [stale_ledger_clean]; the first [conflicts] writes meet a version
    conflict and the next one is accepted. *)
Definition simulated_world (conflicts : nat) : World :=
  mkWorld
    (fun _ => "2026-01-05")
    (fun _ => example_stamp)
    (fun k => if (k <=? 1)%nat then Ok (stale_ledger, "v1")
              else Ok (stale_ledger_clean, "v2"))
    (fun k => if (k <=? conflicts)%nat
              then Raise (HTTPError (Some 409))
              else Ok "https://example.test/commit/1")
    (Raise (OtherException "FileNotFoundError"))
    None.

Definition example_args : Args :=
  mkArgs "token" "owner/repo" "Bob" "issues" "closed" "standard" "false"
    "main" "bounties/XP_TRACKER.md" "".

(** ** Predicates and tables the properties are stated with *)

(** [band] is the band of the table that contains [total_xp]: its
    threshold is at most [total_xp] and no threshold above it is. *)
Definition band_of (total_xp : Z) (band : Z * Z * string) : Prop :=
  In band LEVEL_THRESHOLDS /\
  fst (fst band) <= total_xp /\
  forall other, In other LEVEL_THRESHOLDS ->
                fst (fst other) <= total_xp ->
                fst (fst other) <= fst (fst band).

(** The bonus rules of the award calculator as the specification lists
    them: whether the rule fires on the event, and its constant. *)
Definition bonus_rules (event_type event_action : string)
    (labels : list string) (pr_merged : bool) : list (bool * Z) :=
  [ (mem "bounty-approved" labels, 200);
    (pr_merged, 300);
    ((event_type =? "issues")%string && (event_action =? "closed")%string, 80);
    (mem "micro" labels, 50);
    (mem "standard" labels, 100);
    (mem "major" labels, 200);
    (mem "critical" labels, 300);
    (mem "tutorial" labels || mem "docs" labels, 150);
    (mem "vintage" labels, 100);
    (mem "outreach" labels || mem "seo" labels || mem "marketing" labels, 30) ].

(** The constants of the rules that fire. *)
Definition contributing (rules : list (bool * Z)) : list Z :=
  map snd (filter fst rules).

Definition sum_Z (l : list Z) : Z := fold_right Z.add 0 l.

Definition BASE_ACTION_XP : Z := 50.

(** The badge rules in the order [determine_new_badges] evaluates them:
    the name of the badge and whether its predicate holds. *)
Definition badge_rules (new_xp : Z) (labels : list string) (actor : string)
  : list (string * bool) :=
  [ ("First Blood", new_xp >? 0);
    ("Rising Hunter", new_xp >=? 1000);
    ("Multiplier Hunter", new_xp >=? 2000);
    ("Veteran Hunter", new_xp >=? 5500);
    ("Legendary Hunter", new_xp >=? 18000);
    ("Vintage Veteran", mem "vintage" labels);
    ("Tutorial Titan", mem "tutorial" labels || mem "docs" labels);
    ("Bug Slayer",
     mem "bug" labels || mem "security" labels || mem "critical" labels);
    ("Outreach Pro",
     mem "outreach" labels || mem "seo" labels || mem "marketing" labels);
    ("Streak Master", mem "streak" labels);
    ("Agent Overlord",
     Py.contains "agent" (Py.lower actor) && (new_xp >=? 500)) ].

(** The calls of [maybe] in a row. *)
Definition run_rules (existing : list string) (rules : list (string * bool))
    (unlocked : list string) : list string :=
  fold_left (fun u r => determine_maybe existing (fst r) (snd r) u)
    rules unlocked.

(** The lookup as the specification words it: a record whose handle
    differs from the actor's in letter case only takes the award, and no
    record is added. *)
Definition lookup_ignores_case : Prop :=
  forall stamp parsed actor gained_xp reason labels r,
    In r parsed ->
    Py.lower (hunter r) = Py.lower ("@" ++ actor) ->
    List.length
      (aw_rows (apply_award stamp parsed actor gained_xp reason labels))
    = List.length parsed.

(** The invariant of the data model on a list of records. *)
Definition levels_resolved (rows : list HunterRow) : Prop :=
  forall r, In r rows -> (level r, title r) = get_level_and_title (xp r).

(** *** The driver seen from outside *)

(** Remote mode: no local file, and a token and a repository. *)
Definition remote_mode (args : Args) : Prop :=
  arg_local_file args = "" /\ arg_token args <> "" /\ arg_repo args <> "".

Definition labels_of (args : Args) : list string :=
  parse_labels (arg_labels args).

(** The delta and the reason [main] computes once, before the loop. *)
Definition award_of (args : Args) : Z * string :=
  calculate_xp (arg_event_type args) (arg_event_action args)
    (labels_of args) (is_true (arg_pr_merged args)).

Definition commit_message (args : Args) : string :=
  "chore(xp): update tracker for @" ++ arg_actor args ++ " (+"
  ++ str_of_int (fst (award_of args)) ++ " XP)".

(** The document as the attempt [k] holds it after the date stamp. *)
Definition fresh_document (w : World) (k : nat) (content : string)
  : string :=
  update_frontmatter (clock_today w k) content.

(** The read and the update of attempt [k]: the version token read, and
    what [update_table_in_md] returns on the document just fetched. *)
Definition attempt_update (int_float : string -> option Z) (w : World)
    (args : Args) (k : nat)
  : exc (string * (string * Z * Z * string * list string)) :=
  match remote_get w k with
  | Raise e => Raise e
  | Ok (content, sha) =>
      match update_table_in_md int_float (clock_stamp w k)
              (fresh_document w k content) (arg_actor args)
              (fst (award_of args)) (snd (award_of args)) (labels_of args)
      with
      | Raise e => Raise e
      | Ok r => Ok (sha, r)
      end
  end.

(** The store calls of an attempt that reaches its write. *)
Definition attempt_events (int_float : string -> option Z) (w : World)
    (args : Args) (k : nat) : list event :=
  match attempt_update int_float w args k with
  | Ok (sha, (updated_md, _, _, _, _)) =>
      [EvGet k; EvPut k sha updated_md (commit_message args)]
  | Raise _ => [EvGet k]
  end.

(** The attempts that wrote, and the documents the store accepted. *)
Fixpoint puts (evs : list event) : list nat :=
  match evs with
  | [] => []
  | EvPut k _ _ _ :: rest => k :: puts rest
  | _ :: rest => puts rest
  end.

Fixpoint gets (evs : list event) : list nat :=
  match evs with
  | [] => []
  | EvGet k :: rest => k :: gets rest
  | _ :: rest => gets rest
  end.

Fixpoint committed (w : World) (evs : list event) : list string :=
  match evs with
  | [] => []
  | EvPut k _ content _ :: rest =>
      match remote_put w k with
      | Ok _ => content :: committed w rest
      | Raise _ => committed w rest
      end
  | _ :: rest => committed w rest
  end.


Definition conflict : exc string := Raise (HTTPError (Some 409)).

Definition conflict_marker : string := "; commit_conflict_skipped".

Definition missing_header : error :=
  RuntimeError "Leaderboard table header not found".

(** The target after the award, from the row it was. *)
Definition awarded_target (stamp : string) (old : HunterRow) (actor : string)
    (gained_xp : Z) (reason : string) (labels : list string) : HunterRow :=
  let new_total := xp old + gained_xp in
  mkHunterRow (hunter old) (wallet old) new_total
    (fst (get_level_and_title new_total))
    (snd (get_level_and_title new_total))
    (set_update (badges old)
       (determine_new_badges (badges old) (xp old) new_total labels actor))
    (stamp ++ " (+" ++ str_of_int gained_xp ++ " XP: " ++ reason ++ ")")
    (notes old).

(** Where the target is found among the decoded rows. *)
Inductive located (parsed : list HunterRow) (key : string)
  : list HunterRow -> HunterRow -> list HunterRow -> Prop :=
| located_new :
    (forall r, In r parsed -> Py.strip (hunter r) <> key) ->
    located parsed key (map backfill parsed) (new_hunter key) []
| located_old (pb : list HunterRow) (po : HunterRow) (pa : list HunterRow) :
    parsed = (pb ++ po :: pa)%list ->
    Py.strip (hunter po) = key ->
    (forall r, In r pb -> Py.strip (hunter r) <> key) ->
    located parsed key (map backfill pb) (backfill po) (map backfill pa).

(** An attempt that reaches its write and meets a conflict. *)
Definition conflicting (int_float : string -> option Z) (w : World)
    (args : Args) (k : nat) : Prop :=
  (exists sha r, attempt_update int_float w args k = Ok (sha, r)) /\
  remote_put w k = conflict.

(** How many times [c] occurs in [s]. *)
Fixpoint count_char (c : ascii) (s : string) : nat :=
  match s with
  | "" => 0
  | String a s' =>
      if Ascii.eqb a c then S (count_char c s') else count_char c s'
  end.

(** The order of the table: more XP first, and among equal XP the
    handle that comes first once lowercased. *)
Definition row_le (a b : HunterRow) : Prop :=
  xp b < xp a \/
  (xp a = xp b /\
   String.leb (Py.lower (hunter a)) (Py.lower (hunter b)) = true).

(** No leading and no trailing whitespace, which is what [strip]
    leaves, and no column separator. *)
Definition is_cell (s : string) : Prop :=
  Py.strip s = s /\ count_char "|" s = 0%nat.

(** Every character of [s] satisfies [p]. *)
Fixpoint all_chars (p : ascii -> bool) (s : string) : bool :=
  match s with
  | "" => true
  | String c s' => p c && all_chars p s'
  end.

(** What [quote] writes: unreserved characters, [/] and percent signs. *)
Definition url_char (c : ascii) : bool := quote_safe c || Ascii.eqb c "%".

(** The characters of a badge address: those of [quote] and the
    punctuation of the address itself. *)
Definition address_char (c : ascii) : bool :=
  url_char c || Ascii.eqb c ":" || Ascii.eqb c "?" || Ascii.eqb c "="
  || Ascii.eqb c "&".







(** A date as the front matter holds it: [dddd-dd-dd]. *)
Definition iso_date (y1 y2 y3 y4 m1 m2 d1 d2 : ascii) : string :=
  String y1 (String y2 (String y3 (String y4 (String "-"
    (String m1 (String m2 (String "-" (String d1 (String d2 ""))))))))).

(** [sub] does not occur in [p ++ q] at an offset inside [p]. *)
Definition first_at (sub p q : string) : Prop :=
  forall p1 p2, p = p1 ++ p2 -> p2 <> "" -> prefix sub (p2 ++ q) = false.

Definition AWARDS_HEADING : string := "## Latest Awards".

(** The text ends with a character that is not white space. *)
Definition solid_end (s : string) : bool :=
  match Py.rev s with
  | String c _ => negb (Py.isspace c)
  | "" => false
  end.

(** The text is empty or ends with a line feed; the text is empty or
    starts with one. *)
Fixpoint ends_lf (s : string) : bool :=
  match s with
  | "" => true
  | String c "" => Ascii.eqb c "010"
  | String _ s' => ends_lf s'
  end.

Definition starts_lf (s : string) : bool :=
  match s with
  | "" => true
  | String c _ => Ascii.eqb c "010"
  end.

(** No character of the text is a line boundary of [str.splitlines]. *)
Definition nobreak (s : string) : bool :=
  all_chars (fun c => negb (Py.is_linebreak c)) s.

(** [h] stands in [s] between line feeds or the ends of the text. *)
Definition holds_line (h s : string) : Prop :=
  exists above below,
    s = above ++ h ++ below /\ ends_lf above = true /\ starts_lf below = true.

(** The line opens the leaderboard table. *)
Definition is_header (line : string) : bool :=
  Py.startswith (Py.strip line) "| Rank | Hunter".

(** The text is empty or ends with a line boundary; the text is empty or
    starts with one. *)
Fixpoint ends_break (s : string) : bool :=
  match s with
  | "" => true
  | String c "" => Py.is_linebreak c
  | String _ s' => ends_break s'
  end.

Definition starts_break (s : string) : bool :=
  match s with
  | "" => true
  | String c _ => Py.is_linebreak c
  end.

Definition HEADER_PREFIX : string := "| Rank | Hunter".

(** A line of the text starts, after white space, with the header of
    the leaderboard table. *)
Definition opens_table (s : string) : Prop :=
  exists above sp rest,
    s = above ++ sp ++ HEADER_PREFIX ++ rest /\
    ends_break above = true /\
    all_chars Py.isspace sp = true /\ nobreak sp = true.

(** A document with a line that opens the table. *)
Definition has_header (md : string) : Prop :=
  exists hd, In hd (Py.splitlines md) /\ is_header hd = true.

(** [md_new] before the award line goes in: the lines of the document
    with the table rows replaced by the rendered ones, joined. *)
Definition rebuilt_document (lines : list string) (start stop : nat)
    (aw : awarded) : string :=
  let new_table_lines :=
    match render_rows 1 (aw_rows aw) with
    | [] => [placeholder_line]
    | ls => ls
    end in
  Py.join LF (upto start lines ++ new_table_lines ++ from stop lines)%list.


(** * Properties *)

(** ** Level engine *)

Ltac split_band H :=
  repeat match type of H with
         | _ \/ _ => destruct H as [H | H]
         | False => contradiction
         | (_, _, _) = _ => subst; cbn [fst snd]
         end.

Lemma band_of_unique (total_xp : Z) (b1 b2 : Z * Z * string) :
  band_of total_xp b1 -> band_of total_xp b2 -> b1 = b2.
Proof.
  intros (I1 & L1 & M1) (I2 & L2 & M2).
  pose proof (M1 _ I2 L2) as A. pose proof (M2 _ I1 L1) as B.
  assert (E : fst (fst b1) = fst (fst b2)) by lia.
  clear - I1 I2 E. unfold LEVEL_THRESHOLDS in *. cbn [In] in *.
  split_band I1; split_band I2; cbn in E; try reflexivity; discriminate.
Qed.

Lemma get_level_and_title_cases (total_xp : Z) :
  let r := get_level_and_title total_xp in
  (total_xp < 200 /\ r = (1, "Starting Hunter")) \/
  (200 <= total_xp < 500 /\ r = (2, "Basic Hunter")) \/
  (500 <= total_xp < 1000 /\ r = (3, "Priority Hunter")) \/
  (1000 <= total_xp < 2000 /\ r = (4, "Rising Hunter")) \/
  (2000 <= total_xp < 3500 /\ r = (5, "Multiplier Hunter")) \/
  (3500 <= total_xp < 5500 /\ r = (6, "Featured Hunter")) \/
  (5500 <= total_xp < 8000 /\ r = (7, "Veteran Hunter")) \/
  (8000 <= total_xp < 12000 /\ r = (8, "Elite Hunter")) \/
  (12000 <= total_xp < 18000 /\ r = (9, "Master Hunter")) \/
  (18000 <= total_xp /\ r = (10, "Legendary Hunter")).
Proof.
  unfold get_level_and_title. cbn [LEVEL_THRESHOLDS rev app first_band].
  repeat match goal with
         | |- context [?x >=? ?t] =>
             destruct (Z.geb_spec x t)
         end; cbn zeta; intuition lia.
Qed.

(** C4. For every [total_xp >= 0], [get_level_and_title] returns the level
    and title of the one band of the table whose threshold is at most
    [total_xp] while no higher threshold is; and for every [total_xp] that
    is 0 or negative it returns level 1 with the lowest band's title. *)
Theorem get_level_and_title_exact (total_xp : Z) :
  (0 <= total_xp ->
   exists band,
     band_of total_xp band /\
     get_level_and_title total_xp = (snd (fst band), snd band) /\
     forall band', band_of total_xp band' -> band' = band) /\
  (total_xp <= 0 ->
   get_level_and_title total_xp = (1, "Starting Hunter") /\
   nth_error LEVEL_THRESHOLDS 0 = Some (0, 1, "Starting Hunter")).
Proof.
  split.
  - intros Hpos.
    assert (X : exists band, band_of total_xp band /\
                  get_level_and_title total_xp = (snd (fst band), snd band)).
    { pose proof (get_level_and_title_cases total_xp) as C. cbn zeta in C.
      destruct C as [[R E] | [[R E] | [[R E] | [[R E] | [[R E] | [[R E]
                   | [[R E] | [[R E] | [[R E] | [R E]]]]]]]]]];
        rewrite E;
        [ exists (0, 1, "Starting Hunter")
        | exists (200, 2, "Basic Hunter")
        | exists (500, 3, "Priority Hunter")
        | exists (1000, 4, "Rising Hunter")
        | exists (2000, 5, "Multiplier Hunter")
        | exists (3500, 6, "Featured Hunter")
        | exists (5500, 7, "Veteran Hunter")
        | exists (8000, 8, "Elite Hunter")
        | exists (12000, 9, "Master Hunter")
        | exists (18000, 10, "Legendary Hunter") ];
        (split; [ | reflexivity ]);
        unfold band_of, LEVEL_THRESHOLDS; cbn [In fst snd];
        (split; [ repeat (try (left; reflexivity); right) | ]);
        (split; [ lia | ]);
        intros other Ho Hle; split_band Ho; cbn [fst snd] in *; lia. }
    destruct X as (band & B & E). exists band.
    split; [ exact B | split; [ exact E | ] ].
    intros band' B'. eapply band_of_unique; eauto.
  - intros Hneg. split; [ | reflexivity ].
    pose proof (get_level_and_title_cases total_xp) as C. cbn zeta in C.
    intuition lia.
Qed.

(** ** Award calculator *)

Lemma fst_bonus_if (cond : bool) (n : Z) (r : string)
    (st : Z * list string) :
  fst (bonus_if cond n r st) = fst st + (if cond then n else 0).
Proof. unfold bonus_if. destruct cond; cbn [fst]; lia. Qed.

Lemma fst_rtc_note (labels : list string) (st : Z * list string) :
  fst (rtc_note labels st) = fst st.
Proof. unfold rtc_note. destruct (rtc_search _); reflexivity. Qed.

Lemma fst_base_action (st : Z * list string) :
  fst (base_action st) = if fst st =? 0 then 50 else fst st.
Proof. unfold base_action. destruct (fst st =? 0); reflexivity. Qed.

Lemma sum_contributing_cons (b : bool) (n : Z) (rules : list (bool * Z)) :
  sum_Z (contributing ((b, n) :: rules)) =
  (if b then n else 0) + sum_Z (contributing rules).
Proof. unfold contributing. cbn [filter fst]. destruct b; reflexivity. Qed.

Lemma calculate_xp_fst (event_type event_action : string)
    (labels : list string) (pr_merged : bool) :
  fst (calculate_xp event_type event_action labels pr_merged) =
  let total := sum_Z (contributing
                 (bonus_rules event_type event_action labels pr_merged)) in
  if total =? 0 then BASE_ACTION_XP else total.
Proof.
  unfold calculate_xp, bonus_rules, BASE_ACTION_XP. cbv zeta. cbn [fst].
  rewrite fst_base_action.
  rewrite !fst_bonus_if, fst_rtc_note, !fst_bonus_if.
  rewrite !sum_contributing_cons. cbn [fst].
  change (sum_Z (contributing [])) with 0.
  match goal with
  | |- (if ?a =? 0 then _ else _) = (if ?b =? 0 then _ else _) =>
      replace a with b by lia
  end.
  destruct (_ =? 0); reflexivity.
Qed.

Lemma contributing_positive (rules : list (bool * Z)) :
  Forall (fun r => 0 < snd r) rules ->
  0 <= sum_Z (contributing rules) /\
  (contributing rules <> [] -> 0 < sum_Z (contributing rules)).
Proof.
  unfold contributing. induction 1 as [ | [b n] rules Hn _ [IH1 IH2]].
  - cbn. split; [ lia | congruence ].
  - cbn [filter fst]. destruct b; cbn [map snd sum_Z fold_right] in *.
    + fold (sum_Z (map snd (filter fst rules))) in *. split; intros; lia.
    + split; assumption.
Qed.

Lemma bonus_rules_positive (event_type event_action : string)
    (labels : list string) (pr_merged : bool) :
  Forall (fun r => 0 < snd r)
    (bonus_rules event_type event_action labels pr_merged).
Proof. unfold bonus_rules. repeat constructor. Qed.

(** C8. [calculate_xp] never returns an XP delta of 0: when at least one
    bonus rule contributes the delta is the sum of the constants of the
    contributing rules, and when none does it is the base-action bonus. *)
Theorem calculate_xp_never_zero (event_type event_action : string)
    (labels : list string) (pr_merged : bool) :
  let xp := fst (calculate_xp event_type event_action labels pr_merged) in
  let amounts :=
    contributing (bonus_rules event_type event_action labels pr_merged) in
  xp <> 0 /\
  (amounts <> [] -> xp = sum_Z amounts) /\
  (amounts = [] -> xp = BASE_ACTION_XP).
Proof.
  cbn zeta. rewrite calculate_xp_fst. cbn zeta.
  pose proof (contributing_positive _
                (bonus_rules_positive event_type event_action labels
                   pr_merged)) as [P0 P1].
  set (amounts := contributing _) in *.
  destruct (Z.eqb_spec (sum_Z amounts) 0) as [E | E].
  - unfold BASE_ACTION_XP. split; [ lia | ]. split.
    + intros N. specialize (P1 N). lia.
    + reflexivity.
  - split; [ exact E | ]. split; [ reflexivity | ].
    intros ->. cbn in E. contradiction.
Qed.

Lemma calculate_xp_never_zero_witness :
  fst (calculate_xp "issues" "closed" ["standard"; "docs"] true) = 630
  /\ fst (calculate_xp "push" "" ["wontfix"] false) = 50.
Proof.
  split.
  - destruct (calculate_xp_never_zero "issues" "closed" ["standard"; "docs"]
                true) as (_ & H & _).
    rewrite H; [ reflexivity | discriminate ].
  - destruct (calculate_xp_never_zero "push" "" ["wontfix"] false)
      as (_ & _ & H).
    rewrite H; reflexivity.
Defined.

Lemma get_level_and_title_exact_witness :
  get_level_and_title 2050 = (5, "Multiplier Hunter")
  /\ get_level_and_title (-3) = (1, "Starting Hunter").
Proof.
  split.
  - destruct (get_level_and_title_exact 2050) as [H _].
    destruct H as (band & _ & E & U); [ lia | ].
    rewrite E.
    rewrite <- (U (2000, 5, "Multiplier Hunter")); [ reflexivity | ].
    unfold band_of, LEVEL_THRESHOLDS; cbn [In fst snd].
    split; [ repeat (try (left; reflexivity); right) | ].
    split; [ lia | ].
    intros other Ho Hle; split_band Ho; cbn [fst snd] in *; lia.
  - destruct (get_level_and_title_exact (-3)) as [_ H].
    apply H. lia.
Defined.

(** ** Sets and badges *)

Lemma mem_In (x : string) (s : list string) : mem x s = true <-> In x s.
Proof.
  unfold mem. rewrite existsb_exists. split.
  - intros (y & Hy & E). apply String.eqb_eq in E. now subst.
  - intros H. exists x. split; [ exact H | apply String.eqb_refl ].
Qed.

Lemma mem_append (x y : string) (s : list string) :
  mem x (append s y) = mem x s || String.eqb x y.
Proof.
  unfold mem, append. rewrite existsb_app. cbn. now rewrite orb_false_r.
Qed.

Lemma mem_set_add (x y : string) (s : list string) :
  mem x (set_add y s) = mem x s || String.eqb x y.
Proof.
  unfold set_add. destruct (mem y s) eqn:E.
  - destruct (String.eqb_spec x y) as [-> | _].
    + now rewrite E.
    + now rewrite orb_false_r.
  - apply mem_append.
Qed.

Lemma mem_set_update (x : string) (xs s : list string) :
  mem x (set_update s xs) = mem x s || mem x xs.
Proof.
  unfold set_update. revert s.
  induction xs as [ | y xs IH]; intros s; cbn [fold_left].
  - cbn. now rewrite orb_false_r.
  - rewrite IH, mem_set_add. cbn [mem existsb].
    fold (mem x xs). now rewrite orb_assoc.
Qed.

Lemma determine_new_badges_rules (existing : list string) (old_xp new_xp : Z)
    (labels : list string) (actor : string) :
  determine_new_badges existing old_xp new_xp labels actor =
  run_rules existing (badge_rules new_xp labels actor) [].
Proof. reflexivity. Qed.

Lemma NoDup_append (x : string) (l : list string) :
  NoDup l -> mem x l = false -> NoDup (append l x).
Proof.
  intros N M. unfold append.
  assert (P : NoDup (x :: l)).
  { constructor; [ | exact N ].
    intros I. apply mem_In in I. congruence. }
  eapply Permutation_NoDup; [ | exact P ].
  apply Permutation_cons_append.
Qed.

(** What a run of the rules keeps true: nothing is listed twice, nothing
    already held is listed, and every rule that fires ends up held or
    listed. *)
Lemma run_rules_inv (existing : list string) (rules : list (string * bool))
    (unlocked : list string) :
  NoDup unlocked ->
  let out := run_rules existing rules unlocked in
  NoDup out /\
  (forall x, mem x unlocked = true -> mem x out = true) /\
  (forall name, In (name, true) rules ->
                mem name existing || mem name out = true).
Proof.
  unfold run_rules. revert unlocked.
  induction rules as [ | [name cond] rules IH]; intros unlocked N;
    cbn [fold_left fst snd].
  - split; [ exact N | ]. split; [ auto | intros ? [] ].
  - set (u := determine_maybe existing name cond unlocked).
    assert (Nu : NoDup u).
    { subst u. unfold determine_maybe.
      destruct cond, (mem name existing), (mem name unlocked) eqn:E;
        cbn [andb negb]; auto using NoDup_append. }
    assert (Mu : forall x, mem x unlocked = true -> mem x u = true).
    { intros x Hx. subst u. unfold determine_maybe.
      destruct (_ && _); [ | exact Hx ].
      rewrite mem_append, Hx. reflexivity. }
    assert (Fu : cond = true -> mem name existing || mem name u = true).
    { intros ->. subst u. unfold determine_maybe.
      destruct (mem name existing); [ reflexivity | ].
      destruct (mem name unlocked) eqn:E; cbn [andb negb orb];
        [ exact E | ].
      rewrite mem_append, String.eqb_refl. apply orb_true_r. }
    destruct (IH u Nu) as (N' & M' & F'). cbn zeta in *.
    split; [ exact N' | ]. split; [ auto | ].
    intros n [E | I].
    + injection E as -> ->. specialize (Fu eq_refl).
      apply orb_true_iff in Fu. apply orb_true_iff.
      destruct Fu as [Fu | Fu]; [ now left | right; auto ].
    + auto.
Qed.

(** A run over rules that are all held already lists nothing. *)
Lemma run_rules_held (existing : list string) (rules : list (string * bool)) :
  (forall name, In (name, true) rules -> mem name existing = true) ->
  run_rules existing rules [] = [].
Proof.
  unfold run_rules.
  induction rules as [ | [name cond] rules IH]; intros H;
    cbn [fold_left fst snd]; [ reflexivity | ].
  assert (E : determine_maybe existing name cond [] = []).
  { unfold determine_maybe. destruct cond; [ | reflexivity ].
    rewrite (H name) by (left; reflexivity). reflexivity. }
  rewrite E. apply IH. intros n I. apply H. now right.
Qed.

(** C5. [determine_new_badges] is idempotent: once the badges returned by
    a first call are merged into the existing set, a second call with the
    same total, labels and actor returns the empty list; and no badge
    name appears twice in the result of one call. *)
Theorem determine_new_badges_idempotent (existing : list string)
    (old_xp new_xp : Z) (labels : list string) (actor : string) :
  let first := determine_new_badges existing old_xp new_xp labels actor in
  determine_new_badges (set_update existing first) old_xp new_xp labels actor
  = [] /\
  NoDup first.
Proof.
  cbn zeta. rewrite !determine_new_badges_rules.
  destruct (run_rules_inv existing (badge_rules new_xp labels actor) []
              (NoDup_nil _)) as (N & _ & F).
  cbn zeta in *. split; [ | exact N ].
  apply run_rules_held. intros name I.
  rewrite mem_set_update. auto.
Qed.

(** ** Ledger update *)

Section SortFacts.
Context {A : Type} (lt : A -> A -> bool).

Lemma insert_sorted_perm (x : A) (l : list A) :
  Permutation (insert_sorted lt x l) (x :: l).
Proof.
  induction l as [ | y l IH]; cbn [insert_sorted]; [ reflexivity | ].
  destruct (lt y x); [ | reflexivity ].
  rewrite IH. apply perm_swap.
Qed.

Lemma sort_by_perm (l : list A) : Permutation (sort_by lt l) l.
Proof.
  unfold sort_by. induction l as [ | x l IH]; cbn [fold_right]; [ reflexivity | ].
  rewrite insert_sorted_perm. now constructor.
Qed.

End SortFacts.

Lemma find_target_none (rows : list HunterRow) (key : string) (i : nat) :
  find_target rows key i = None <->
  forall r, In r rows -> Py.strip (hunter r) <> key.
Proof.
  revert i. induction rows as [ | row rows IH]; intros i; cbn [find_target].
  - split; [ intros _ r [] | reflexivity ].
  - destruct (String.eqb_spec (Py.strip (hunter row)) key) as [E | E].
    + split; [ discriminate | ].
      intros H. exfalso. apply (H row); [ now left | exact E ].
    + rewrite IH. split.
      * intros H r [<- | I]; auto.
      * intros H r I. apply H. now right.
Qed.

Lemma find_target_some (rows : list HunterRow) (key : string) (i j : nat) :
  find_target rows key i = Some j ->
  exists before r after,
    rows = (before ++ r :: after)%list /\
    j = (i + List.length before)%nat /\
    Py.strip (hunter r) = key /\
    forall r', In r' before -> Py.strip (hunter r') <> key.
Proof.
  revert i. induction rows as [ | row rows IH]; intros i; cbn [find_target];
    [ discriminate | ].
  destruct (String.eqb_spec (Py.strip (hunter row)) key) as [E | E].
  - intros [= <-]. exists [], row, rows. cbn [app List.length].
    split; [ reflexivity | ]. split; [ lia | ]. split; [ exact E | ].
    intros ? [].
  - intros H. destruct (IH _ H) as (before & r & after & -> & -> & K & N).
    exists (row :: before), r, after. cbn [List.length app].
    split; [ reflexivity | ]. split; [ lia | ]. split; [ exact K | ].
    intros r' [<- | I]; auto.
Qed.

Lemma set_nth_middle (before : list HunterRow) (r t : HunterRow)
    (after : list HunterRow) :
  set_nth (List.length before) t (before ++ r :: after) =
  (before ++ t :: after)%list.
Proof.
  induction before as [ | x before IH]; cbn; [ reflexivity | ].
  now rewrite IH.
Qed.

Lemma find_target_backfill (rows : list HunterRow) (key : string) (i : nat) :
  find_target (map backfill rows) key i = find_target rows key i.
Proof.
  revert i. induction rows as [ | row rows IH]; intros i; cbn; [ reflexivity | ].
  now rewrite IH.
Qed.

Lemma locate_located (parsed : list HunterRow) (key : string) :
  exists before old after,
    located parsed key before old after /\
    locate (map backfill parsed) key =
    ((before ++ old :: after)%list, List.length before).
Proof.
  unfold locate. rewrite find_target_backfill.
  destruct (find_target parsed key 0) as [j | ] eqn:F.
  - apply find_target_some in F.
    destruct F as (pb & po & pa & -> & -> & K & N).
    exists (map backfill pb), (backfill po), (map backfill pa).
    split; [ now eapply located_old | ].
    rewrite map_app, length_map. reflexivity.
  - exists (map backfill parsed), (new_hunter key), [].
    split; [ apply located_new; exact (proj1 (find_target_none _ _ _) F) | ].
    reflexivity.
Qed.

(** The award, spelled out on the rows around the target. *)
Lemma apply_award_at (stamp : string) (parsed : list HunterRow)
    (actor : string) (gained_xp : Z) (reason : string)
    (labels : list string)
    (before : list HunterRow) (old : HunterRow) (after : list HunterRow) :
  locate (map backfill parsed) ("@" ++ actor) =
  ((before ++ old :: after)%list, List.length before) ->
  let aw := apply_award stamp parsed actor gained_xp reason labels in
  let target := awarded_target stamp old actor gained_xp reason labels in
  aw_target aw = target /\
  aw_rows aw = sort_by row_lt (before ++ target :: after) /\
  aw_old_xp aw = xp old /\
  aw_total aw = xp old + gained_xp /\
  (aw_level aw, aw_title aw) = get_level_and_title (xp old + gained_xp) /\
  aw_unlocked aw =
    determine_new_badges (badges old) (xp old) (xp old + gained_xp)
      labels actor.
Proof.
  intros E. unfold apply_award, awarded_target. rewrite E.
  cbv beta iota zeta. rewrite nth_middle.
  destruct (get_level_and_title (xp old + gained_xp)) as [lv ti].
  rewrite set_nth_middle.
  cbn [aw_target aw_rows aw_old_xp aw_total aw_level aw_title aw_unlocked
       fst snd].
  repeat split.
Qed.

Lemma apply_award_shape (stamp : string) (parsed : list HunterRow)
    (actor : string) (gained_xp : Z) (reason : string)
    (labels : list string) :
  exists before old after,
    located parsed ("@" ++ actor) before old after /\
    let aw := apply_award stamp parsed actor gained_xp reason labels in
    let target := awarded_target stamp old actor gained_xp reason labels in
    aw_target aw = target /\
    aw_rows aw = sort_by row_lt (before ++ target :: after) /\
    aw_old_xp aw = xp old /\
    aw_total aw = xp old + gained_xp /\
    (aw_level aw, aw_title aw) = get_level_and_title (xp old + gained_xp) /\
    aw_unlocked aw =
      determine_new_badges (badges old) (xp old) (xp old + gained_xp)
        labels actor.
Proof.
  destruct (locate_located parsed ("@" ++ actor))
    as (before & old & after & L & E).
  exists before, old, after. split; [ exact L | ].
  now apply apply_award_at.
Qed.

Lemma find_target_split (before : list HunterRow) (r : HunterRow)
    (after : list HunterRow) (key : string) (i : nat) :
  Py.strip (hunter r) = key ->
  (forall r', In r' before -> Py.strip (hunter r') <> key) ->
  find_target (before ++ r :: after) key i =
  Some (i + List.length before)%nat.
Proof.
  intros K. revert i.
  induction before as [ | x before IH]; intros i N; cbn [app find_target].
  - rewrite K, String.eqb_refl. cbn. f_equal. lia.
  - destruct (String.eqb_spec (Py.strip (hunter x)) key) as [E | E].
    + exfalso. apply (N x); [ now left | exact E ].
    + rewrite IH by (intros; apply N; now right).
      cbn [List.length]. f_equal. lia.
Qed.

Lemma calculate_xp_positive (event_type event_action : string)
    (labels : list string) (pr_merged : bool) :
  0 < fst (calculate_xp event_type event_action labels pr_merged).
Proof.
  rewrite calculate_xp_fst. cbn zeta.
  pose proof (contributing_positive _
                (bonus_rules_positive event_type event_action labels
                   pr_merged)) as [P0 _].
  unfold BASE_ACTION_XP.
  destruct (Z.eqb_spec
              (sum_Z (contributing
                 (bonus_rules event_type event_action labels pr_merged))) 0);
    lia.
Qed.

Lemma first_blood_fires (existing : list string) (old_xp new_xp : Z)
    (labels : list string) (actor : string) :
  0 < new_xp ->
  mem "First Blood"
    (set_update existing
       (determine_new_badges existing old_xp new_xp labels actor)) = true.
Proof.
  intros P. rewrite mem_set_update, determine_new_badges_rules.
  destruct (run_rules_inv existing (badge_rules new_xp labels actor) []
              (NoDup_nil _)) as (_ & _ & F).
  apply F. left. f_equal. apply Z.gtb_lt. lia.
Qed.

Lemma backfill_first_blood (row : HunterRow) :
  0 < xp row -> mem "First Blood" (badges (backfill row)) = true.
Proof. intros P. unfold backfill. cbn [badges]. now apply first_blood_fires. Qed.

Lemma located_rows (parsed : list HunterRow) (key : string)
    (before : list HunterRow) (old : HunterRow) (after : list HunterRow)
    (r : HunterRow) :
  located parsed key before old after ->
  In r (before ++ after) ->
  exists p, In p parsed /\ r = backfill p.
Proof.
  intros L I. destruct L as [N | pb po pa -> K N].
  - rewrite app_nil_r in I. apply in_map_iff in I.
    destruct I as (p & <- & I). eauto.
  - rewrite <- map_app in I. apply in_map_iff in I.
    destruct I as (p & <- & I). exists p. split; [ | reflexivity ].
    apply in_app_iff in I. apply in_app_iff.
    destruct I; [ now left | right; now right ].
Qed.

(** The rows after an award: the target, and the other decoded rows
    with their badges backfilled. *)
Lemma apply_award_rows (stamp : string) (parsed : list HunterRow)
    (actor : string) (gained_xp : Z) (reason : string)
    (labels : list string) :
  let aw := apply_award stamp parsed actor gained_xp reason labels in
  In (aw_target aw) (aw_rows aw) /\
  forall r, In r (aw_rows aw) ->
            r = aw_target aw \/ exists p, In p parsed /\ r = backfill p.
Proof.
  destruct (apply_award_shape stamp parsed actor gained_xp reason labels)
    as (before & old & after & L & T & R & _).
  cbn zeta in *. rewrite R, T. split.
  - eapply Permutation_in; [ symmetry; apply sort_by_perm | ].
    apply in_elt.
  - intros r I.
    eapply Permutation_in in I; [ | apply sort_by_perm ].
    apply in_app_iff in I. destruct I as [I | [<- | I]].
    + right. eapply located_rows; [ exact L | ].
      apply in_app_iff. now left.
    + now left.
    + right. eapply located_rows; [ exact L | ].
      apply in_app_iff. now right.
Qed.

Section CodecFacts.
Variable int_float : string -> option Z.

Lemma updated_ledger_ok (stamp : string) (lines : list string)
    (actor : string) (gained_xp : Z) (reason : string)
    (labels : list string) (start stop : nat) (aw : awarded) :
  updated_ledger int_float stamp lines actor gained_xp reason labels
  = Ok (start, stop, aw) ->
  locate_table lines = Ok (start, stop) /\
  aw = apply_award stamp
         (parse_rows int_float (table_lines lines start stop))
         actor gained_xp reason labels.
Proof.
  unfold updated_ledger. destruct (locate_table lines) as [[a b] | e];
    [ | discriminate ].
  intros [= <- <- <-]. split; reflexivity.
Qed.

Lemma parse_rows_In (table : list string) (p : HunterRow) :
  In p (parse_rows int_float table) ->
  exists line, In line table /\
               parse_hunter_row int_float (parse_table_cells line) = Some p.
Proof.
  induction table as [ | line table IH]; cbn [parse_rows]; [ intros [] | ].
  destruct (parse_hunter_row int_float (parse_table_cells line))
    as [row | ] eqn:E.
  - destruct (hunter row =? TBD)%string.
    + intros I. destruct (IH I) as (l & Il & P). exists l. split; auto.
      now right.
    + intros [<- | I].
      * exists line. split; [ now left | exact E ].
      * destruct (IH I) as (l & Il & P). exists l. split; auto. now right.
  - intros I. destruct (IH I) as (l & Il & P). exists l. split; auto.
    now right.
Qed.

End CodecFacts.

(** C10. After every update the awarded delta is positive; when the
    target had non-negative XP before the award its total is then
    strictly positive and its badge set contains "First Blood"; and every
    record of the updated table with positive XP holds "First Blood". *)
Theorem first_blood_after_update (int_float : string -> option Z)
    (stamp md actor event_type event_action : string)
    (labels : list string) (pr_merged : bool)
    (start stop : nat) (aw : awarded) :
  let gained_xp :=
    fst (calculate_xp event_type event_action labels pr_merged) in
  let reason :=
    snd (calculate_xp event_type event_action labels pr_merged) in
  updated_ledger int_float stamp (Py.splitlines md) actor gained_xp reason
    labels = Ok (start, stop, aw) ->
  0 < gained_xp /\
  In (aw_target aw) (aw_rows aw) /\
  (0 <= aw_old_xp aw ->
   0 < xp (aw_target aw) /\
   mem "First Blood" (badges (aw_target aw)) = true) /\
  (forall r, In r (aw_rows aw) -> 0 < xp r ->
             mem "First Blood" (badges r) = true).
Proof.
  cbn zeta. intros U. apply updated_ledger_ok in U. destruct U as [_ ->].
  pose proof (calculate_xp_positive event_type event_action labels pr_merged)
    as G.
  set (gained_xp := fst (calculate_xp _ _ _ _)) in *.
  set (reason := snd (calculate_xp _ _ _ _)).
  set (parsed := parse_rows int_float _).
  destruct (apply_award_rows stamp parsed actor gained_xp reason labels)
    as [IT IR].
  destruct (apply_award_shape stamp parsed actor gained_xp reason labels)
    as (before & old & after & L & T & R & O & _).
  cbn zeta in *.
  assert (TB : 0 < xp (awarded_target stamp old actor gained_xp reason labels)
               -> mem "First Blood"
                    (badges (awarded_target stamp old actor gained_xp reason
                               labels)) = true).
  { unfold awarded_target. cbn [xp badges]. apply first_blood_fires. }
  split; [ exact G | ]. split; [ exact IT | ]. split.
  - intros P. rewrite T, O in *.
    assert (X : 0 < xp (awarded_target stamp old actor gained_xp reason
                          labels)).
    { unfold awarded_target. cbn [xp]. lia. }
    split; [ exact X | auto ].
  - intros r I P. destruct (IR r I) as [-> | (p & _ & ->)].
    + rewrite T in *. auto.
    + apply backfill_first_blood. exact P.
Qed.

Lemma first_blood_after_update_witness :
  exists start stop aw,
    updated_ledger int_float_digits example_stamp
      (Py.splitlines stale_ledger) "bob"
      (fst (calculate_xp "issues" "opened" [] false))
      (snd (calculate_xp "issues" "opened" [] false)) []
    = Ok (start, stop, aw) /\
    0 <= aw_old_xp aw /\
    mem "First Blood" (badges (aw_target aw)) = true.
Proof.
  assert (U : exists start stop aw,
             updated_ledger int_float_digits example_stamp
               (Py.splitlines stale_ledger) "bob"
               (fst (calculate_xp "issues" "opened" [] false))
               (snd (calculate_xp "issues" "opened" [] false)) []
             = Ok (start, stop, aw) /\ 0 <= aw_old_xp aw).
  { vm_compute. do 3 eexists. split; [ reflexivity | discriminate ]. }
  destruct U as (start & stop & aw & U & P).
  exists start, stop, aw. split; [ exact U | ]. split; [ exact P | ].
  destruct (first_blood_after_update _ _ _ _ _ _ _ _ _ _ _ U)
    as (_ & _ & F & _).
  apply F. exact P.
Defined.

(** C7, as the code has it. The target is the first decoded record whose
    stripped handle equals the marker-prefixed actor handle exactly: when
    no record has exactly that handle a new record with that handle and
    zero XP takes the award and joins the table, and otherwise the first
    such record takes it and no record is added. *)
Theorem target_located_by_exact_handle (stamp : string)
    (parsed : list HunterRow) (actor : string) (gained_xp : Z)
    (reason : string) (labels : list string) :
  let key := "@" ++ actor in
  let aw := apply_award stamp parsed actor gained_xp reason labels in
  ((forall r, In r parsed -> Py.strip (hunter r) <> key) ->
   hunter (aw_target aw) = key /\
   aw_old_xp aw = 0 /\
   Permutation (aw_rows aw) (aw_target aw :: map backfill parsed)) /\
  (forall pb po pa,
      parsed = (pb ++ po :: pa)%list ->
      Py.strip (hunter po) = key ->
      (forall r, In r pb -> Py.strip (hunter r) <> key) ->
      hunter (aw_target aw) = hunter po /\
      aw_old_xp aw = xp po /\
      Permutation (aw_rows aw)
        (map backfill pb ++ aw_target aw :: map backfill pa)).
Proof.
  cbn zeta. split.
  - intros N.
    assert (E : locate (map backfill parsed) ("@" ++ actor) =
                ((map backfill parsed ++ new_hunter ("@" ++ actor) :: [])%list,
                 List.length (map backfill parsed))).
    { unfold locate. rewrite find_target_backfill.
      rewrite (proj2 (find_target_none parsed _ 0) N). reflexivity. }
    destruct (apply_award_at stamp parsed actor gained_xp reason labels
                _ _ _ E) as (T & R & O & _).
    rewrite T, R, O. cbn [awarded_target new_hunter hunter xp].
    split; [ reflexivity | ]. split; [ reflexivity | ].
    rewrite sort_by_perm. symmetry. apply Permutation_cons_append.
  - intros pb po pa -> K N.
    assert (E : locate (map backfill (pb ++ po :: pa)) ("@" ++ actor) =
                ((map backfill pb ++ backfill po :: map backfill pa)%list,
                 List.length (map backfill pb))).
    { unfold locate. rewrite find_target_backfill.
      rewrite (find_target_split pb po pa _ 0 K N).
      rewrite map_app, length_map. reflexivity. }
    destruct (apply_award_at stamp (pb ++ po :: pa) actor gained_xp reason
                labels _ _ _ E) as (T & R & O & _).
    rewrite T, R, O. cbn [awarded_target backfill hunter xp].
    split; [ reflexivity | ]. split; [ reflexivity | ].
    apply sort_by_perm.
Qed.

Lemma target_located_by_exact_handle_witness :
  let aw := apply_award example_stamp
              [mkHunterRow "@Bob" "w1" 5000 1 "Starting Hunter" [] "seed"
                 "kept"] "Bob" 50 "base action" [] in
  aw_old_xp aw = 5000 /\ hunter (aw_target aw) = "@Bob".
Proof.
  cbn zeta.
  destruct (target_located_by_exact_handle example_stamp
              [mkHunterRow "@Bob" "w1" 5000 1 "Starting Hunter" [] "seed"
                 "kept"] "Bob" 50 "base action" []) as [_ H].
  destruct (H [] (mkHunterRow "@Bob" "w1" 5000 1 "Starting Hunter" []
                    "seed" "kept") []) as (A & B & _).
  - reflexivity.
  - reflexivity.
  - intros r [].
  - split; [ exact B | exact A ].
Defined.

(** C7, as the specification words it, fails: on [stale_ledger], whose
    only record is [@Bob], an award to [bob] leaves that record at its
    XP and adds a second record [@bob]. *)
Lemma case_variant_gets_second_record :
  Py.lower "@Bob" = Py.lower ("@" ++ "bob") /\
  (exists start stop aw,
      updated_ledger int_float_digits example_stamp
        (Py.splitlines stale_ledger) "bob" 50 "base action" []
      = Ok (start, stop, aw) /\
      map (fun r => (hunter r, xp r)) (aw_rows aw)
      = [("@Bob", 5000); ("@bob", 50)]) /\
  ~ lookup_ignores_case.
Proof.
  split; [ reflexivity | ]. split.
  - vm_compute. do 3 eexists. split; reflexivity.
  - intros H.
    specialize (H example_stamp
                  [mkHunterRow "@Bob" "w1" 5000 1 "Starting Hunter" []
                     "seed" "kept"] "bob" 50 "base action" []
                  (mkHunterRow "@Bob" "w1" 5000 1 "Starting Hunter" []
                     "seed" "kept")
                  (or_introl eq_refl) eq_refl).
    vm_compute in H. discriminate.
Qed.

(** ** Levels of the records after an update *)

Lemma parse_hunter_row_fields (int_float : string -> option Z)
    (cells : list string) (p : HunterRow) :
  parse_hunter_row int_float cells = Some p ->
  xp p = match int_float (cell cells 3) with Some n => n | None => 0 end /\
  level p = match int_float (cell cells 4) with
            | Some n => n
            | None => fst (get_level_and_title (xp p))
            end /\
  title p = if (9 <=? List.length cells)%nat
            then or_else (Py.strip (cell cells 5))
                   (snd (get_level_and_title (xp p)))
            else snd (get_level_and_title (xp p)).
Proof.
  unfold parse_hunter_row.
  destruct (List.length cells <? 7)%nat; [ discriminate | ].
  destruct (9 <=? List.length cells)%nat; intros [= <-]; cbn [xp level title];
    repeat split.
Qed.

(** C1, as the code has it. After an update the target record is in the
    table with the level and title of its total; every other record of
    the table keeps the XP, level and title decoded from its row: the
    level is the level cell when that cell parses as a number and
    otherwise the level of the row's XP, and the title is the title cell
    of a nine-column row when that cell is not empty and otherwise the
    title of the row's XP. *)
Theorem levels_after_update (int_float : string -> option Z)
    (stamp md actor : string) (gained_xp : Z) (reason : string)
    (labels : list string) (start stop : nat) (aw : awarded) :
  updated_ledger int_float stamp (Py.splitlines md) actor gained_xp reason
    labels = Ok (start, stop, aw) ->
  In (aw_target aw) (aw_rows aw) /\
  (level (aw_target aw), title (aw_target aw))
  = get_level_and_title (xp (aw_target aw)) /\
  forall r, In r (aw_rows aw) ->
    r = aw_target aw \/
    exists line p,
      In line (table_lines (Py.splitlines md) start stop) /\
      parse_hunter_row int_float (parse_table_cells line) = Some p /\
      xp r = xp p /\ level r = level p /\ title r = title p /\
      let cells := parse_table_cells line in
      level p = match int_float (cell cells 4) with
                | Some n => n
                | None => fst (get_level_and_title (xp p))
                end /\
      title p = if (9 <=? List.length cells)%nat
                then or_else (Py.strip (cell cells 5))
                       (snd (get_level_and_title (xp p)))
                else snd (get_level_and_title (xp p)).
Proof.
  intros U. apply updated_ledger_ok in U. destruct U as [_ ->].
  set (parsed := parse_rows int_float _).
  destruct (apply_award_rows stamp parsed actor gained_xp reason labels)
    as [IT IR].
  destruct (apply_award_shape stamp parsed actor gained_xp reason labels)
    as (before & old & after & _ & T & _).
  cbn zeta in *. split; [ exact IT | ]. split.
  - rewrite T. unfold awarded_target. cbn [level title xp].
    now destruct (get_level_and_title (xp old + gained_xp)).
  - intros r I. destruct (IR r I) as [-> | (p & Ip & ->)]; [ now left | ].
    right. apply parse_rows_In in Ip. destruct Ip as (line & Il & P).
    exists line, p. split; [ exact Il | ]. split; [ exact P | ].
    cbn [backfill xp level title]. do 3 (split; [ reflexivity | ]).
    cbn zeta. apply parse_hunter_row_fields in P. tauto.
Qed.

Lemma levels_after_update_witness :
  exists start stop aw,
    updated_ledger int_float_digits example_stamp
      (Py.splitlines stale_ledger) "Bob" 600 "bounty approved" []
    = Ok (start, stop, aw) /\
    (level (aw_target aw), title (aw_target aw))
    = get_level_and_title (xp (aw_target aw)).
Proof.
  assert (U : exists start stop aw,
             updated_ledger int_float_digits example_stamp
               (Py.splitlines stale_ledger) "Bob" 600 "bounty approved" []
             = Ok (start, stop, aw)).
  { vm_compute. do 3 eexists. reflexivity. }
  destruct U as (start & stop & aw & U).
  exists start, stop, aw. split; [ exact U | ].
  exact (proj1 (proj2 (levels_after_update _ _ _ _ _ _ _ _ _ _ U))).
Defined.

(** C1, as the specification words it, fails: on [stale_ledger] the
    record [@Bob] has 5000 XP with level 1 and the title of level 1; an
    award to another handle leaves them so, both in the records of the
    updated table and in the line written for the record. *)
Lemma stale_level_survives_update :
  get_level_and_title 5000 = (6, "Featured Hunter") /\
  exists start stop aw out,
    updated_ledger int_float_digits example_stamp
      (Py.splitlines stale_ledger) "bob" 50 "base action" []
    = Ok (start, stop, aw) /\
    update_table_in_md int_float_digits example_stamp stale_ledger "bob" 50
      "base action" []
    = Ok (out, 50, 1, "Starting Hunter", ["First Blood"]) /\
    In (render_row 1
          (mkHunterRow "@Bob" "w1" 5000 1 "Starting Hunter"
             ["First Blood"; "Rising Hunter"; "Multiplier Hunter"]
             "seed" "kept"))
       (Py.splitlines out) /\
    ~ levels_resolved (aw_rows aw).
Proof.
  split; [ reflexivity | ].
  assert (U : exists start stop aw,
             updated_ledger int_float_digits example_stamp
               (Py.splitlines stale_ledger) "bob" 50 "base action" []
             = Ok (start, stop, aw) /\
             In (mkHunterRow "@Bob" "w1" 5000 1 "Starting Hunter"
                   ["First Blood"; "Rising Hunter"; "Multiplier Hunter"]
                   "seed" "kept") (aw_rows aw)).
  { vm_compute. do 3 eexists. split; [ reflexivity | ]. left. reflexivity. }
  destruct U as (start & stop & aw & U & I).
  assert (V : exists out,
             update_table_in_md int_float_digits example_stamp stale_ledger
               "bob" 50 "base action" []
             = Ok (out, 50, 1, "Starting Hunter", ["First Blood"]) /\
             In (render_row 1
                   (mkHunterRow "@Bob" "w1" 5000 1 "Starting Hunter"
                      ["First Blood"; "Rising Hunter"; "Multiplier Hunter"]
                      "seed" "kept"))
                (Py.splitlines out)).
  { vm_compute. eexists. split; [ reflexivity | ].
    do 5 right. left. reflexivity. }
  destruct V as (out & V & J).
  exists start, stop, aw, out.
  split; [ exact U | ]. split; [ exact V | ]. split; [ exact J | ].
  intros H. specialize (H _ I). cbn [level title xp] in H.
  vm_compute in H. discriminate.
Qed.

(** ** Malformed rows *)

Lemma find_header_app (pre post : list string) (i h : nat) :
  find_header pre i = Some h -> find_header (pre ++ post) i = Some h.
Proof.
  revert i. induction pre as [ | l pre IH]; intros i; cbn [app find_header];
    [ discriminate | ].
  destruct (Py.startswith (Py.strip l) "| Rank | Hunter"); auto.
Qed.

Lemma table_len_app (rows rest : list string) :
  (forall l, In l rows -> is_table_line l = true) ->
  table_len (rows ++ rest) = (List.length rows + table_len rest)%nat.
Proof.
  induction rows as [ | l rows IH]; intros H; cbn [app table_len List.length];
    [ reflexivity | ].
  rewrite (H l) by now left.
  rewrite IH by (intros; apply H; now right). reflexivity.
Qed.

Section RowFacts.
Variable int_float : string -> option Z.

Lemma parse_hunter_row_short (cells : list string) :
  (List.length cells < 7)%nat -> parse_hunter_row int_float cells = None.
Proof.
  intros H. unfold parse_hunter_row.
  now rewrite (proj2 (Nat.ltb_lt _ _) H).
Qed.

Lemma parse_rows_app (t1 t2 : list string) :
  parse_rows int_float (t1 ++ t2) =
  (parse_rows int_float t1 ++ parse_rows int_float t2)%list.
Proof.
  induction t1 as [ | l t1 IH]; cbn [app parse_rows]; [ reflexivity | ].
  destruct (parse_hunter_row int_float (parse_table_cells l)) as [row | ];
    [ | exact IH ].
  destruct (hunter row =? TBD)%string; [ exact IH | ].
  cbn [app]. now rewrite IH.
Qed.

(** The rows of the table and what surrounds it, for a document whose
    table lines [rows] follow the header part [pre] up to the first line
    of [rest] that is not a table line. *)
Lemma locate_table_split (pre rows rest : list string) (h : nat) :
  find_header pre 0 = Some h ->
  List.length pre = (h + 2)%nat ->
  (forall l, In l rows -> is_table_line l = true) ->
  let lines := (pre ++ rows ++ rest)%list in
  exists stop,
    locate_table lines = Ok ((h + 2)%nat, stop) /\
    table_lines lines (h + 2) stop =
      (rows ++ upto (table_len rest) rest)%list /\
    upto (h + 2) lines = pre /\
    from stop lines = from (table_len rest) rest.
Proof.
  intros F L T. cbn zeta. unfold locate_table, table_lines, upto, from.
  rewrite (find_header_app _ _ _ _ F).
  eexists. split; [ reflexivity | ].
  rewrite <- L. rewrite skipn_app, skipn_all, Nat.sub_diag. cbn [skipn app].
  rewrite table_len_app by exact T.
  repeat split.
  - replace (List.length pre + (List.length rows + table_len rest)
             - List.length pre)%nat
      with (List.length rows + table_len rest)%nat by lia.
    rewrite firstn_app, firstn_all2 by lia.
    replace (List.length rows + table_len rest - List.length rows)%nat
      with (table_len rest) by lia.
    reflexivity.
  - rewrite firstn_app, firstn_all, Nat.sub_diag. cbn [firstn].
    apply app_nil_r.
  - rewrite skipn_app, skipn_all2 by lia.
    replace (List.length pre + (List.length rows + table_len rest)
             - List.length pre)%nat
      with (List.length rows + table_len rest)%nat by lia.
    rewrite skipn_app, skipn_all2 by lia.
    replace (List.length rows + table_len rest - List.length rows)%nat
      with (table_len rest) by lia.
    reflexivity.
Qed.

(** The update of a document, from the parts of [locate_table_split]. *)
Lemma update_lines_split (stamp : string) (pre rows rest : list string)
    (h : nat) (actor : string) (gained_xp : Z) (reason : string)
    (labels : list string) :
  find_header pre 0 = Some h ->
  List.length pre = (h + 2)%nat ->
  (forall l, In l rows -> is_table_line l = true) ->
  exists stop,
    update_lines int_float stamp (pre ++ rows ++ rest) actor gained_xp
      reason labels =
    (let lines := (pre ++ rows ++ rest)%list in
     let aw := apply_award stamp
                 (parse_rows int_float (rows ++ upto (table_len rest) rest))
                 actor gained_xp reason labels in
     Ok (serialize stamp lines (h + 2) stop aw actor gained_xp reason,
         aw_total aw, aw_level aw, aw_title aw, aw_unlocked aw)) /\
    upto (h + 2) (pre ++ rows ++ rest) = pre /\
    from stop (pre ++ rows ++ rest) = from (table_len rest) rest.
Proof.
  intros F L T.
  destruct (locate_table_split pre rows rest h F L T)
    as (stop & E & TL & U & R). cbn zeta in *.
  exists stop. split; [ | split; assumption ].
  unfold update_lines, updated_ledger. rewrite E, TL. reflexivity.
Qed.

End RowFacts.

(** A rendered row always decodes into at least nine cells. *)
Lemma count_char_append (c : ascii) (s1 s2 : string) :
  count_char c (s1 ++ s2) = (count_char c s1 + count_char c s2)%nat.
Proof.
  induction s1 as [ | a s1 IH]; cbn [String.append count_char];
    [ reflexivity | ].
  destruct (Ascii.eqb a c); rewrite IH; reflexivity.
Qed.

Lemma count_char_drop_while (p : ascii -> bool) (c : ascii) (s : string) :
  p c = false -> count_char c (Py.drop_while p s) = count_char c s.
Proof.
  intros H. induction s as [ | a s IH]; cbn [Py.drop_while count_char];
    [ reflexivity | ].
  destruct (p a) eqn:E; [ | reflexivity ].
  destruct (Ascii.eqb_spec a c) as [-> | _]; [ congruence | exact IH ].
Qed.

Lemma count_char_rev_onto (c : ascii) (s acc : string) :
  count_char c (Py.rev_onto s acc) = (count_char c s + count_char c acc)%nat.
Proof.
  revert acc. induction s as [ | a s IH]; intros acc;
    cbn [Py.rev_onto count_char]; [ reflexivity | ].
  rewrite IH. cbn [count_char]. destruct (Ascii.eqb a c); lia.
Qed.

Lemma count_char_strip (c : ascii) (s : string) :
  Py.isspace c = false -> count_char c (Py.strip s) = count_char c s.
Proof.
  intros H. unfold Py.strip, Py.rstrip, Py.lstrip, Py.rev.
  rewrite count_char_rev_onto, count_char_drop_while by exact H.
  rewrite count_char_rev_onto, count_char_drop_while by exact H.
  cbn [count_char]. lia.
Qed.

Lemma split_length (c : ascii) (s : string) :
  List.length (Py.split c s) = S (count_char c s).
Proof.
  induction s as [ | a s IH]; cbn [Py.split count_char]; [ reflexivity | ].
  destruct (Ascii.eqb a c); cbn [List.length]; [ now rewrite IH | ].
  destruct (Py.split c s); cbn [List.length] in *; [ discriminate | exact IH ].
Qed.

Lemma inner_length {A : Type} (l : list A) :
  List.length (inner l) = (List.length l - 2)%nat.
Proof.
  unfold inner. destruct l as [ | x l]; [ reflexivity | ]. cbn [tl].
  rewrite removelast_firstn_len, length_firstn. cbn [List.length]. lia.
Qed.

Lemma parse_table_cells_length (line : string) :
  List.length (parse_table_cells line) = (count_char "|" line - 1)%nat.
Proof.
  unfold parse_table_cells.
  rewrite length_map, inner_length, split_length, count_char_strip
    by reflexivity.
  lia.
Qed.

Lemma render_row_cells (rank : Z) (row : HunterRow) :
  (9 <= List.length (parse_table_cells (render_row rank row)))%nat.
Proof.
  rewrite parse_table_cells_length. unfold render_row.
  rewrite !count_char_append.
  change (count_char "|" "| ") with 1%nat.
  change (count_char "|" " | ") with 1%nat.
  change (count_char "|" " |") with 1%nat.
  lia.
Qed.

Lemma render_rows_cells (rows : list HunterRow) (idx : Z) (line : string) :
  In line (render_rows idx rows) ->
  (9 <= List.length (parse_table_cells line))%nat.
Proof.
  revert idx. induction rows as [ | row rows IH]; intros idx;
    cbn [render_rows]; [ intros [] | ].
  intros [<- | I]; [ apply render_row_cells | eauto ].
Qed.

(** C9. A table row that splits into fewer than 7 cells is dropped
    without an error: [parse_hunter_row] returns no record for it, the
    update succeeds, the updated document is the one the update produces
    from the same document without that row, and no line of the table
    written is that row. *)
Theorem short_row_dropped (int_float : string -> option Z)
    (stamp md md' : string) (pre above below rest : list string)
    (line : string) (h : nat) (actor : string) (gained_xp : Z)
    (reason : string) (labels : list string) :
  Py.splitlines md = (pre ++ (above ++ line :: below) ++ rest)%list ->
  Py.splitlines md' = (pre ++ (above ++ below) ++ rest)%list ->
  find_header pre 0 = Some h ->
  List.length pre = (h + 2)%nat ->
  (forall l, In l (above ++ line :: below) -> is_table_line l = true) ->
  (List.length (parse_table_cells line) < 7)%nat ->
  parse_hunter_row int_float (parse_table_cells line) = None /\
  (exists res,
      update_table_in_md int_float stamp md actor gained_xp reason labels
      = Ok res) /\
  update_table_in_md int_float stamp md actor gained_xp reason labels
  = update_table_in_md int_float stamp md' actor gained_xp reason labels /\
  (forall start stop aw,
      updated_ledger int_float stamp (Py.splitlines md) actor gained_xp
        reason labels = Ok (start, stop, aw) ->
      ~ In line (render_rows 1 (aw_rows aw))).
Proof.
  intros M M' F L T S.
  assert (NR' : forall rows, ~ In line (render_rows 1 rows)).
  { intros rows I. apply render_rows_cells in I. lia. }
  pose proof (parse_hunter_row_short int_float _ S) as P.
  assert (T' : forall l, In l (above ++ below) -> is_table_line l = true).
  { intros l I. apply T. apply in_app_iff in I. apply in_app_iff.
    destruct I; [ now left | right; now right ]. }
  destruct (update_lines_split int_float stamp pre (above ++ line :: below)
              rest h actor gained_xp reason labels F L T)
    as (stop & E & U & R).
  destruct (update_lines_split int_float stamp pre (above ++ below)
              rest h actor gained_xp reason labels F L T')
    as (stop' & E' & U' & R').
  unfold update_table_in_md. rewrite M, M', E, E'. cbn zeta.
  split; [ exact P | ]. split; [ eexists; reflexivity | ].
  assert (Q : parse_rows int_float
                ((above ++ line :: below) ++ upto (table_len rest) rest) =
              parse_rows int_float
                ((above ++ below) ++ upto (table_len rest) rest)).
  { rewrite <- !app_assoc. rewrite !parse_rows_app.
    cbn [app parse_rows]. rewrite P. reflexivity. }
  split; [ | intros start stop0 aw _; apply NR' ].
  rewrite Q. unfold serialize. rewrite U, U', R, R'. reflexivity.
Qed.

Lemma short_row_dropped_witness :
  parse_hunter_row int_float_digits
    (parse_table_cells "| 2 | @amy | w2 | 120 |") = None /\
  update_table_in_md int_float_digits example_stamp stale_ledger "bob" 50
    "base action" []
  = update_table_in_md int_float_digits example_stamp stale_ledger_clean
      "bob" 50 "base action" [].
Proof.
  destruct (short_row_dropped int_float_digits example_stamp stale_ledger
              stale_ledger_clean
              [ "# XP Tracker"; "last_updated: 2024-01-01"; "";
                table_header; table_rule ]
              [ "| 1 | @Bob | w1 | 5000 | 1 | Starting Hunter | - | seed | kept |" ]
              []
              [ ""; "## Latest Awards"; ""; "- seed line" ]
              "| 2 | @amy | w2 | 120 |" 3 "bob" 50 "base action" [])
    as (P & _ & E & _).
  - reflexivity.
  - reflexivity.
  - reflexivity.
  - reflexivity.
  - intros l [<- | [<- | []]]; reflexivity.
  - vm_compute. lia.
  - split; [ exact P | exact E ].
Defined.

(** ** Malformed ledgers *)

Lemma update_table_in_md_header (int_float : string -> option Z)
    (stamp md actor : string) (gained_xp : Z) (reason : string)
    (labels : list string) :
  match find_header (Py.splitlines md) 0 with
  | None =>
      update_table_in_md int_float stamp md actor gained_xp reason labels
      = Raise missing_header
  | Some _ =>
      exists res,
        update_table_in_md int_float stamp md actor gained_xp reason labels
        = Ok res
  end.
Proof.
  unfold update_table_in_md, update_lines, updated_ledger, locate_table.
  destruct (find_header (Py.splitlines md) 0); [ | reflexivity ].
  eexists. reflexivity.
Qed.

(** ** Driver *)

Section DriverFacts.
Variable int_float : string -> option Z.
Variable w : World.
Variable args : Args.

Let loop := retry_loop int_float w (arg_actor args) (commit_message args)
              (snd (award_of args)) (fst (award_of args)) (labels_of args).

Lemma main_remote :
  remote_mode args ->
  main int_float w args =
  match loop (seq 1 max_attempts)
          (mkLoop "" 0 1 "Starting Hunter" [] false) with
  | (evs, Raise e) => (evs, Raise e)
  | (evs, Ok st) =>
      (evs,
       Ok (mkResult "api" (arg_actor args) (fst (award_of args))
             (ls_total_xp st) (ls_level st) (ls_title st)
             (if ls_conflict_exhausted st
              then snd (award_of args) ++ conflict_marker
              else snd (award_of args))
             (ls_unlocked st) (ls_commit_url st)))
  end.
Proof.
  intros (L & T & R). unfold main, loop, commit_message, award_of, labels_of.
  destruct (calculate_xp _ _ _ _) as [gained_xp reason]. cbn [fst snd].
  rewrite L. cbn [String.eqb negb].
  apply String.eqb_neq in T, R. rewrite T, R. cbn [orb].
  reflexivity.
Qed.

(** One turn of the loop, by what the attempt meets. *)
Lemma loop_step (k : nat) (rest : list nat) (st : loop_state) :
  loop (k :: rest) st =
  match attempt_update int_float w args k with
  | Raise e => ([EvGet k], Raise e)
  | Ok (sha, (updated_md, total_xp, level, title, unlocked)) =>
      let evs := [EvGet k; EvPut k sha updated_md (commit_message args)] in
      match remote_put w k with
      | Ok url =>
          (evs, Ok (mkLoop url total_xp level title unlocked
                      (ls_conflict_exhausted st)))
      | Raise (HTTPError (Some 409)) =>
          if (k <? max_attempts)%nat then
            ((evs ++ fst (loop rest
                            (mkLoop (ls_commit_url st) total_xp level title
                               unlocked (ls_conflict_exhausted st))))%list,
             snd (loop rest
                    (mkLoop (ls_commit_url st) total_xp level title
                       unlocked (ls_conflict_exhausted st))))
          else
            (evs, Ok (mkLoop (ls_commit_url st) total_xp level title
                        unlocked true))
      | Raise e => (evs, Raise e)
      end
  end.
Proof.
  unfold loop, attempt_update, fresh_document. cbn [retry_loop].
  destruct (remote_get w k) as [[content sha] | e]; [ | reflexivity ].
  destruct (update_table_in_md _ _ _ _ _ _ _)
    as [[[[[updated_md total_xp] level] title] unlocked] | e];
    [ | reflexivity ].
  cbn [ls_commit_url ls_conflict_exhausted].
  destruct (remote_put w k) as [url | [m | m | [status | ] | m]];
    try reflexivity.
  destruct status as [ | p | p]; try reflexivity.
  repeat match goal with
         | q : positive |- _ => destruct q; try reflexivity
         end.
  destruct (k <? max_attempts)%nat; [ | reflexivity ].
  destruct (retry_loop _ _ _ _ _ _ _ _ _). reflexivity.
Qed.

Lemma gets_app (e1 e2 : list event) :
  gets (e1 ++ e2) = (gets e1 ++ gets e2)%list.
Proof.
  induction e1 as [ | [ | c | k | k sha c m] e1 IH]; cbn [app gets]; auto.
  now rewrite IH.
Qed.

Lemma puts_app (e1 e2 : list event) :
  puts (e1 ++ e2) = (puts e1 ++ puts e2)%list.
Proof.
  induction e1 as [ | [ | c | k | k sha c m] e1 IH]; cbn [app puts]; auto.
  now rewrite IH.
Qed.

Lemma committed_app (e1 e2 : list event) :
  committed w (e1 ++ e2) = (committed w e1 ++ committed w e2)%list.
Proof.
  induction e1 as [ | [ | c | k | k sha c m] e1 IH]; cbn [app committed];
    auto.
  destruct (remote_put w k); [ | exact IH ]. cbn [app]. now rewrite IH.
Qed.

Lemma conflicting_events (k : nat) :
  conflicting int_float w args k ->
  gets (attempt_events int_float w args k) = [k] /\
  puts (attempt_events int_float w args k) = [k] /\
  committed w (attempt_events int_float w args k) = [].
Proof.
  intros [(sha & [[[[out total] lv] ti] un] & A) P].
  unfold attempt_events. rewrite A. cbn [gets puts committed].
  rewrite P. repeat split.
Qed.

(** A run of conflicts met before the last attempt: the loop goes on
    with the attempts left, the commit reference and the exhaustion flag
    as they were. *)
Lemma loop_conflicts (j a : nat) (rest : list nat) (st : loop_state) :
  (a + j <= max_attempts)%nat ->
  (forall k, (a <= k < a + j)%nat -> conflicting int_float w args k) ->
  exists st',
    ls_commit_url st' = ls_commit_url st /\
    ls_conflict_exhausted st' = ls_conflict_exhausted st /\
    loop (seq a j ++ rest) st =
    ((flat_map (attempt_events int_float w args) (seq a j)
      ++ fst (loop rest st'))%list,
     snd (loop rest st')).
Proof.
  revert a st. induction j as [ | j IH]; intros a st B C.
  - exists st. cbn [seq app flat_map]. repeat split.
    now destruct (loop rest st).
  - cbn [seq app flat_map]. rewrite loop_step.
    destruct (C a ltac:(lia))
      as [(sha & [[[[out total] lv] ti] un] & A) P].
    unfold attempt_events at 1. rewrite A, P. unfold conflict. cbv zeta.
    rewrite (proj2 (Nat.ltb_lt a max_attempts)) by lia.
    destruct (IH (S a) (mkLoop (ls_commit_url st) total lv ti un
                          (ls_conflict_exhausted st)))
      as (st' & U & X & E).
    { lia. }
    { intros k K. apply C. lia. }
    exists st'. cbn [ls_commit_url ls_conflict_exhausted] in U, X.
    split; [ exact U | ]. split; [ exact X | ].
    rewrite E. cbn [fst snd]. rewrite <- app_assoc. reflexivity.
Qed.

Lemma conflicts_events (j a : nat) :
  (forall k, (a <= k < a + j)%nat -> conflicting int_float w args k) ->
  let evs := flat_map (attempt_events int_float w args) (seq a j) in
  gets evs = seq a j /\ puts evs = seq a j /\ committed w evs = [].
Proof.
  revert a. induction j as [ | j IH]; intros a C; cbn [seq flat_map].
  - repeat split.
  - destruct (conflicting_events a (C a ltac:(lia))) as (G & P & M).
    destruct (IH (S a)) as (G' & P' & M').
    { intros k K. apply C. lia. }
    cbn zeta in *.
    rewrite gets_app, puts_app, committed_app, G, P, M, G', P', M'.
    repeat split.
Qed.


End DriverFacts.


(** C3. In remote mode, when every write attempt meets a version
    conflict, the run makes exactly 4 reads and 4 writes, none of which
    the store accepts, and ends with a result (not an error) whose reason
    is the computed reason followed by "; commit_conflict_skipped" and
    whose commit reference is the empty string. *)
Theorem conflicts_exhaust_attempts (int_float : string -> option Z)
    (w : World) (args : Args) :
  remote_mode args ->
  (forall k, (1 <= k <= max_attempts)%nat ->
             exists sha r, attempt_update int_float w args k = Ok (sha, r)) ->
  (forall k, (1 <= k <= max_attempts)%nat -> remote_put w k = conflict) ->
  exists res,
    let evs := fst (main int_float w args) in
    snd (main int_float w args) = Ok res /\
    res_reason res = snd (award_of args) ++ "; commit_conflict_skipped" /\
    res_commit_url res = "" /\
    res_mode res = "api" /\
    gets evs = [1; 2; 3; 4]%nat /\
    puts evs = [1; 2; 3; 4]%nat /\
    committed w evs = [].
Proof.
  intros R A C.
  rewrite (main_remote int_float w args R).
  assert (CF : forall k, (1 <= k < 1 + 3)%nat ->
                         conflicting int_float w args k).
  { intros k K. unfold max_attempts in *.
    split; [ apply A; lia | apply C; lia ]. }
  change (seq 1 max_attempts) with (seq 1 3 ++ [4%nat])%list.
  destruct (loop_conflicts int_float w args 3 1 [4%nat]
              (mkLoop "" 0 1 "Starting Hunter" [] false)
              ltac:(unfold max_attempts; lia) CF) as (st' & U & _ & E).
  rewrite E. rewrite loop_step.
  destruct (A 4%nat ltac:(unfold max_attempts; lia))
    as (sha & [[[[out total] lv] ti] un] & A4).
  rewrite A4, (C 4%nat ltac:(unfold max_attempts; lia)).
  unfold conflict. cbv zeta.
  change (4 <? max_attempts)%nat with false. cbv iota.
  cbn [fst snd ls_conflict_exhausted ls_total_xp ls_level ls_title
       ls_unlocked ls_commit_url].
  eexists. split; [ reflexivity | ].
  cbn [res_reason res_commit_url res_mode]. rewrite U.
  cbn [ls_commit_url].
  destruct (conflicts_events int_float w args 3 1 CF) as (Gs & Ps & Ms).
  cbn zeta in Gs, Ps, Ms.
  rewrite committed_app, gets_app, puts_app, Gs, Ps, Ms.
  cbn [gets puts committed app seq].
  rewrite (C 4%nat ltac:(unfold max_attempts; lia)). unfold conflict.
  repeat split.
Qed.

Lemma conflicts_exhaust_attempts_witness :
  exists res,
    snd (main int_float_digits (simulated_world 4) example_args) = Ok res /\
    res_reason res = "issue closed, standard tier; commit_conflict_skipped" /\
    res_commit_url res = "".
Proof.
  destruct (conflicts_exhaust_attempts int_float_digits (simulated_world 4)
              example_args) as (res & M & Rr & Cu & _).
  - split; [ reflexivity | split; discriminate ].
  - intros k K. unfold max_attempts in K.
    assert (E : k = 1%nat \/ k = 2%nat \/ k = 3%nat \/ k = 4%nat) by lia.
    destruct E as [-> | [-> | [-> | ->]]]; vm_compute; do 2 eexists;
      reflexivity.
  - intros k K. unfold max_attempts in K.
    assert (E : k = 1%nat \/ k = 2%nat \/ k = 3%nat \/ k = 4%nat) by lia.
    destruct E as [-> | [-> | [-> | ->]]]; reflexivity.
  - exists res. split; [ exact M | ]. split; [ | exact Cu ].
    rewrite Rr. reflexivity.
Defined.

(** C6, as the specification words it, fails: [ledger_without_log] has
    the table header and no award-log heading, and the update succeeds,
    writing the heading itself. *)
Lemma missing_log_heading_is_not_an_error :
  Py.find "## Latest Awards" ledger_without_log = None /\
  exists out,
    update_table_in_md int_float_digits example_stamp ledger_without_log
      "amy" 50 "base action" []
    = Ok (out, 170, 1, "Starting Hunter", []) /\
    Py.contains "## Latest Awards" out = true.
Proof.
  split; [ reflexivity | ].
  vm_compute. eexists. split; reflexivity.
Qed.

(** * Further properties of the code *)

(** ** Levels *)

(** The level never decreases as XP grows, and stays between 1 and 10. *)
Theorem get_level_monotone (a b : Z) :
  a <= b ->
  1 <= fst (get_level_and_title a) <= fst (get_level_and_title b) /\
  fst (get_level_and_title b) <= 10.
Proof.
  intros H.
  pose proof (get_level_and_title_cases a) as Ca.
  pose proof (get_level_and_title_cases b) as Cb. cbn zeta in *.
  destruct Ca as [[Ra Ea] | [[Ra Ea] | [[Ra Ea] | [[Ra Ea] | [[Ra Ea]
           | [[Ra Ea] | [[Ra Ea] | [[Ra Ea] | [[Ra Ea] | [Ra Ea]]]]]]]]]];
    rewrite Ea;
    destruct Cb as [[Rb Eb] | [[Rb Eb] | [[Rb Eb] | [[Rb Eb] | [[Rb Eb]
             | [[Rb Eb] | [[Rb Eb] | [[Rb Eb] | [[Rb Eb] | [Rb Eb]]]]]]]]]];
    rewrite Eb; cbn [fst]; lia.
Qed.

Lemma get_level_monotone_witness :
  fst (get_level_and_title 450) <= fst (get_level_and_title 2100).
Proof.
  destruct (get_level_monotone 450 2100) as [[_ H] _]; [ lia | exact H ].
Defined.

(** ** Award calculator *)

Lemma contributing_le_all (rules : list (bool * Z)) :
  Forall (fun r => 0 < snd r) rules ->
  sum_Z (contributing rules) <= sum_Z (map snd rules).
Proof.
  induction 1 as [ | [b n] rules Hn _ IH]; [ reflexivity | ].
  rewrite sum_contributing_cons. cbn [map snd sum_Z fold_right] in *.
  fold (sum_Z (map snd rules)). destruct b; lia.
Qed.

Lemma contributing_at_least (m : Z) (rules : list (bool * Z)) :
  0 <= m ->
  Forall (fun r => m <= snd r) rules ->
  contributing rules <> [] -> m <= sum_Z (contributing rules).
Proof.
  intros M. induction 1 as [ | [b n] rules Hn _ IH];
    [ intros N; exfalso; apply N; reflexivity | ].
  rewrite sum_contributing_cons. unfold contributing in *.
  cbn [filter fst map snd] in *. destruct b.
  - intros _. destruct (map snd (filter fst rules)) eqn:E.
    + cbn. lia.
    + assert (m <= sum_Z (z :: l)) by (apply IH; discriminate). cbn in *. lia.
  - intros N. specialize (IH N). lia.
Qed.

(** The delta of one event lies between 30, the smallest bonus, and
    1510, all bonuses together. *)
Theorem calculate_xp_bounds (event_type event_action : string)
    (labels : list string) (pr_merged : bool) :
  30 <= fst (calculate_xp event_type event_action labels pr_merged) <= 1510.
Proof.
  rewrite calculate_xp_fst. cbn zeta.
  pose proof (contributing_le_all _
                (bonus_rules_positive event_type event_action labels
                   pr_merged)) as U.
  change (sum_Z (map snd (bonus_rules event_type event_action labels
                            pr_merged))) with 1510 in U.
  assert (L : Forall (fun r => 30 <= snd r)
                (bonus_rules event_type event_action labels pr_merged)).
  { unfold bonus_rules. repeat constructor; cbn [snd]; lia. }
  pose proof (contributing_at_least 30 _ ltac:(lia) L) as Lo.
  set (amounts := contributing _) in *. unfold BASE_ACTION_XP.
  destruct (Z.eqb_spec (sum_Z amounts) 0) as [E | E]; [ lia | ].
  assert (N : amounts <> []) by (intros ->; apply E; reflexivity).
  specialize (Lo N). lia.
Qed.

(** ** Badges *)

Lemma run_rules_sound (existing : list string) (rules : list (string * bool))
    (unlocked : list string) (name : string) :
  In name (run_rules existing rules unlocked) ->
  In name unlocked \/
  (In (name, true) rules /\ mem name existing = false).
Proof.
  unfold run_rules. revert unlocked.
  induction rules as [ | [n cond] rules IH]; intros unlocked;
    cbn [fold_left fst snd]; [ now left | ].
  intros I. destruct (IH _ I) as [J | [J K]].
  - unfold determine_maybe in J.
    destruct cond; cbn [andb] in J; [ | now left ].
    destruct (mem n existing) eqn:E; cbn [andb negb] in J; [ now left | ].
    destruct (mem n unlocked); cbn [negb] in J; [ now left | ].
    unfold append in J. apply in_app_iff in J.
    destruct J as [J | [<- | []]]; [ now left | ].
    right. split; [ now left | exact E ].
  - right. split; [ now right | exact K ].
Qed.

Lemma badge_rules_styled (new_xp : Z) (labels : list string)
    (actor name : string) (cond : bool) :
  In (name, cond) (badge_rules new_xp labels actor) ->
  In name (map fst BADGE_STYLE).
Proof.
  unfold badge_rules. cbn [In]. intros H.
  repeat match type of H with
         | _ \/ _ => destruct H as [H | H]
         | False => contradiction
         end;
    injection H as <- _; cbn; tauto.
Qed.

(** The badges one call unlocks are exactly those whose rule fires and
    that are not held yet; each has its own entry in the style table. *)
Theorem determine_new_badges_exact (existing : list string)
    (old_xp new_xp : Z) (labels : list string) (actor name : string) :
  (In name (determine_new_badges existing old_xp new_xp labels actor) <->
   In (name, true) (badge_rules new_xp labels actor) /\
   mem name existing = false) /\
  (In name (determine_new_badges existing old_xp new_xp labels actor) ->
   In name (map fst BADGE_STYLE)).
Proof.
  rewrite determine_new_badges_rules.
  assert (S : In name (run_rules existing (badge_rules new_xp labels actor) [])
              -> In (name, true) (badge_rules new_xp labels actor) /\
                 mem name existing = false).
  { intros I. destruct (run_rules_sound _ _ _ _ I) as [[] | H]. exact H. }
  split; [ split | ].
  - exact S.
  - intros [I E].
    destruct (run_rules_inv existing (badge_rules new_xp labels actor) []
                (NoDup_nil _)) as (_ & _ & F).
    specialize (F name I). rewrite E in F. cbn [orb] in F.
    now apply mem_In.
  - intros I. destruct (S I) as [J _]. eapply badge_rules_styled; eauto.
Qed.

Lemma fired_rule_held (existing : list string) (old_xp new_xp : Z)
    (labels : list string) (actor name : string) :
  In (name, true) (badge_rules new_xp labels actor) ->
  mem name
    (set_update existing
       (determine_new_badges existing old_xp new_xp labels actor)) = true.
Proof.
  intros I. rewrite mem_set_update, determine_new_badges_rules.
  destruct (run_rules_inv existing (badge_rules new_xp labels actor) []
              (NoDup_nil _)) as (_ & _ & F).
  now apply F.
Qed.

(** After an award, a target whose title is also the name of a badge
    (Rising, Multiplier, Veteran, Legendary Hunter) holds that badge. *)
Theorem title_badge_held (stamp : string) (parsed : list HunterRow)
    (actor : string) (gained_xp : Z) (reason : string)
    (labels : list string) :
  let aw := apply_award stamp parsed actor gained_xp reason labels in
  In (title (aw_target aw)) (map fst BADGE_STYLE) ->
  mem (title (aw_target aw)) (badges (aw_target aw)) = true.
Proof.
  destruct (apply_award_shape stamp parsed actor gained_xp reason labels)
    as (before & old & after & _ & T & _).
  cbn zeta in *. rewrite T. unfold awarded_target. cbn [title badges].
  set (total := xp old + gained_xp).
  pose proof (get_level_and_title_cases total) as C. cbn zeta in C.
  destruct C as [[R E] | [[R E] | [[R E] | [[R E] | [[R E]
          | [[R E] | [[R E] | [[R E] | [[R E] | [R E]]]]]]]]]];
    rewrite E; cbn [snd]; intros I;
    try solve [ exfalso; cbn in I;
                repeat match type of I with
                       | _ \/ _ => destruct I as [I | I]
                       | False => contradiction
                       | _ = _ => discriminate I
                       end ];
    apply fired_rule_held; unfold badge_rules; cbn [In].
  - right. left. f_equal. apply Z.geb_le. lia.
  - right. right. left. f_equal. apply Z.geb_le. lia.
  - do 3 right. left. f_equal. apply Z.geb_le. lia.
  - do 4 right. left. f_equal. apply Z.geb_le. lia.
Qed.

Lemma title_badge_held_witness :
  let aw := apply_award example_stamp
              [mkHunterRow "@amy" "w" 1950 4 "Rising Hunter" [] "" ""]
              "amy" 100 "standard tier" [] in
  title (aw_target aw) = "Multiplier Hunter" /\
  mem "Multiplier Hunter" (badges (aw_target aw)) = true.
Proof.
  cbn zeta. split; [ reflexivity | ].
  apply (title_badge_held example_stamp
           [mkHunterRow "@amy" "w" 1950 4 "Rising Hunter" [] "" ""]
           "amy" 100 "standard tier" []).
  vm_compute. tauto.
Defined.

(** ** Order of the table *)

Lemma string_leb_trans (a b c : string) :
  String.leb a b = true -> String.leb b c = true -> String.leb a c = true.
Proof.
  unfold String.leb. intros H1 H2.
  destruct (String.compare a b) eqn:Eab; try discriminate;
    destruct (String.compare b c) eqn:Ebc; try discriminate.
  - apply String_as_OT.cmp_eq in Eab, Ebc. subst.
    pose proof (proj2 (String_as_OT.cmp_eq c c) eq_refl) as Rf.
    unfold String_as_OT.cmp in Rf. now rewrite Rf.
  - apply String_as_OT.cmp_eq in Eab. subst. now rewrite Ebc.
  - apply String_as_OT.cmp_eq in Ebc. subst. now rewrite Eab.
  - apply String_as_OT.cmp_lt in Eab, Ebc.
    pose proof (String_as_OT.lt_trans _ _ _ Eab Ebc) as L.
    apply String_as_OT.cmp_lt in L. unfold String_as_OT.cmp in L.
    now rewrite L.
Qed.

Lemma string_ltb_leb (a b : string) :
  String.ltb b a = false <-> String.leb a b = true.
Proof.
  unfold String.ltb, String.leb. rewrite (String.compare_antisym b a).
  destruct (String.compare a b); cbn; split; congruence.
Qed.

Lemma row_lt_le (a b : HunterRow) : row_lt b a = false <-> row_le a b.
Proof.
  unfold row_lt, row_le. rewrite orb_false_iff, andb_false_iff.
  rewrite Z.ltb_ge, Z.eqb_neq, string_ltb_leb. split.
  - intros [L [N | S]].
    + left. lia.
    + destruct (Z.eq_dec (xp a) (xp b)); [ right; now split | left; lia ].
  - intros [L | [E S]].
    + split; [ lia | left; lia ].
    + split; [ lia | now right ].
Qed.

Lemma row_le_trans (a b c : HunterRow) : row_le a b -> row_le b c -> row_le a c.
Proof.
  unfold row_le. intros [L1 | [E1 S1]] [L2 | [E2 S2]];
    try (left; lia).
  right. split; [ lia | eapply string_leb_trans; eauto ].
Qed.

Lemma row_lt_asym (a b : HunterRow) : row_lt a b = true -> row_le a b.
Proof.
  unfold row_lt, row_le. rewrite orb_true_iff, andb_true_iff.
  rewrite Z.ltb_lt, Z.eqb_eq. intros [L | [E S]]; [ left; lia | ].
  right. split; [ lia | ].
  unfold String.ltb in S. unfold String.leb.
  destruct (String.compare _ _); congruence.
Qed.

Lemma insert_sorted_row (x : HunterRow) (l : list HunterRow) :
  Sorted row_le l -> Sorted row_le (insert_sorted row_lt x l).
Proof.
  induction 1 as [ | y l S IH H]; cbn [insert_sorted].
  - repeat constructor.
  - destruct (row_lt y x) eqn:E.
    + constructor; [ exact IH | ].
      destruct l as [ | z l]; cbn [insert_sorted].
      * constructor. now apply row_lt_asym.
      * destruct (row_lt z x).
        -- constructor. now inversion H.
        -- constructor. now apply row_lt_asym.
    + constructor; [ now constructor | ].
      constructor. now apply row_lt_le.
Qed.

Lemma sort_by_row_sorted (l : list HunterRow) :
  Sorted row_le (sort_by row_lt l).
Proof.
  unfold sort_by. induction l as [ | x l IH]; cbn [fold_right].
  - constructor.
  - apply insert_sorted_row. exact IH.
Qed.

(** The rows an update writes are in table order: descending XP, and
    among equal XP ascending lowercased handle. *)
Theorem rows_sorted_after_update (stamp : string) (parsed : list HunterRow)
    (actor : string) (gained_xp : Z) (reason : string)
    (labels : list string) :
  StronglySorted row_le
    (aw_rows (apply_award stamp parsed actor gained_xp reason labels)).
Proof.
  destruct (apply_award_shape stamp parsed actor gained_xp reason labels)
    as (before & old & after & _ & _ & R & _).
  cbn zeta in R. rewrite R.
  apply Sorted_StronglySorted; [ intros a b c; apply row_le_trans | ].
  apply sort_by_row_sorted.
Qed.

(** ** What an award leaves alone *)

Lemma mem_backfill (row : HunterRow) (b : string) :
  mem b (badges row) = true -> mem b (badges (backfill row)) = true.
Proof.
  intros H. unfold backfill. cbn [badges]. rewrite mem_set_update, H.
  reflexivity.
Qed.

(** Every row an update writes comes from a decoded row, or is the new
    row of the actor: it keeps that row's handle, wallet and notes and
    every badge it held, and when it is not the target also its XP,
    level, title and last action. *)
Theorem award_preserves_rows (stamp : string) (parsed : list HunterRow)
    (actor : string) (gained_xp : Z) (reason : string)
    (labels : list string) (r : HunterRow) :
  let aw := apply_award stamp parsed actor gained_xp reason labels in
  In r (aw_rows aw) ->
  exists p,
    (In p parsed \/ p = new_hunter ("@" ++ actor)) /\
    hunter r = hunter p /\ wallet r = wallet p /\ notes r = notes p /\
    (forall b, mem b (badges p) = true -> mem b (badges r) = true) /\
    (r <> aw_target aw ->
     xp r = xp p /\ level r = level p /\ title r = title p /\
     last_action r = last_action p).
Proof.
  cbn zeta. intros I.
  destruct (apply_award_shape stamp parsed actor gained_xp reason labels)
    as (before & old & after & L & T & R & _).
  cbn zeta in *. rewrite R in I. rewrite T.
  eapply Permutation_in in I; [ | apply sort_by_perm ].
  assert (B : forall q, In q (before ++ after) ->
                        exists p, In p parsed /\ q = backfill p).
  { intros q J. eapply located_rows; eauto. }
  assert (K : forall q, (exists p, In p parsed /\ q = backfill p) ->
              exists p,
                (In p parsed \/ p = new_hunter ("@" ++ actor)) /\
                hunter q = hunter p /\ wallet q = wallet p /\
                notes q = notes p /\
                (forall b, mem b (badges p) = true ->
                           mem b (badges q) = true) /\
                (q <> awarded_target stamp old actor gained_xp reason labels ->
                 xp q = xp p /\ level q = level p /\ title q = title p /\
                 last_action q = last_action p)).
  { intros q (p & Ip & ->). exists p. split; [ now left | ].
    repeat split; auto using mem_backfill. }
  apply in_app_iff in I. destruct I as [I | [<- | I]].
  - apply K, B, in_app_iff. now left.
  - assert (O : exists p, (In p parsed \/ p = new_hunter ("@" ++ actor)) /\
                          hunter old = hunter p /\ wallet old = wallet p /\
                          notes old = notes p /\
                          (forall b, mem b (badges p) = true ->
                                     mem b (badges old) = true)).
    { destruct L as [N | pb po pa -> Kp N].
      - exists (new_hunter ("@" ++ actor)). split; [ now right | ].
        repeat split; auto.
      - exists po. split; [ left; apply in_elt | ].
        repeat split; auto using mem_backfill. }
    destruct O as (p & Ip & H1 & H2 & H3 & H4). exists p.
    split; [ exact Ip | ]. unfold awarded_target. cbn [hunter wallet notes badges].
    repeat split; auto; try congruence.
    intros b Hb. rewrite mem_set_update, (H4 b Hb). reflexivity.
  - apply K, B, in_app_iff. now right.
Qed.

Lemma award_preserves_rows_witness :
  exists p,
    (In p [mkHunterRow "@amy" "w" 1950 4 "Rising Hunter" ["Bug Slayer"]
             "seed" "vip"]
     \/ p = new_hunter ("@" ++ "bob")) /\
    hunter p = "@amy" /\ notes p = "vip".
Proof.
  destruct (award_preserves_rows example_stamp
              [mkHunterRow "@amy" "w" 1950 4 "Rising Hunter" ["Bug Slayer"]
                 "seed" "vip"] "bob" 50 "base action" []
              (backfill (mkHunterRow "@amy" "w" 1950 4 "Rising Hunter"
                           ["Bug Slayer"] "seed" "vip")))
    as (p & Ip & H & _ & N & _).
  - vm_compute. left. reflexivity.
  - exists p. split; [ exact Ip | ]. split; [ now rewrite <- H | now rewrite <- N ].
Defined.

(** The update never takes the branch that writes the bootstrap
    placeholder row: the rows it renders always include the target, so
    the table written is never empty. *)
Theorem placeholder_never_written (stamp : string) (lines : list string)
    (start stop : nat) (parsed : list HunterRow) (actor : string)
    (gained_xp : Z) (reason : string) (labels : list string) :
  let aw := apply_award stamp parsed actor gained_xp reason labels in
  render_rows 1 (aw_rows aw) <> [] /\
  serialize stamp lines start stop aw actor gained_xp reason =
  Py.rstrip
    (insert_award
       (Py.join LF (upto start lines ++ render_rows 1 (aw_rows aw)
                    ++ from stop lines))
       (award_line_of stamp actor gained_xp reason aw)) ++ LF.
Proof.
  cbn zeta.
  destruct (apply_award_rows stamp parsed actor gained_xp reason labels)
    as [IT _]. cbn zeta in IT.
  set (aw := apply_award stamp parsed actor gained_xp reason labels) in *.
  assert (N : render_rows 1 (aw_rows aw) <> []).
  { destruct (aw_rows aw); [ destruct IT | discriminate ]. }
  split; [ exact N | ].
  unfold serialize. destruct (render_rows 1 (aw_rows aw));
    [ congruence | reflexivity ].
Qed.

(** ** Badge sets *)

Lemma NoDup_set_add (x : string) (s : list string) :
  NoDup s -> NoDup (set_add x s).
Proof.
  intros N. unfold set_add. destruct (mem x s) eqn:E; [ exact N | ].
  now apply NoDup_append.
Qed.

Lemma NoDup_set_update (s xs : list string) :
  NoDup s -> NoDup (set_update s xs).
Proof.
  unfold set_update. revert s.
  induction xs as [ | x xs IH]; intros s N; cbn [fold_left]; [ exact N | ].
  apply IH. now apply NoDup_set_add.
Qed.

Lemma NoDup_parse_badges (cell : string) : NoDup (parse_badges cell).
Proof.
  unfold parse_badges.
  pose proof (NoDup_set_update [] (findall_badges Outside cell)
                (NoDup_nil _)) as N.
  fold (set_of_list (findall_badges Outside cell)) in N.
  destruct (set_of_list (findall_badges Outside cell)); [ | exact N ].
  clear N. generalize (NoDup_nil string). generalize (@nil string).
  induction (Py.split "," cell) as [ | t ts IH]; intros acc N;
    cbn [fold_left]; [ exact N | ].
  apply IH. destruct (_ && _); [ now apply NoDup_set_add | exact N ].
Qed.

Lemma NoDup_parse_hunter_row (int_float : string -> option Z)
    (cells : list string) (p : HunterRow) :
  parse_hunter_row int_float cells = Some p -> NoDup (badges p).
Proof.
  unfold parse_hunter_row.
  destruct (List.length cells <? 7)%nat; [ discriminate | ].
  destruct (9 <=? List.length cells)%nat; intros [= <-]; cbn [badges];
    [ apply NoDup_parse_badges | constructor ].
Qed.

(** After an update no record of the table lists a badge twice. *)
Theorem badges_unique_after_update (int_float : string -> option Z)
    (stamp md actor : string) (gained_xp : Z) (reason : string)
    (labels : list string) (start stop : nat) (aw : awarded) (r : HunterRow) :
  updated_ledger int_float stamp (Py.splitlines md) actor gained_xp reason
    labels = Ok (start, stop, aw) ->
  In r (aw_rows aw) -> NoDup (badges r).
Proof.
  intros U I. apply updated_ledger_ok in U. destruct U as [_ ->].
  set (parsed := parse_rows int_float _) in *.
  assert (P : forall p, In p parsed -> NoDup (badges p)).
  { intros p Ip. apply parse_rows_In in Ip. destruct Ip as (line & _ & E).
    eapply NoDup_parse_hunter_row; eauto. }
  destruct (apply_award_shape stamp parsed actor gained_xp reason labels)
    as (before & old & after & L & T & R & _).
  cbn zeta in *. rewrite R in I.
  eapply Permutation_in in I; [ | apply sort_by_perm ].
  assert (B : forall q, In q (before ++ after) -> NoDup (badges q)).
  { intros q J. destruct (located_rows _ _ _ _ _ _ L J) as (p & Ip & ->).
    unfold backfill. cbn [badges]. apply NoDup_set_update. auto. }
  apply in_app_iff in I. destruct I as [I | [<- | I]].
  - apply B, in_app_iff. now left.
  - unfold awarded_target. cbn [badges]. apply NoDup_set_update.
    destruct L as [N | pb po pa E K N].
    + constructor.
    + unfold backfill. cbn [badges]. apply NoDup_set_update.
      apply P. rewrite E. apply in_elt.
  - apply B, in_app_iff. now right.
Qed.

Lemma badges_unique_after_update_witness :
  exists start stop aw,
    updated_ledger int_float_digits example_stamp
      (Py.splitlines stale_ledger) "Bob" 600 "bounty approved" []
    = Ok (start, stop, aw) /\
    NoDup (badges (aw_target aw)).
Proof.
  assert (U : exists start stop aw,
             updated_ledger int_float_digits example_stamp
               (Py.splitlines stale_ledger) "Bob" 600 "bounty approved" []
             = Ok (start, stop, aw) /\ In (aw_target aw) (aw_rows aw)).
  { vm_compute. do 3 eexists. split; [ reflexivity | ]. left. reflexivity. }
  destruct U as (start & stop & aw & U & I).
  exists start, stop, aw. split; [ exact U | ].
  exact (badges_unique_after_update _ _ _ _ _ _ _ _ _ _ _ U I).
Defined.

(** ** The driver, whatever the store answers *)

Section DriverBounds.
Variable int_float : string -> option Z.
Variable w : World.
Variable args : Args.

Let loop := retry_loop int_float w (arg_actor args) (commit_message args)
              (snd (award_of args)) (fst (award_of args)) (labels_of args).

Lemma loop_step_fatal (k : nat) (rest : list nat) (st : loop_state)
    (sha : string) (r : string * Z * Z * string * list string) (e : error) :
  attempt_update int_float w args k = Ok (sha, r) ->
  remote_put w k = Raise e ->
  e <> HTTPError (Some 409) ->
  loop (k :: rest) st =
  ([EvGet k; EvPut k sha (fst (fst (fst (fst r)))) (commit_message args)],
   Raise e).
Proof.
  intros A P N. unfold loop. rewrite loop_step, A, P.
  destruct r as [[[[out total] lv] ti] un]. cbv zeta. cbn [fst].
  destruct e as [m | m | [status | ] | m]; try reflexivity.
  destruct status as [ | p | p]; try reflexivity.
  repeat match goal with
         | q : positive |- _ => destruct q; try reflexivity
         end.
  congruence.
Qed.

(** What every run of the loop keeps: no more reads than attempts, no
    write without its read, at most one accepted write, and after an
    accepted write a result that carries the flag it started with. *)
Lemma loop_bounds (attempts : list nat) (st : loop_state) :
  let evs := fst (loop attempts st) in
  (List.length (gets evs) <= List.length attempts)%nat /\
  (List.length (puts evs) <= List.length (gets evs))%nat /\
  (List.length (committed w evs) <= 1)%nat /\
  (committed w evs <> [] ->
   exists st', snd (loop attempts st) = Ok st' /\
               ls_conflict_exhausted st' = ls_conflict_exhausted st).
Proof.
  revert st. induction attempts as [ | k rest IH]; intros st.
  - cbn. repeat split; try lia. congruence.
  - unfold loop. rewrite loop_step. fold loop.
    destruct (attempt_update int_float w args k)
      as [[sha [[[[out total] lv] ti] un]] | e].
    2:{ cbn. repeat split; try lia. congruence. }
    cbv zeta.
    destruct (remote_put w k) as [url | e] eqn:P.
    { cbn [fst snd gets puts committed List.length]. rewrite P.
      cbn [List.length]. repeat split; try lia.
      intros _. eexists. split; reflexivity. }
    assert (F : forall e', e = e' ->
                  let evs := [EvGet k;
                              EvPut k sha out (commit_message args)] in
                  (List.length (gets evs) <= S (List.length rest))%nat /\
                  (List.length (puts evs) <= List.length (gets evs))%nat /\
                  (List.length (committed w evs) <= 1)%nat /\
                  committed w evs = []).
    { intros e' _. cbn [gets puts committed List.length]. rewrite P.
      cbn [List.length]. repeat split; lia. }
    destruct e as [m | m | [status | ] | m];
      try (destruct (F _ eq_refl) as (A & B & C & D);
           cbn [fst snd List.length]; repeat split; auto; congruence).
    destruct status as [ | p | p];
      try (destruct (F _ eq_refl) as (A & B & C & D);
           cbn [fst snd List.length]; repeat split; auto; congruence).
    repeat match goal with
           | q : positive |- _ =>
               destruct q;
               try (destruct (F _ eq_refl) as (A & B & C & D);
                    cbn [fst snd List.length]; repeat split; auto;
                    congruence)
           end.
    destruct (F _ eq_refl) as (A & B & C & D). cbn zeta in *.
    destruct (k <? max_attempts)%nat.
    + cbn [fst snd].
      destruct (IH (mkLoop (ls_commit_url st) total lv ti un
                      (ls_conflict_exhausted st))) as (A' & B' & C' & D').
      cbn zeta in *.
      rewrite gets_app, puts_app, committed_app, !length_app, D.
      cbn [app List.length gets puts] in *.
      repeat split; try lia. exact D'.
    + cbn [fst snd List.length]. repeat split; auto. congruence.
Qed.

(** The events of one turn are those of the attempt, followed by
    nothing or by the events of the turns left. *)
Lemma loop_trace (k : nat) (rest : list nat) (st : loop_state) :
  exists tail,
    fst (loop (k :: rest) st)
    = (attempt_events int_float w args k ++ tail)%list /\
    (tail = [] \/ exists st', tail = fst (loop rest st')).
Proof.
  unfold loop. rewrite loop_step. fold loop. unfold attempt_events.
  destruct (attempt_update int_float w args k)
    as [[sha [[[[out total] lv] ti] un]] | e].
  2:{ exists []. split; [ reflexivity | now left ]. }
  cbv zeta.
  assert (Stop : forall r : exc loop_state,
            exists tail,
              fst ([EvGet k; EvPut k sha out (commit_message args)], r)
              = ([EvGet k; EvPut k sha out (commit_message args)]
                 ++ tail)%list /\
              (tail = [] \/ exists st', tail = fst (loop rest st'))).
  { intros r. exists []. split; [ reflexivity | now left ]. }
  destruct (remote_put w k) as [url | e]; [ apply Stop | ].
  destruct e as [m | m | [status | ] | m]; try apply Stop.
  destruct status as [ | p | p]; try apply Stop.
  repeat match goal with
         | q : positive |- _ => destruct q; try apply Stop
         end.
  destruct (k <? max_attempts)%nat; [ | apply Stop ].
  eexists. split; [ reflexivity | right; eauto ].
Qed.

(** A write is the event that directly follows the read of the same
    attempt, and it carries the version token that read returned. *)
Lemma loop_put_after_get (attempts : list nat) (st : loop_state)
    (before : list event) (k : nat) (sha content msg : string)
    (after : list event) :
  fst (loop attempts st) = (before ++ EvPut k sha content msg :: after)%list ->
  exists before' fetched,
    before = (before' ++ [EvGet k])%list /\
    remote_get w k = Ok (fetched, sha).
Proof.
  revert st before. induction attempts as [ | k0 rest IH]; intros st before E.
  - destruct before; discriminate E.
  - destruct (loop_trace k0 rest st) as (tail & T & Tl). rewrite T in E.
    clear T. unfold attempt_events in E.
    assert (Rest : forall b2,
              tail = (b2 ++ EvPut k sha content msg :: after)%list ->
              exists before' fetched,
                b2 = (before' ++ [EvGet k])%list /\
                remote_get w k = Ok (fetched, sha)).
    { intros b2 E2. destruct Tl as [-> | [st' ->]].
      - destruct b2; discriminate E2.
      - now apply (IH st'). }
    destruct (attempt_update int_float w args k0)
      as [[sha0 [[[[out total] lv] ti] un]] | e] eqn:A.
    + destruct before as [ | b0 [ | b1 b2]]; cbn [app] in E.
      * discriminate E.
      * injection E as E0 Ek Es _ _ _. subst b0 k0 sha0.
        unfold attempt_update in A.
        destruct (remote_get w k) as [[fetched s0] | ]; [ | discriminate ].
        destruct (update_table_in_md _ _ _ _ _ _ _); [ | discriminate ].
        injection A as -> _. now exists [], fetched.
      * injection E as E0 E1 E. subst b0 b1.
        destruct (Rest b2 E) as (b' & fetched & -> & G).
        now exists (EvGet k0 :: EvPut k0 sha0 out (commit_message args) :: b'),
                   fetched.
    + destruct before as [ | b0 b2]; cbn [app] in E; [ discriminate E | ].
      injection E as E0 E. subst b0.
      destruct (Rest b2 E) as (b' & fetched & -> & G).
      now exists (EvGet k0 :: b'), fetched.
Qed.

End DriverBounds.

(** In remote mode, whatever the store answers, a run reads the
    document at most 4 times and never writes without having read: every
    write directly follows the read of the same attempt and carries the
    version token that read returned; at most one write is accepted, and
    when one is accepted the run ends with a result whose reason carries
    no conflict marker. *)
Theorem remote_run_bounded (int_float : string -> option Z) (w : World)
    (args : Args) :
  remote_mode args ->
  let evs := fst (main int_float w args) in
  (List.length (gets evs) <= 4)%nat /\
  (List.length (puts evs) <= List.length (gets evs))%nat /\
  (forall before k sha content msg after,
      evs = (before ++ EvPut k sha content msg :: after)%list ->
      exists before' fetched,
        before = (before' ++ [EvGet k])%list /\
        remote_get w k = Ok (fetched, sha)) /\
  (List.length (committed w evs) <= 1)%nat /\
  (committed w evs <> [] ->
   exists res, snd (main int_float w args) = Ok res /\
               res_reason res = snd (award_of args)).
Proof.
  intros R. cbn zeta. rewrite (main_remote int_float w args R).
  pose proof (loop_bounds int_float w args (seq 1 max_attempts)
                (mkLoop "" 0 1 "Starting Hunter" [] false))
    as (A & B & C & D).
  pose proof (loop_put_after_get int_float w args (seq 1 max_attempts)
                (mkLoop "" 0 1 "Starting Hunter" [] false)) as O.
  cbn zeta in *.
  destruct (retry_loop int_float w (arg_actor args) (commit_message args)
              (snd (award_of args)) (fst (award_of args)) (labels_of args)
              (seq 1 max_attempts)
              (mkLoop "" 0 1 "Starting Hunter" [] false))
    as [evs [st | e]]; cbn [fst snd] in *.
  - repeat split; auto.
    intros N. destruct (D N) as (st' & [= <-] & X).
    cbn [ls_conflict_exhausted] in X.
    eexists. split; [ reflexivity | ]. cbn [res_reason]. now rewrite X.
  - repeat split; auto.
    intros N. destruct (D N) as (st' & E & _). discriminate.
Qed.

Lemma remote_run_bounded_witness :
  (List.length
     (gets (fst (main int_float_digits (simulated_world 4) example_args)))
   <= 4)%nat.
Proof.
  refine (proj1 (remote_run_bounded int_float_digits (simulated_world 4)
                   example_args _)).
  split; [ reflexivity | split; discriminate ].
Defined.

(** An error of the store that is not a version conflict ends the run at
    once with that error: a failed read at attempt N, or a write at
    attempt N refused with another status, after N-1 conflicts, leaves N
    reads, no accepted write, and no further attempt. *)
Theorem store_failure_is_fatal (int_float : string -> option Z) (w : World)
    (args : Args) (N : nat) (e : error) :
  remote_mode args ->
  (1 <= N <= max_attempts)%nat ->
  (forall k, (1 <= k < N)%nat -> conflicting int_float w args k) ->
  remote_get w N = Raise e \/
  ((exists sha r, attempt_update int_float w args N = Ok (sha, r)) /\
   remote_put w N = Raise e /\ e <> HTTPError (Some 409)) ->
  snd (main int_float w args) = Raise e /\
  gets (fst (main int_float w args)) = seq 1 N /\
  committed w (fst (main int_float w args)) = [].
Proof.
  intros R B C H.
  rewrite (main_remote int_float w args R).
  assert (Sq : seq 1 max_attempts =
               (seq 1 (N - 1) ++ N :: seq (S N) (max_attempts - N))%list).
  { replace max_attempts with ((N - 1) + S (max_attempts - N))%nat at 1
      by lia.
    rewrite seq_app. cbn [seq]. repeat f_equal; lia. }
  rewrite Sq.
  assert (CF : forall k, (1 <= k < 1 + (N - 1))%nat ->
                         conflicting int_float w args k).
  { intros k K. apply C. lia. }
  destruct (loop_conflicts int_float w args (N - 1) 1
              (N :: seq (S N) (max_attempts - N))
              (mkLoop "" 0 1 "Starting Hunter" [] false)
              ltac:(lia) CF) as (st' & _ & _ & E).
  rewrite E.
  destruct (conflicts_events int_float w args (N - 1) 1 CF)
    as (Gs & _ & Ms). cbn zeta in Gs, Ms.
  assert (Q : (seq 1 (N - 1) ++ [N])%list = seq 1 N).
  { replace N with ((N - 1) + 1)%nat at 3 by lia.
    rewrite seq_app. cbn [seq]. repeat f_equal; lia. }
  destruct H as [G | ((sha & r & A) & P & Ne)].
  - rewrite loop_step.
    assert (AN : attempt_update int_float w args N = Raise e).
    { unfold attempt_update. now rewrite G. }
    rewrite AN. cbn [fst snd].
    rewrite gets_app, committed_app, Gs, Ms. cbn [gets committed app].
    rewrite Q. repeat split.
  - rewrite (loop_step_fatal int_float w args N _ st' sha r e A P Ne).
    cbn [fst snd].
    rewrite gets_app, committed_app, Gs, Ms. cbn [gets committed app].
    rewrite P, Q. repeat split.
Qed.

Lemma store_failure_is_fatal_witness :
  snd (main int_float_digits
         (mkWorld (fun _ => "2026-01-05") (fun _ => example_stamp)
            (fun _ => Ok (stale_ledger, "v1"))
            (fun _ => Raise (HTTPError (Some 403)))
            (Raise (OtherException "FileNotFoundError")) None)
         example_args) = Raise (HTTPError (Some 403)).
Proof.
  refine (proj1 (store_failure_is_fatal int_float_digits _ example_args 1
                   (HTTPError (Some 403)) _ _ _ _)).
  - split; [ reflexivity | split; discriminate ].
  - unfold max_attempts. lia.
  - intros k K. lia.
  - right. split; [ | split; [ reflexivity | discriminate ] ].
    vm_compute. do 2 eexists. reflexivity.
Defined.

(** ** Local mode and the argument check *)

Lemma main_local (int_float : string -> option Z) (w : World) (args : Args) :
  arg_local_file args <> "" ->
  main int_float w args =
  match local_read w with
  | Raise e => ([EvRead], Raise e)
  | Ok md =>
      match update_table_in_md int_float (clock_stamp w 1)
              (update_frontmatter (clock_today w 1) md) (arg_actor args)
              (fst (award_of args)) (snd (award_of args)) (labels_of args)
      with
      | Raise e => ([EvRead], Raise e)
      | Ok (updated_md, total_xp, level, title, unlocked) =>
          match local_write w with
          | Some e => ([EvRead; EvWrite updated_md], Raise e)
          | None =>
              ([EvRead; EvWrite updated_md],
               Ok (mkResult "local" (arg_actor args) (fst (award_of args))
                     total_xp level title (snd (award_of args)) unlocked ""))
          end
      end
  end.
Proof.
  intros L. unfold main, award_of, labels_of.
  destruct (calculate_xp _ _ _ _) as [gained_xp reason]. cbn [fst snd].
  apply String.eqb_neq in L. rewrite L. cbn [negb]. reflexivity.
Qed.

(** In local mode the store is never contacted, whatever token and
    repository are given; the file is written only after the update
    succeeded, with the updated document, and a result is reported only
    after the write, with mode local and no commit reference. *)
Theorem local_mode_bypasses_store (int_float : string -> option Z)
    (w : World) (args : Args) :
  arg_local_file args <> "" ->
  let evs := fst (main int_float w args) in
  let updated md :=
    update_table_in_md int_float (clock_stamp w 1)
      (update_frontmatter (clock_today w 1) md) (arg_actor args)
      (fst (award_of args)) (snd (award_of args)) (labels_of args) in
  gets evs = [] /\ puts evs = [] /\
  (forall out, In (EvWrite out) evs ->
     exists md r, local_read w = Ok md /\ updated md = Ok r /\
                  out = fst (fst (fst (fst r)))) /\
  (forall res, snd (main int_float w args) = Ok res ->
     res_mode res = "local" /\ res_commit_url res = "" /\
     exists md out,
       local_read w = Ok md /\
       updated md = Ok (out, res_total_xp res, res_level res, res_title res,
                        res_new_badges res) /\
       evs = [EvRead; EvWrite out]).
Proof.
  intros L. cbn zeta. rewrite (main_local int_float w args L).
  destruct (local_read w) as [md | e]; cbn [fst snd gets puts].
  2:{ repeat split; try discriminate. intros out [H | []]. discriminate. }
  destruct (update_table_in_md _ _ _ _ _ _ _)
    as [[[[[out total] lv] ti] un] | e] eqn:U; cbn [fst snd gets puts].
  2:{ repeat split; try discriminate. intros out [H | []]. discriminate. }
  destruct (local_write w) as [e | ]; cbn [fst snd gets puts].
  - repeat split; try discriminate.
    intros o [H | [[= <-] | []]]; [ discriminate | ].
    exists md. eexists. split; [ reflexivity | ]. split; [ exact U | ].
    reflexivity.
  - split; [ reflexivity | ]. split; [ reflexivity | ]. split.
    + intros o [H | [[= <-] | []]]; [ discriminate | ].
      exists md. eexists. split; [ reflexivity | ]. split; [ exact U | ].
      reflexivity.
    + intros res [= <-]. cbn. repeat split.
      exists md, out. repeat split. exact U.
Qed.

Lemma local_mode_bypasses_store_witness :
  gets (fst (main int_float_digits
               (mkWorld (fun _ => "2026-01-05") (fun _ => example_stamp)
                  (fun _ => Raise (OtherException "ConnectionError"))
                  (fun _ => Raise (OtherException "ConnectionError"))
                  (Ok stale_ledger) None)
               (mkArgs "" "" "bob" "issues" "opened" "" "false" "main"
                  "bounties/XP_TRACKER.md" "tracker.md"))) = [].
Proof.
  refine (proj1 (local_mode_bypasses_store int_float_digits _ _ _)).
  discriminate.
Defined.

(** Without a local file, a missing token or repository stops the run
    before anything is read or written. *)
Theorem missing_credentials_rejected (int_float : string -> option Z)
    (w : World) (args : Args) :
  arg_local_file args = "" ->
  arg_token args = "" \/ arg_repo args = "" ->
  main int_float w args =
  ([], Raise (SystemExit "--token and --repo are required in API mode")).
Proof.
  intros L H. unfold main.
  destruct (calculate_xp _ _ _ _) as [gained_xp reason].
  rewrite L. cbn [String.eqb negb].
  destruct H as [-> | ->]; cbn [String.eqb orb]; [ reflexivity | ].
  now rewrite orb_true_r.
Qed.

Lemma missing_credentials_rejected_witness :
  main int_float_digits (simulated_world 0)
    (mkArgs "token" "" "bob" "issues" "opened" "" "false" "main"
       "bounties/XP_TRACKER.md" "") =
  ([], Raise (SystemExit "--token and --repo are required in API mode")).
Proof.
  apply missing_credentials_rejected; [ reflexivity | now right ].
Defined.

(** ** Strings *)

Lemma append_nil_r (s : string) : s ++ "" = s.
Proof. induction s as [ | c s IH]; cbn; [ reflexivity | now rewrite IH ]. Qed.

Lemma append_assoc (a b c : string) : (a ++ b) ++ c = a ++ b ++ c.
Proof. induction a as [ | x a IH]; cbn; [ reflexivity | now rewrite IH ]. Qed.

Lemma length_append (a b : string) :
  String.length (a ++ b) = (String.length a + String.length b)%nat.
Proof. induction a as [ | x a IH]; cbn; [ reflexivity | now rewrite IH ]. Qed.

Lemma rev_onto_append (s acc : string) :
  Py.rev_onto s acc = Py.rev s ++ acc.
Proof.
  unfold Py.rev. revert acc.
  induction s as [ | c s IH]; intros acc; cbn [Py.rev_onto]; [ reflexivity | ].
  rewrite IH, (IH (String c "")), append_assoc. reflexivity.
Qed.

Lemma rev_cons (c : ascii) (s : string) :
  Py.rev (String c s) = Py.rev s ++ String c "".
Proof. unfold Py.rev at 1. cbn [Py.rev_onto]. apply rev_onto_append. Qed.

Lemma rev_append (a b : string) : Py.rev (a ++ b) = Py.rev b ++ Py.rev a.
Proof.
  induction a as [ | c a IH]; cbn [String.append].
  - now rewrite append_nil_r.
  - now rewrite !rev_cons, IH, append_assoc.
Qed.

Lemma rev_involutive (s : string) : Py.rev (Py.rev s) = s.
Proof.
  induction s as [ | c s IH]; [ reflexivity | ].
  rewrite rev_cons, rev_append, IH. reflexivity.
Qed.

Lemma drop_while_snoc (p : ascii -> bool) (s : string) (c : ascii) :
  Py.drop_while p (s ++ String c "") =
  match Py.drop_while p s with
  | "" => if p c then "" else String c ""
  | r => r ++ String c ""
  end.
Proof.
  induction s as [ | a s IH]; cbn [String.append Py.drop_while];
    [ reflexivity | ].
  destruct (p a); [ exact IH | reflexivity ].
Qed.

(** [rstrip], read from the left. *)
Lemma rstrip_cons (c : ascii) (s : string) :
  Py.rstrip (String c s) =
  match Py.rstrip s with
  | "" => if Py.isspace c then "" else String c ""
  | r => String c r
  end.
Proof.
  unfold Py.rstrip. rewrite rev_cons, drop_while_snoc.
  destruct (Py.drop_while Py.isspace (Py.rev s)) as [ | a r] eqn:E.
  - destruct (Py.isspace c); reflexivity.
  - rewrite rev_append. change (Py.rev (String c "")) with (String c "").
    cbn [String.append].
    destruct (Py.rev (String a r)) eqn:R; [ | reflexivity ].
    apply (f_equal Py.rev) in R. rewrite rev_involutive in R. discriminate.
Qed.

Lemma rstrip_idempotent (s : string) : Py.rstrip (Py.rstrip s) = Py.rstrip s.
Proof.
  induction s as [ | c s IH]; [ reflexivity | ].
  rewrite rstrip_cons. destruct (Py.rstrip s) as [ | a r] eqn:E.
  - destruct (Py.isspace c) eqn:W; [ reflexivity | ].
    rewrite rstrip_cons. cbn. now rewrite W.
  - rewrite rstrip_cons, IH. reflexivity.
Qed.

Lemma drop_while_head (p : ascii -> bool) (s : string) (c : ascii)
    (r : string) :
  Py.drop_while p s = String c r -> p c = false.
Proof.
  induction s as [ | a s IH]; cbn [Py.drop_while]; [ discriminate | ].
  destruct (p a) eqn:E; [ exact IH | ].
  intros [= <- <-]. exact E.
Qed.

Lemma lstrip_rstrip (s : string) :
  Py.lstrip s = s -> Py.lstrip (Py.rstrip s) = Py.rstrip s.
Proof.
  destruct s as [ | c s]; [ reflexivity | ].
  intros L. apply drop_while_head in L.
  rewrite rstrip_cons. destruct (Py.rstrip s).
  - rewrite L. unfold Py.lstrip. cbn. now rewrite L.
  - unfold Py.lstrip. cbn. now rewrite L.
Qed.

Lemma lstrip_idempotent (s : string) : Py.lstrip (Py.lstrip s) = Py.lstrip s.
Proof.
  unfold Py.lstrip. induction s as [ | c s IH]; [ reflexivity | ].
  cbn [Py.drop_while]. destruct (Py.isspace c) eqn:E; [ exact IH | ].
  cbn [Py.drop_while]. now rewrite E.
Qed.

Lemma strip_fixed (s : string) :
  Py.strip (Py.strip s) = Py.strip s /\
  Py.lstrip (Py.strip s) = Py.strip s /\
  Py.rstrip (Py.strip s) = Py.strip s.
Proof.
  unfold Py.strip.
  pose proof (lstrip_rstrip _ (lstrip_idempotent s)) as L.
  rewrite L, !rstrip_idempotent. repeat split; auto.
Qed.

Lemma count_char_zero_split (c : ascii) (s : string) :
  count_char c s = 0%nat -> Py.split c s = [s].
Proof.
  induction s as [ | a s IH]; cbn [count_char Py.split]; [ reflexivity | ].
  destruct (Ascii.eqb a c); [ discriminate | ].
  intros H. now rewrite (IH H).
Qed.


Lemma split_pieces (c : ascii) (s piece : string) :
  In piece (Py.split c s) -> count_char c piece = 0%nat.
Proof.
  revert piece. induction s as [ | a s IH]; intros piece;
    cbn [Py.split].
  - intros [<- | []]. reflexivity.
  - destruct (Ascii.eqb a c) eqn:E.
    + intros [<- | I]; [ reflexivity | auto ].
    + destruct (Py.split c s) as [ | w ws]; intros [<- | I].
      * cbn. now rewrite E.
      * destruct I.
      * cbn [count_char]. rewrite E. apply IH. now left.
      * apply IH. now right.
Qed.

(** The cells of any line are stripped and hold no separator. *)
Theorem parse_table_cells_clean (line cell0 : string) :
  In cell0 (parse_table_cells line) -> is_cell cell0.
Proof.
  unfold parse_table_cells, inner. intros I.
  apply in_map_iff in I. destruct I as (piece & <- & I).
  assert (J : In piece (Py.split "|" (Py.strip line))).
  { destruct (Py.split "|" (Py.strip line)) as [ | x l]; [ destruct I | ].
    right. cbn [tl] in I.
    clear - I. induction l as [ | y l IH]; [ destruct I | ].
    cbn [removelast] in I. destruct l as [ | z l]; [ destruct I | ].
    destruct I as [<- | I]; [ now left | right; auto ]. }
  split.
  - apply strip_fixed.
  - rewrite count_char_strip by reflexivity. eapply split_pieces; eauto.
Qed.

Lemma parse_table_cells_clean_witness :
  is_cell "@amy".
Proof.
  apply (parse_table_cells_clean "  | 2 |  @amy | w2 | 120 |  " "@amy").
  vm_compute. right. left. reflexivity.
Defined.

(** ** Badge cells *)

Lemma all_chars_count (p : ascii -> bool) (s : string) (c : ascii) :
  all_chars p s = true -> p c = false -> count_char c s = 0%nat.
Proof.
  intros A H. induction s as [ | a s IH]; [ reflexivity | ].
  cbn [all_chars count_char] in *. apply andb_true_iff in A.
  destruct A as [Pa A]. destruct (Ascii.eqb_spec a c) as [-> | _];
    [ congruence | auto ].
Qed.

Lemma all_chars_append (p : ascii -> bool) (a b : string) :
  all_chars p (a ++ b) = all_chars p a && all_chars p b.
Proof.
  induction a as [ | c a IH]; cbn [String.append all_chars]; [ reflexivity | ].
  now rewrite IH, andb_assoc.
Qed.

Lemma hex_digit_safe (n : nat) : quote_safe (hex_digit n) = true.
Proof.
  unfold hex_digit.
  do 16 (destruct n as [ | n]; [ reflexivity | ]). reflexivity.
Qed.

Lemma quote_url_chars (s : string) : all_chars url_char (quote s) = true.
Proof.
  induction s as [ | c s IH]; [ reflexivity | ].
  cbn [quote]. rewrite all_chars_append, IH, andb_true_r.
  destruct (quote_safe c) eqn:E.
  - cbn. unfold url_char. now rewrite E.
  - assert (P : forall n, all_chars url_char (percent n) = true).
    { intros n. unfold percent. cbn [all_chars]. unfold url_char at 2 3.
      rewrite !hex_digit_safe. reflexivity. }
    destruct (_ <? 128)%nat; [ apply P | ].
    now rewrite all_chars_append, !P.
Qed.

Lemma all_chars_weaken (p q : ascii -> bool) (s : string) :
  (forall c, p c = true -> q c = true) ->
  all_chars p s = true -> all_chars q s = true.
Proof.
  intros W. induction s as [ | c s IH]; [ reflexivity | ].
  cbn [all_chars]. rewrite !andb_true_iff. intros [A B]. auto.
Qed.

Lemma style_of_chars (name : string) :
  let '(color, logo, logo_color) := style_of BADGE_STYLE name in
  all_chars address_char color = true /\
  all_chars address_char logo = true /\
  all_chars address_char logo_color = true.
Proof.
  unfold BADGE_STYLE. cbn [style_of].
  repeat match goal with
         | |- context [if (?k =? name)%string then _ else _] =>
             destruct (k =? name)%string; [ repeat split | ]
         end.
  repeat split.
Qed.

Lemma badge_url_chars (name : string) :
  all_chars address_char (badge_url name) = true.
Proof.
  unfold badge_url. pose proof (style_of_chars name) as S.
  destruct (style_of BADGE_STYLE name) as [[color logo] logo_color].
  destruct S as (A & B & C).
  assert (Q : all_chars address_char (quote name) = true).
  { eapply all_chars_weaken; [ | apply quote_url_chars ].
    intros c H. unfold address_char. now rewrite H. }
  rewrite !all_chars_append, A, B, C, Q. reflexivity.
Qed.

Lemma findall_outside_skip (s rest : string) :
  count_char "!" s = 0%nat ->
  findall_badges Outside (s ++ rest) = findall_badges Outside rest.
Proof.
  induction s as [ | c s IH]; cbn [count_char String.append findall_badges];
    [ reflexivity | ].
  destruct (Ascii.eqb c "!"); [ discriminate | exact IH ].
Qed.

Lemma findall_inside (name acc rest : string) :
  count_char "]" name = 0%nat ->
  findall_badges (Inside acc) (name ++ String "]" rest) =
  match Py.rev_onto name acc with
  | "" => findall_badges Outside rest
  | x => Py.rev x :: findall_badges Outside rest
  end.
Proof.
  revert acc. induction name as [ | c name IH]; intros acc;
    cbn [count_char String.append findall_badges Py.rev_onto].
  - intros _. cbn. destruct acc; reflexivity.
  - destruct (Ascii.eqb c "]"); [ discriminate | ]. intros H. now apply IH.
Qed.

Lemma findall_badge_md (name rest : string) :
  name <> "" -> count_char "]" name = 0%nat ->
  findall_badges Outside (badge_md name ++ rest) =
  name :: findall_badges Outside rest.
Proof.
  intros N C. unfold badge_md. rewrite !append_assoc.
  cbn [String.append findall_badges Ascii.eqb Bool.eqb].
  rewrite (findall_inside name "" _ C).
  fold (Py.rev name).
  destruct (Py.rev name) eqn:R.
  { apply (f_equal Py.rev) in R. rewrite rev_involutive in R.
    contradiction. }
  rewrite <- R, rev_involutive. f_equal.
  replace (String "(" (badge_url name ++ String ")" rest))
    with (("(" ++ badge_url name ++ ")") ++ rest)
    by (cbn [String.append]; now rewrite append_assoc).
  apply findall_outside_skip.
  rewrite !count_char_append. cbn [count_char Ascii.eqb Bool.eqb].
  rewrite (all_chars_count address_char _ _ (badge_url_chars name))
    by reflexivity.
  reflexivity.
Qed.

Lemma findall_format (names : list string) :
  (forall n, In n names -> n <> "" /\ count_char "]" n = 0%nat) ->
  findall_badges Outside (Py.join " " (map badge_md names)) = names.
Proof.
  unfold Py.join. induction names as [ | x names IH]; intros V;
    [ reflexivity | ].
  destruct (V x (or_introl eq_refl)) as [Nx Cx].
  destruct names as [ | y names].
  - cbn [map concat]. rewrite <- (append_nil_r (badge_md x)).
    now rewrite findall_badge_md.
  - cbn [map concat]. rewrite findall_badge_md by assumption. f_equal.
    change (" " ++ concat " " (badge_md y :: map badge_md names))
      with (String " " (concat " " (map badge_md (y :: names)))).
    cbn [findall_badges Ascii.eqb Bool.eqb]. apply IH.
    intros n I. apply V. now right.
Qed.

Lemma set_update_NoDup (acc xs : list string) :
  NoDup (acc ++ xs) -> set_update acc xs = (acc ++ xs)%list.
Proof.
  unfold set_update. revert acc.
  induction xs as [ | x xs IH]; intros acc N; cbn [fold_left].
  - now rewrite app_nil_r.
  - assert (M : mem x acc = false).
    { destruct (mem x acc) eqn:E; [ | reflexivity ].
      apply mem_In in E. apply NoDup_remove_2 in N. exfalso. apply N.
      apply in_app_iff. now left. }
    unfold set_add. rewrite M. unfold append.
    rewrite IH; rewrite <- app_assoc; [ reflexivity | exact N ].
Qed.

(** Decoding a rendered badge cell gives the badges back, in sorted
    order: the set is the same. *)
Theorem badges_round_trip (names : list string) :
  NoDup names ->
  (forall n, In n names -> n <> "" /\ count_char "]" n = 0%nat) ->
  parse_badges (format_badges names) = sort_by String.ltb names /\
  Permutation (parse_badges (format_badges names)) names.
Proof.
  intros N V.
  assert (E : parse_badges (format_badges names) = sort_by String.ltb names).
  { destruct names as [ | x names]; [ reflexivity | ].
    unfold format_badges, parse_badges.
    set (ordered := sort_by String.ltb (x :: names)).
    assert (P : Permutation ordered (x :: names)) by apply sort_by_perm.
    rewrite findall_format.
    2:{ intros n I. apply V. eapply Permutation_in; eauto. }
    unfold set_of_list. rewrite set_update_NoDup.
    2:{ cbn [app]. eapply Permutation_NoDup; [ symmetry; exact P | exact N ]. }
    cbn [app]. destruct ordered; [ | reflexivity ].
    apply Permutation_nil in P. discriminate. }
  split; [ exact E | ]. rewrite E. apply sort_by_perm.
Qed.

Lemma badges_round_trip_witness :
  parse_badges (format_badges ["Rising Hunter"; "First Blood"])
  = ["First Blood"; "Rising Hunter"].
Proof.
  destruct (badges_round_trip ["Rising Hunter"; "First Blood"]) as [E _].
  - repeat constructor; cbn; intuition discriminate.
  - intros n [<- | [<- | []]]; split; (discriminate || reflexivity).
  - rewrite E. reflexivity.
Defined.

(** ** Round trip of a table line *)



















Section RoundTrip.
Variable int_float : string -> option Z.


End RoundTrip.



(** ** Labels and addresses *)

Lemma lower_char_facts (c : ascii) :
  Py.lower_char (Py.lower_char c) = Py.lower_char c /\
  Py.isspace (Py.lower_char c) = Py.isspace c /\
  Ascii.eqb (Py.lower_char c) "," = Ascii.eqb c ",".
Proof.
  destruct c as [[ | ] [ | ] [ | ] [ | ] [ | ] [ | ] [ | ] [ | ]];
    vm_compute; repeat split.
Qed.

Lemma lower_idempotent (s : string) : Py.lower (Py.lower s) = Py.lower s.
Proof.
  induction s as [ | c s IH]; [ reflexivity | ].
  cbn [Py.lower]. rewrite IH. f_equal. apply lower_char_facts.
Qed.

Lemma lower_append (a b : string) :
  Py.lower (a ++ b) = Py.lower a ++ Py.lower b.
Proof.
  induction a as [ | c a IH]; [ reflexivity | ].
  cbn [String.append Py.lower]. now rewrite IH.
Qed.

Lemma lower_rev (s : string) : Py.lower (Py.rev s) = Py.rev (Py.lower s).
Proof.
  induction s as [ | c s IH]; [ reflexivity | ].
  cbn [Py.lower]. rewrite !rev_cons, lower_append, IH. reflexivity.
Qed.

Lemma lower_lstrip (s : string) :
  Py.lstrip (Py.lower s) = Py.lower (Py.lstrip s).
Proof.
  unfold Py.lstrip. induction s as [ | c s IH]; [ reflexivity | ].
  cbn [Py.lower Py.drop_while].
  destruct (lower_char_facts c) as (_ & W & _). rewrite W.
  destruct (Py.isspace c); [ exact IH | reflexivity ].
Qed.

Lemma lower_strip (s : string) : Py.strip (Py.lower s) = Py.lower (Py.strip s).
Proof.
  unfold Py.strip, Py.rstrip. rewrite lower_lstrip.
  rewrite <- lower_rev. fold (Py.lstrip (Py.lower (Py.rev (Py.lstrip s)))).
  rewrite lower_lstrip. unfold Py.lstrip. now rewrite lower_rev.
Qed.

Lemma count_comma_lower (s : string) :
  count_char "," (Py.lower s) = count_char "," s.
Proof.
  induction s as [ | c s IH]; [ reflexivity | ].
  cbn [Py.lower count_char].
  destruct (lower_char_facts c) as (_ & _ & E). rewrite E, IH. reflexivity.
Qed.

Lemma parse_labels_fold (tokens acc : list string) (x : string) :
  let labels :=
    fold_left
      (fun labels token =>
         let token := Py.lower (Py.strip token) in
         if (token =? "")%string then labels else set_add token labels)
      tokens acc in
  (NoDup acc -> NoDup labels) /\
  (In x labels <->
   In x acc \/
   (x <> "" /\ exists token, In token tokens /\
                             x = Py.lower (Py.strip token))).
Proof.
  cbn zeta. revert acc.
  induction tokens as [ | t tokens IH]; intros acc; cbn [fold_left].
  - split; [ auto | ]. split; [ now left | ].
    intros [I | (_ & token & [] & _)]. exact I.
  - set (t' := Py.lower (Py.strip t)).
    destruct (String.eqb_spec t' "") as [E | E].
    + destruct (IH acc) as [N M]. split; [ exact N | ].
      rewrite M. split.
      * intros [I | (Nx & token & I & Ex)]; [ now left | ].
        right. split; [ exact Nx | ]. exists token. split; [ now right | exact Ex ].
      * intros [I | (Nx & token & [<- | I] & Ex)]; [ now left | | ].
        -- exfalso. apply Nx. rewrite Ex. exact E.
        -- right. split; [ exact Nx | ]. eauto.
    + destruct (IH (set_add t' acc)) as [N M]. split.
      * intros Na. apply N. now apply NoDup_set_add.
      * rewrite M. rewrite <- !mem_In, mem_set_add, orb_true_iff, !mem_In.
        rewrite String.eqb_eq. split.
        -- intros [[I | ->] | (Nx & token & I & Ex)].
           ++ now left.
           ++ right. split; [ exact E | ]. exists t. split; [ now left | reflexivity ].
           ++ right. split; [ exact Nx | ]. exists token. split; [ now right | exact Ex ].
        -- intros [I | (Nx & token & [<- | I] & Ex)].
           ++ left. now left.
           ++ left. right. exact Ex.
           ++ right. split; [ exact Nx | ]. eauto.
Qed.

(** The labels [parse_labels] returns are the distinct non-empty tokens
    of the comma-separated text, each trimmed and lower-cased: a label
    is already trimmed and lower-case and holds no comma. *)
Theorem parse_labels_normalized (raw x : string) :
  NoDup (parse_labels raw) /\
  (In x (parse_labels raw) <->
   x <> "" /\
   exists token, In token (Py.split "," raw) /\
                 x = Py.lower (Py.strip token)) /\
  (In x (parse_labels raw) ->
   Py.lower x = x /\ Py.strip x = x /\ count_char "," x = 0%nat).
Proof.
  destruct (parse_labels_fold (Py.split "," raw) [] x) as [N M].
  cbn zeta in *. fold (parse_labels raw) in N, M.
  assert (C : In x (parse_labels raw) <->
              x <> "" /\
              exists token, In token (Py.split "," raw) /\
                            x = Py.lower (Py.strip token)).
  { rewrite M. split; [ intros [[] | H]; exact H | now right ]. }
  split; [ apply N; constructor | ]. split; [ exact C | ].
  intros I. apply C in I. destruct I as (_ & token & I & ->).
  split; [ apply lower_idempotent | ]. split.
  - rewrite lower_strip. f_equal. apply strip_fixed.
  - rewrite count_comma_lower, count_char_strip by reflexivity.
    eapply split_pieces; eauto.
Qed.

Lemma parse_labels_normalized_witness :
  Py.lower "docs" = "docs" /\ Py.strip "docs" = "docs".
Proof.
  destruct (parse_labels_normalized " Docs ,bug,,DOCS" "docs")
    as (_ & _ & H).
  destruct H as (A & B & _); [ | split; assumption ].
  vm_compute. left. reflexivity.
Defined.

Lemma quote_safe_fixed (s : string) :
  all_chars quote_safe s = true -> quote s = s.
Proof.
  induction s as [ | c s IH]; [ reflexivity | ].
  cbn [all_chars quote]. rewrite andb_true_iff. intros [A B].
  rewrite A, (IH B). reflexivity.
Qed.

(** [quote] writes only letters, digits, [_.-~/] and percent signs, so
    its output holds no space, no bracket and no separator; text made of
    the safe characters passes unchanged. *)
Theorem quote_output_safe (s : string) (c : ascii) :
  all_chars url_char (quote s) = true /\
  (url_char c = false -> count_char c (quote s) = 0%nat) /\
  (all_chars quote_safe s = true -> quote s = s).
Proof.
  split; [ apply quote_url_chars | ]. split.
  - intros H. eapply all_chars_count; [ apply quote_url_chars | exact H ].
  - apply quote_safe_fixed.
Qed.

Lemma quote_output_safe_witness :
  count_char " " (quote "First Blood") = 0%nat /\ quote "v1.0/a_b" = "v1.0/a_b".
Proof.
  destruct (quote_output_safe "First Blood" " ") as (_ & A & _).
  destruct (quote_output_safe "v1.0/a_b" " ") as (_ & _ & B).
  split; [ apply A | apply B ]; reflexivity.
Defined.

(** ** Searching a text *)

Lemma prefix_append (sub rest : string) : prefix sub (sub ++ rest) = true.
Proof.
  induction sub as [ | c sub IH]; cbn [String.append prefix].
  - now destruct rest.
  - destruct (ascii_dec c c); [ exact IH | congruence ].
Qed.

Lemma prefix_app_long (sub a b : string) :
  (String.length sub <= String.length a)%nat ->
  prefix sub (a ++ b) = prefix sub a.
Proof.
  revert a. induction sub as [ | c sub IH]; intros a L.
  - cbn. destruct a, b; reflexivity || (cbn; now destruct (a ++ String _ _)) || idtac.
    all: cbn; reflexivity.
  - destruct a as [ | x a]; [ cbn in L; lia | ].
    cbn [String.append prefix]. destruct (ascii_dec c x); [ | reflexivity ].
    apply IH. cbn in L. lia.
Qed.

Lemma find_from_ge (sub s : string) (k n : nat) :
  Py.find_from k sub s = Some n -> (k <= n)%nat.
Proof.
  revert k. induction s as [ | c s IH]; intros k; cbn [Py.find_from].
  - destruct (prefix sub ""); [ intros [= <-]; lia | discriminate ].
  - destruct (prefix sub (String c s)); [ intros [= <-]; lia | ].
    intros H. apply IH in H. lia.
Qed.

Lemma find_from_skip (sub p q : string) (k : nat) :
  first_at sub p q ->
  Py.find_from k sub (p ++ q) = Py.find_from (k + String.length p) sub q.
Proof.
  revert k. induction p as [ | c p IH]; intros k F.
  - cbn. f_equal. lia.
  - cbn [String.append]. 
    assert (H : prefix sub (String c p ++ q) = false).
    { apply (F "" (String c p)); [ reflexivity | discriminate ]. }
    cbn [String.append] in H.
    replace (Py.find_from k sub (String c (p ++ q)))
      with (Py.find_from (S k) sub (p ++ q)).
    2:{ cbn [Py.find_from]. now rewrite H. }
    rewrite IH.
    + f_equal. cbn [String.length]. lia.
    + intros p1 p2 E N. apply (F (String c p1) p2); [ | exact N ].
      cbn [String.append]. now rewrite E.
Qed.

Lemma find_first_at (sub p : string) (k : nat) :
  Py.find_from k sub (p ++ sub) = Some (k + String.length p)%nat ->
  first_at sub p sub.
Proof.
  revert k. induction p as [ | c p IH]; intros k H p1 p2 E N.
  - destruct p1, p2; cbn in E; congruence.
  - cbn [String.append Py.find_from String.length] in H.
    destruct (prefix sub (String c (p ++ sub))) eqn:P.
    { injection H as H. lia. }
    destruct p1 as [ | x p1]; cbn [String.append] in E.
    + subst p2. exact P.
    + injection E as -> E. apply (IH (S k)) with (p1 := p1); auto.
      rewrite H. f_equal. lia.
Qed.

Lemma first_at_extend (sub p rest : string) :
  first_at sub p sub -> first_at sub p (sub ++ rest).
Proof.
  intros F p1 p2 E N. rewrite <- append_assoc, prefix_app_long.
  - now apply (F p1 p2).
  - rewrite length_append. lia.
Qed.

Lemma substring_all (s : string) : substring 0 (String.length s) s = s.
Proof. induction s as [ | c s IH]; cbn; [ reflexivity | now rewrite IH ]. Qed.

Lemma substring_skip (a b : string) (m : nat) :
  substring (String.length a) m (a ++ b) = substring 0 m b.
Proof. induction a as [ | c a IH]; cbn; [ reflexivity | exact IH ]. Qed.

Lemma substring_take (a b : string) :
  substring 0 (String.length a) (a ++ b) = a.
Proof.
  induction a as [ | c a IH]; cbn; [ now destruct b | now rewrite IH ].
Qed.

Lemma slice_split (a b : string) :
  Py.slice_to (String.length a) (a ++ b) = a /\
  Py.slice_from (String.length a) (a ++ b) = b.
Proof.
  unfold Py.slice_to, Py.slice_from. split; [ apply substring_take | ].
  rewrite substring_skip, length_append.
  replace (String.length a + String.length b - String.length a)%nat
    with (String.length b) by lia.
  apply substring_all.
Qed.

Lemma find_from_hit (sub s : string) (k : nat) :
  prefix sub s = true -> Py.find_from k sub s = Some k.
Proof. intros H. destruct s; cbn [Py.find_from]; now rewrite H. Qed.

Lemma find_occurrence (sub p rest : string) :
  Py.find sub (p ++ sub) = Some (String.length p) ->
  forall k, Py.find_from k sub (p ++ sub ++ rest)
            = Some (k + String.length p)%nat.
Proof.
  intros H k. rewrite find_from_skip.
  - apply find_from_hit, prefix_append.
  - apply first_at_extend, (find_first_at sub p 0). exact H.
Qed.

(** ** The award log *)

(** When the log heading is present, the award line is written right
    after the first blank line that follows the first heading, before
    whatever was there: everything else of the document is kept as it
    was, and of two successive awards the later one comes first. *)
Theorem award_log_newest_first (pre mid post older newer : string) :
  Py.find AWARDS_HEADING (pre ++ AWARDS_HEADING) = Some (String.length pre) ->
  Py.find (LF ++ LF) ((AWARDS_HEADING ++ mid) ++ LF ++ LF)
    = Some (String.length (AWARDS_HEADING ++ mid)) ->
  let body := pre ++ AWARDS_HEADING ++ mid ++ LF ++ LF ++ post in
  insert_award body older
    = pre ++ AWARDS_HEADING ++ mid ++ LF ++ LF ++ older ++ LF ++ post /\
  insert_award (insert_award body older) newer
    = pre ++ AWARDS_HEADING ++ mid ++ LF ++ LF
      ++ newer ++ LF ++ older ++ LF ++ post.
Proof.
  intros Hh Hb.
  assert (Step : forall tail line,
    insert_award (pre ++ AWARDS_HEADING ++ mid ++ LF ++ LF ++ tail) line
    = pre ++ AWARDS_HEADING ++ mid ++ LF ++ LF ++ line ++ LF ++ tail).
  { intros tail line. unfold insert_award.
    fold AWARDS_HEADING.
    unfold Py.find at 1.
    rewrite (find_occurrence AWARDS_HEADING pre _ Hh 0).
    cbn [Nat.add]. unfold Py.find_at.
    rewrite substring_skip.
    replace (String.length (pre ++ AWARDS_HEADING ++ mid ++ LF ++ LF ++ tail)
             - String.length pre)%nat
      with (String.length (AWARDS_HEADING ++ mid ++ LF ++ LF ++ tail))
      by (rewrite (length_append pre); lia).
    rewrite substring_all.
    replace (AWARDS_HEADING ++ mid ++ LF ++ LF ++ tail)
      with ((AWARDS_HEADING ++ mid) ++ (LF ++ LF) ++ tail)
      by (now rewrite !append_assoc).
    rewrite (find_occurrence (LF ++ LF) (AWARDS_HEADING ++ mid) tail Hb).
    replace (pre ++ (AWARDS_HEADING ++ mid) ++ (LF ++ LF) ++ tail)
      with ((pre ++ AWARDS_HEADING ++ mid ++ LF ++ LF) ++ tail)
      by (now rewrite !append_assoc).
    replace (String.length pre + String.length (AWARDS_HEADING ++ mid) + 2)%nat
      with (String.length (pre ++ AWARDS_HEADING ++ mid ++ LF ++ LF)).
    2:{ rewrite !length_append. cbn [String.length LF]. lia. }
    destruct (slice_split (pre ++ AWARDS_HEADING ++ mid ++ LF ++ LF) tail)
      as [-> ->].
    now rewrite !append_assoc. }
  cbv zeta. split.
  - apply Step.
  - rewrite Step. apply (Step (older ++ LF ++ post) newer).
Qed.

Lemma award_log_newest_first_witness :
  insert_award (insert_award
    ("# XP" ++ LF ++ AWARDS_HEADING ++ "" ++ LF ++ LF ++ "- old") "- a") "- b"
  = "# XP" ++ LF ++ AWARDS_HEADING ++ "" ++ LF ++ LF
    ++ "- b" ++ LF ++ "- a" ++ LF ++ "- old".
Proof.
  refine (proj2 (award_log_newest_first ("# XP" ++ LF) "" "- old" "- a" "- b"
                   _ _)); reflexivity.
Defined.

(** ** Front matter *)

Lemma isdigit_not_space (c : ascii) :
  Py.isdigit c = true -> Py.isspace c = false.
Proof.
  unfold Py.isdigit, Py.isspace. cbv zeta. intros H.
  apply andb_prop in H as [A B].
  apply Nat.leb_le in A. apply Nat.leb_le in B.
  repeat match goal with
  | |- context [ (?a <=? ?b)%nat ] =>
      destruct (Nat.leb_spec a b)
  | |- context [ (?a =? ?b)%nat ] =>
      destruct (Nat.eqb_spec a b)
  end; cbn; try reflexivity; lia.
Qed.

Lemma drop_while_all (p : ascii -> bool) (ws t : string) :
  all_chars p ws = true ->
  Py.drop_while p (ws ++ t) = Py.drop_while p t.
Proof.
  induction ws as [ | c ws IH]; cbn; [ reflexivity | ].
  intros H. apply andb_prop in H as [-> H]. now apply IH.
Qed.

Lemma match_last_updated_date (ws rest : string)
    (y1 y2 y3 y4 m1 m2 d1 d2 : ascii) :
  all_chars Py.isspace ws = true ->
  all_digits [y1; y2; y3; y4; m1; m2; d1; d2] = true ->
  match_last_updated
    ("last_updated:" ++ ws ++ iso_date y1 y2 y3 y4 m1 m2 d1 d2 ++ rest)
  = Some rest.
Proof.
  intros W D. unfold match_last_updated, Py.startswith.
  rewrite prefix_append.
  replace (Py.slice_from 13 ("last_updated:" ++ ws
             ++ iso_date y1 y2 y3 y4 m1 m2 d1 d2 ++ rest))
    with (ws ++ iso_date y1 y2 y3 y4 m1 m2 d1 d2 ++ rest)
    by (symmetry; exact (proj2 (slice_split "last_updated:" _))).
  rewrite (drop_while_all _ _ _ W).
  unfold iso_date. cbn [String.append Py.drop_while].
  assert (S1 : Py.isspace y1 = false).
  { apply isdigit_not_space. unfold all_digits in D. cbn [forallb] in D.
    now apply andb_prop in D as [D _]. }
  rewrite S1, D. reflexivity.
Qed.

Lemma update_frontmatter_skip (today pre q r : string) :
  first_at "last_updated:" pre q ->
  match_last_updated q = Some r ->
  update_frontmatter today (pre ++ q)
  = pre ++ "last_updated: " ++ today ++ r.
Proof.
  intros F M. induction pre as [ | c pre IH].
  - cbn [String.append]. destruct q; cbn [update_frontmatter]; now rewrite M.
  - change (String c pre ++ q) with (String c (pre ++ q)).
    cbn [update_frontmatter].
    assert (N : match_last_updated (String c (pre ++ q)) = None).
    { unfold match_last_updated, Py.startswith.
      assert (P : prefix "last_updated:" (String c pre ++ q) = false)
        by (apply (F "" (String c pre)); [ reflexivity | discriminate ]).
      cbn [String.append] in P. now rewrite P. }
    rewrite N, IH; [ reflexivity | ].
    intros p1 p2 E E'. apply (F (String c p1) p2); [ | exact E' ].
    cbn [String.append]. now rewrite E.
Qed.

Lemma update_frontmatter_none (today md : string) (k : nat) :
  Py.find_from k "last_updated:" md = None ->
  update_frontmatter today md = md.
Proof.
  revert k. induction md as [ | c md IH]; intros k H.
  - reflexivity.
  - cbn [Py.find_from] in H. cbn [update_frontmatter].
    unfold match_last_updated, Py.startswith.
    destruct (prefix "last_updated:" (String c md)); [ discriminate | ].
    now rewrite (IH (S k) H).
Qed.

(** The date of the first [last_updated:] label is replaced by today's,
    the white space between label and date becoming one blank, and the
    text before and after it is kept, later labels included; a document
    without the label is returned as it is. *)
Theorem frontmatter_first_date_replaced (today pre ws rest : string)
    (y1 y2 y3 y4 m1 m2 d1 d2 : ascii) :
  Py.find "last_updated:" (pre ++ "last_updated:")
    = Some (String.length pre) ->
  all_chars Py.isspace ws = true ->
  all_digits [y1; y2; y3; y4; m1; m2; d1; d2] = true ->
  update_frontmatter today
    (pre ++ "last_updated:" ++ ws ++ iso_date y1 y2 y3 y4 m1 m2 d1 d2 ++ rest)
  = pre ++ "last_updated: " ++ today ++ rest.
Proof.
  intros F W D. apply update_frontmatter_skip.
  - apply first_at_extend, (find_first_at _ pre 0). exact F.
  - now apply match_last_updated_date.
Qed.

Lemma frontmatter_first_date_replaced_witness :
  update_frontmatter "2026-03-01"
    ("---" ++ LF ++ "last_updated:" ++ "  "
     ++ iso_date "2" "0" "2" "5" "1" "2" "3" "1"
     ++ LF ++ "last_updated: 2000-01-01")
  = "---" ++ LF ++ "last_updated: " ++ "2026-03-01"
    ++ LF ++ "last_updated: 2000-01-01".
Proof.
  apply (frontmatter_first_date_replaced "2026-03-01" ("---" ++ LF) "  ");
    reflexivity.
Defined.

(** A document that holds no [last_updated:] label comes back from the
    front-matter update character for character. *)
Theorem frontmatter_without_label_unchanged (today md : string) :
  Py.contains "last_updated:" md = false ->
  update_frontmatter today md = md.
Proof.
  unfold Py.contains, Py.find. intros H.
  destruct (Py.find_from 0 "last_updated:" md) eqn:E; [ discriminate | ].
  exact (update_frontmatter_none today md 0 E).
Qed.

Lemma frontmatter_without_label_unchanged_witness :
  update_frontmatter "2026-03-01" "# Ledger" = "# Ledger".
Proof.
  apply (frontmatter_without_label_unchanged "2026-03-01" "# Ledger").
  reflexivity.
Defined.

(** ** The award line in the document *)

Lemma rstrip_app (a b : string) :
  Py.rstrip (a ++ b) =
  match Py.rstrip b with
  | "" => Py.rstrip a
  | r => a ++ r
  end.
Proof.
  induction a as [ | c a IH].
  - cbn [String.append]. now destruct (Py.rstrip b).
  - cbn [String.append]. rewrite rstrip_cons, IH.
    destruct (Py.rstrip b) as [ | x r].
    + now rewrite <- rstrip_cons.
    + now destruct a.
Qed.

Lemma solid_end_rstrip (s : string) :
  solid_end s = true -> exists c r, Py.rstrip s = String c r /\ Py.rstrip s = s.
Proof.
  unfold solid_end, Py.rstrip. intros H.
  destruct (Py.rev s) as [ | c r] eqn:E; [ discriminate | ].
  apply negb_true_iff in H. cbn [Py.drop_while]. rewrite H, <- E.
  rewrite rev_involutive. destruct s as [ | x s]; [ discriminate | ].
  now exists x, s.
Qed.

Lemma solid_end_app (a b : string) :
  solid_end b = true -> solid_end (a ++ b) = true.
Proof.
  unfold solid_end. rewrite rev_append.
  destruct (Py.rev b); [ discriminate | ]. now cbn [String.append].
Qed.

Lemma solid_end_join (sep x : string) (l : list string) :
  (forall n, In n (x :: l) -> solid_end n = true) ->
  solid_end (Py.join sep (x :: l)) = true.
Proof.
  unfold Py.join. revert x. induction l as [ | y l IH]; intros x H.
  - cbn. apply H. now left.
  - cbn [concat]. do 2 apply solid_end_app. apply IH.
    intros n I. apply H. now right.
Qed.

Lemma solid_end_award_line (stamp actor : string) (gained_xp : Z)
    (reason : string) (aw : awarded) :
  (forall n, In n (aw_unlocked aw) -> solid_end n = true) ->
  solid_end (award_line_of stamp actor gained_xp reason aw) = true.
Proof.
  intros H. unfold award_line_of. cbv zeta.
  destruct (aw_unlocked aw) as [ | u us].
  - repeat apply solid_end_app. reflexivity.
  - rewrite !append_assoc. repeat apply solid_end_app.
    now apply solid_end_join.
Qed.

Lemma unlocked_solid_end (existing : list string) (old_xp new_xp : Z)
    (labels : list string) (actor n : string) :
  In n (determine_new_badges existing old_xp new_xp labels actor) ->
  solid_end n = true.
Proof.
  rewrite determine_new_badges_rules. intros I.
  apply run_rules_sound in I. destruct I as [[] | [I _]].
  unfold badge_rules in I. cbn [In] in I.
  repeat (destruct I as [I | I]; [ injection I as <- _; reflexivity | ]).
  destruct I.
Qed.

Lemma insert_award_shape (md line : string) :
  exists a b, insert_award md line = a ++ line ++ LF ++ b.
Proof.
  unfold insert_award.
  destruct (Py.find "## Latest Awards" md) as [idx | ].
  - destruct (Py.find_at (LF ++ LF) md idx) as [insert | ].
    + now eexists _, _.
    + exists (md ++ LF ++ LF), "". now rewrite !append_assoc, append_nil_r.
  - exists (md ++ LF ++ LF ++ "## Latest Awards" ++ LF ++ LF), "".
    now rewrite !append_assoc, append_nil_r.
Qed.

Lemma rstrip_keeps_line (a line b : string) :
  solid_end line = true ->
  exists rest, Py.rstrip (a ++ line ++ LF ++ b) ++ LF
               = a ++ line ++ LF ++ rest.
Proof.
  intros H. destruct (solid_end_rstrip line H) as (c & r & E & Fx).
  assert (T : exists t, Py.rstrip (line ++ LF ++ b) ++ LF
                        = line ++ LF ++ t).
  { rewrite rstrip_app.
    destruct (Py.rstrip (LF ++ b)) as [ | x u] eqn:R.
    - rewrite Fx. now exists "".
    - unfold LF in R. cbn [String.append] in R. rewrite rstrip_cons in R.
      destruct (Py.rstrip b) as [ | y v]; [ discriminate | ].
      injection R as <- <-. exists (String y v ++ LF).
      unfold LF. cbn [String.append]. now rewrite !append_assoc. }
  destruct T as [t T]. exists t.
  rewrite rstrip_app.
  destruct (Py.rstrip (line ++ LF ++ b)) as [ | x u] eqn:R.
  - exfalso. rewrite rstrip_app in R.
    destruct (Py.rstrip (LF ++ b)).
    + congruence.
    + destruct line; [ discriminate E | discriminate R ].
  - now rewrite append_assoc, T.
Qed.

(** Whatever the document, a successful update writes the award line of
    the values it returns, followed by a line feed: trimming the end of
    the document never cuts the line. *)
Theorem award_line_recorded (int_float : string -> option Z)
    (stamp md actor : string) (gained_xp : Z) (reason : string)
    (labels : list string)
    (out : string) (total lvl : Z) (ttl : string) (unlocked : list string) :
  update_table_in_md int_float stamp md actor gained_xp reason labels
  = Ok (out, total, lvl, ttl, unlocked) ->
  exists aw before after,
    (aw_total aw, aw_level aw, aw_title aw, aw_unlocked aw)
    = (total, lvl, ttl, unlocked) /\
    out = before ++ award_line_of stamp actor gained_xp reason aw
          ++ LF ++ after.
Proof.
  unfold update_table_in_md, update_lines. intros H.
  destruct (updated_ledger int_float stamp (Py.splitlines md) actor
              gained_xp reason labels) as [[[start stop] aw] | e] eqn:U;
    [ | discriminate ].
  injection H as <- <- <- <- <-.
  exists aw.
  apply updated_ledger_ok in U. destruct U as [_ ->].
  set (parsed := parse_rows int_float _).
  destruct (apply_award_shape stamp parsed actor gained_xp reason labels)
    as (bf & old & af & _ & Sh).
  cbv zeta in Sh. destruct Sh as (_ & _ & _ & _ & _ & Un).
  set (aw := apply_award stamp parsed actor gained_xp reason labels) in *.
  assert (So : solid_end (award_line_of stamp actor gained_xp reason aw)
               = true).
  { apply solid_end_award_line. intros n I. rewrite Un in I.
    eapply unlocked_solid_end; eauto. }
  unfold serialize. cbv zeta.
  match goal with
  | |- context [ insert_award ?m ?l ] =>
      destruct (insert_award_shape m l) as (a & b & ->)
  end.
  destruct (rstrip_keeps_line a _ b So) as [rest ->].
  now exists a, rest.
Qed.

Lemma award_line_recorded_witness :
  exists out total lvl ttl unlocked,
    update_table_in_md int_float_digits example_stamp stale_ledger
      "Bob" 600 "bounty approved" []
    = Ok (out, total, lvl, ttl, unlocked) /\
    exists aw before after,
      (aw_total aw, aw_level aw, aw_title aw, aw_unlocked aw)
      = (total, lvl, ttl, unlocked) /\
      out = before ++ award_line_of example_stamp "Bob" 600
                        "bounty approved" aw ++ LF ++ after.
Proof.
  assert (U : exists out total lvl ttl unlocked,
             update_table_in_md int_float_digits example_stamp stale_ledger
               "Bob" 600 "bounty approved" []
             = Ok (out, total, lvl, ttl, unlocked)).
  { vm_compute. do 5 eexists. reflexivity. }
  destruct U as (out & total & lvl & ttl & unlocked & U).
  exists out, total, lvl, ttl, unlocked. split; [ exact U | ].
  exact (award_line_recorded _ _ _ _ _ _ _ _ _ _ _ _ U).
Defined.

(** ** The document written is a ledger again *)

Lemma append_eq_append (a b c d : string) :
  a ++ b = c ++ d ->
  (exists m, c = a ++ m /\ b = m ++ d) \/
  (exists m, a = c ++ m /\ d = m ++ b).
Proof.
  revert c. induction a as [ | x a IH]; intros c E.
  - left. exists c. split; [ reflexivity | exact E ].
  - destruct c as [ | y c].
    + right. exists (String x a). split; [ reflexivity | symmetry; exact E ].
    + cbn [String.append] in E. injection E as -> E.
      destruct (IH c E) as [(m & -> & ->) | (m & -> & ->)].
      * left. now exists m.
      * right. now exists m.
Qed.

Lemma ends_lf_app (x y : string) :
  ends_lf (x ++ y) = match y with "" => ends_lf x | _ => ends_lf y end.
Proof.
  induction x as [ | c x IH].
  - cbn. now destruct y.
  - cbn [String.append]. destruct y as [ | d y].
    + now rewrite append_nil_r.
    + cbn [ends_lf]. destruct x as [ | e x]; cbn [String.append] in *.
      * reflexivity.
      * exact IH.
Qed.

Lemma starts_lf_app (x y : string) :
  starts_lf (x ++ y) = match x with "" => starts_lf y | _ => starts_lf x end.
Proof. now destruct x. Qed.

Lemma prefix_split (a t : string) :
  prefix a t = true -> exists q, t = a ++ q.
Proof.
  revert t. induction a as [ | x a IH]; intros t H.
  - now exists t.
  - destruct t as [ | y t]; [ discriminate | ].
    cbn [prefix] in H. destruct (ascii_dec x y) as [-> | ]; [ | discriminate ].
    destruct (IH t H) as [q ->]. now exists q.
Qed.

Lemma find_from_sound (sub s : string) (k n : nat) :
  Py.find_from k sub s = Some n ->
  exists p q, s = p ++ sub ++ q /\ n = (k + String.length p)%nat.
Proof.
  revert k. induction s as [ | c s IH]; intros k; cbn [Py.find_from].
  - destruct (prefix sub "") eqn:P; [ | discriminate ].
    intros [= <-]. destruct (prefix_split _ _ P) as [q E].
    exists "", q. split; [ exact E | cbn; lia ].
  - destruct (prefix sub (String c s)) eqn:P.
    + intros [= <-]. destruct (prefix_split _ _ P) as [q E].
      exists "", q. split; [ exact E | cbn; lia ].
    + intros H. destruct (IH _ H) as (p & q & -> & ->).
      exists (String c p), q. split; [ reflexivity | cbn; lia ].
Qed.

Lemma substring_cut (s : string) (n : nat) :
  (n <= String.length s)%nat ->
  exists a, s = a ++ substring n (String.length s - n) s
            /\ String.length a = n.
Proof.
  revert n. induction s as [ | c s IH]; intros n L.
  - cbn in L. assert (n = 0)%nat as -> by lia. now exists "".
  - destruct n as [ | n].
    + exists "". split; [ | reflexivity ].
      cbn [String.append]. rewrite Nat.sub_0_r. now rewrite substring_all.
    + cbn in L. destruct (IH n ltac:(lia)) as (a & E & La).
      exists (String c a). split; [ | cbn; now rewrite La ].
      cbn. now rewrite <- E.
Qed.

Lemma find_at_sound (sub s : string) (start n : nat) :
  sub <> "" ->
  Py.find_at sub s start = Some n ->
  exists p q, s = p ++ sub ++ q /\ n = String.length p.
Proof.
  unfold Py.find_at. intros Ne H.
  destruct (Nat.le_gt_cases start (String.length s)) as [L | G].
  - destruct (substring_cut s start L) as (a & E & La).
    destruct (find_from_sound _ _ _ _ H) as (p & q & E' & ->).
    exists (a ++ p), q. split.
    + rewrite E at 1. rewrite E'. now rewrite append_assoc.
    + rewrite length_append. lia.
  - replace (String.length s - start)%nat with 0%nat in H by lia.
    assert (Z0 : forall t m, substring m 0 t = "").
    { induction t as [ | c t IH]; intros [ | m]; cbn; auto. }
    rewrite Z0 in H. cbn [Py.find_from] in H.
    destruct sub; [ congruence | cbn in H; discriminate ].
Qed.

Lemma insert_award_cases (md line : string) :
  (exists tail, starts_lf tail = true /\ tail <> ""
                /\ insert_award md line = md ++ tail) \/
  (exists p q, md = p ++ (LF ++ LF) ++ q /\
               insert_award md line = p ++ (LF ++ LF) ++ line ++ LF ++ q).
Proof.
  unfold insert_award.
  destruct (Py.find "## Latest Awards" md) as [idx | ].
  - destruct (Py.find_at (LF ++ LF) md idx) as [insert | ] eqn:F.
    + right. destruct (find_at_sound (LF ++ LF) _ _ _ ltac:(discriminate) F)
        as (p & q & E & ->).
      exists p, q. split; [ exact E | ].
      replace (String.length p + 2)%nat
        with (String.length (p ++ LF ++ LF))
        by (rewrite length_append; reflexivity).
      rewrite E.
      replace (p ++ (LF ++ LF) ++ q) with ((p ++ LF ++ LF) ++ q)
        by (now rewrite !append_assoc).
      destruct (slice_split (p ++ LF ++ LF) q) as [-> ->].
      now rewrite !append_assoc.
    + left. eexists. split; [ | split; [ | reflexivity ] ];
        [ reflexivity | discriminate ].
  - left. eexists. split; [ | split; [ | reflexivity ] ];
      [ reflexivity | discriminate ].
Qed.

Lemma nobreak_lf (a b : string) : nobreak (a ++ String "010" b) = false.
Proof.
  unfold nobreak. rewrite all_chars_append. cbn [all_chars].
  replace (negb (Py.is_linebreak "010")) with false by reflexivity.
  cbn. apply andb_false_r.
Qed.

Lemma eqb_lf (c : ascii) : Ascii.eqb c "010" = true -> c = "010"%char.
Proof. apply Ascii.eqb_eq. Qed.

Lemma ends_lf_last (x y : string) :
  y <> "" -> ends_lf (x ++ y) = ends_lf y.
Proof. intros H. rewrite ends_lf_app. now destruct y. Qed.

Lemma lf_pair_tail (m m' : string) (x : ascii) :
  LF ++ LF = m ++ String x m' -> x = "010"%char.
Proof.
  unfold LF. cbn [String.append]. intros E.
  destruct m as [ | y [ | z m]]; cbn [String.append] in E.
  - now injection E as <- _.
  - now injection E as _ <- _.
  - injection E as _ _ E. destruct m; discriminate.
Qed.

Lemma holds_line_insert (h md line : string) :
  nobreak h = true -> h <> "" ->
  holds_line h md -> holds_line h (insert_award md line).
Proof.
  intros Nb Ne (A & B & -> & EA & SB).
  destruct (insert_award_cases (A ++ h ++ B) line)
    as [(tail & St & Nt & ->) | (p & q & E & ->)].
  - exists A, (B ++ tail). split; [ now rewrite !append_assoc | ].
    split; [ exact EA | ]. rewrite starts_lf_app. now destruct B.
  - destruct (append_eq_append _ _ _ _ E) as [(m & -> & E1) | (m & -> & E1)].
    + destruct (append_eq_append _ _ _ _ E1)
        as [(m' & -> & ->) | (m' & -> & E2)].
      * exists A, (m' ++ (LF ++ LF) ++ line ++ LF ++ q).
        split; [ now rewrite !append_assoc | ]. split; [ exact EA | ].
        rewrite starts_lf_app in SB |- *. now destruct m'.
      * destruct m' as [ | c m'].
        -- rewrite append_nil_r in *. cbn [String.append] in E2. subst B.
           exists A, ((LF ++ LF) ++ line ++ LF ++ q).
           split; [ now rewrite !append_assoc | ]. now split.
        -- exfalso. unfold LF in E2. cbn [String.append] in E2.
           injection E2 as <- _. now rewrite nobreak_lf in Nb.
    + destruct (append_eq_append _ _ _ _ E1)
        as [(m' & -> & ->) | (m' & E2 & E3)].
      * exists (p ++ (LF ++ LF) ++ line ++ LF ++ m'), B.
        split; [ now rewrite !append_assoc | ]. split; [ | exact SB ].
        destruct m' as [ | c m'].
        -- replace (p ++ (LF ++ LF) ++ line ++ LF ++ "")
             with ((p ++ (LF ++ LF) ++ line) ++ LF)
             by (now rewrite !append_assoc, append_nil_r).
           now rewrite ends_lf_last.
        -- replace (p ++ (LF ++ LF) ++ line ++ LF ++ String c m')
             with ((p ++ (LF ++ LF) ++ line ++ LF) ++ String c m')
             by (now rewrite !append_assoc).
           rewrite ends_lf_last by discriminate.
           replace (p ++ (LF ++ LF) ++ String c m')
             with ((p ++ LF ++ LF) ++ String c m') in EA
             by (now rewrite !append_assoc).
           now rewrite ends_lf_last in EA by discriminate.
      * destruct m' as [ | c m'].
        -- rewrite append_nil_r in E2. subst m.
           cbn [String.append] in E3. subst q.
           exists (p ++ (LF ++ LF) ++ line ++ LF), B.
           split; [ now rewrite !append_assoc | ]. split; [ | exact SB ].
           replace (p ++ (LF ++ LF) ++ line ++ LF)
             with ((p ++ (LF ++ LF) ++ line) ++ LF)
             by (now rewrite !append_assoc).
           now rewrite ends_lf_last.
        -- exfalso. apply lf_pair_tail in E2. subst c.
           destruct h as [ | x h]; [ congruence | ].
           cbn [String.append] in E3. injection E3 as -> _.
           pose proof (nobreak_lf "" h) as K. cbn [String.append] in K.
           congruence.
Qed.

Lemma rstrip_app_solid (a b : string) :
  Py.rstrip b <> "" -> Py.rstrip (a ++ b) = a ++ Py.rstrip b.
Proof. intros H. rewrite rstrip_app. now destruct (Py.rstrip b). Qed.

Lemma rstrip_app_blank (a b : string) :
  Py.rstrip b = "" -> Py.rstrip (a ++ b) = Py.rstrip a.
Proof. intros H. rewrite rstrip_app. now rewrite H. Qed.

Lemma holds_line_rstrip (h s : string) :
  holds_line h s -> Py.rstrip h <> "" ->
  holds_line h (Py.rstrip s ++ LF) \/
  holds_line (Py.rstrip h) (Py.rstrip s ++ LF).
Proof.
  intros (A & B & -> & EA & SB) Ne.
  destruct (Py.rstrip B) as [ | b r] eqn:RB.
  - right. exists A, LF.
    rewrite rstrip_app_solid; rewrite rstrip_app_blank; auto.
    split; [ apply append_assoc | ]. now split.
  - left. exists A, (Py.rstrip B ++ LF).
    assert (N : Py.rstrip B <> "") by (rewrite RB; discriminate).
    assert (N' : Py.rstrip (h ++ B) <> "").
    { rewrite rstrip_app_solid by exact N.
      destruct h; cbn; [ exact N | discriminate ]. }
    rewrite rstrip_app_solid by exact N'.
    rewrite rstrip_app_solid by exact N.
    split; [ now rewrite append_assoc, (append_assoc h) | ].
    split; [ exact EA | ].
    rewrite RB. cbn [String.append starts_lf].
    destruct B as [ | b0 B]; [ discriminate | ].
    rewrite rstrip_cons in RB. cbn [starts_lf] in SB.
    destruct (Py.rstrip B); [ destruct (Py.isspace b0) | ];
      try discriminate; injection RB as <- _; exact SB.
Qed.

Lemma splitlines_go_line (h B cur : string) (acr : bool) :
  nobreak h = true ->
  Py.splitlines_go (h ++ B) cur acr =
  Py.splitlines_go B (Py.rev_onto h cur)
    (match h with "" => acr | _ => false end).
Proof.
  revert cur acr. induction h as [ | c h IH]; intros cur acr Nb.
  - reflexivity.
  - unfold nobreak in Nb. cbn [all_chars] in Nb.
    apply andb_prop in Nb as [Nc Nb]. apply negb_true_iff in Nc.
    cbn [String.append Py.splitlines_go Py.rev_onto].
    assert (L : (Py.code c =? 10)%nat = false).
    { destruct (Nat.eqb_spec (Py.code c) 10) as [E | ]; [ | reflexivity ].
      unfold Py.is_linebreak in Nc. cbv zeta in Nc. rewrite E in Nc.
      discriminate. }
    rewrite L, andb_false_r, Nc. rewrite IH by exact Nb.
    now destruct h.
Qed.

Lemma holds_line_splitlines (h s : string) :
  nobreak h = true -> h <> "" -> holds_line h s -> In h (Py.splitlines s).
Proof.
  intros Nb Ne (A & B & -> & EA & SB). unfold Py.splitlines.
  assert (G : forall cur acr, (A = "" -> cur = "") ->
              In h (Py.splitlines_go (A ++ h ++ B) cur acr)).
  { induction A as [ | a A IH]; intros cur acr C.
    - rewrite (C eq_refl). cbn [String.append].
      rewrite splitlines_go_line by exact Nb.
      destruct h as [ | x h]; [ congruence | ].
      assert (R : Py.rev (Py.rev_onto (String x h) "") = String x h)
        by exact (rev_involutive (String x h)).
      assert (N : Py.rev_onto (String x h) "" <> "").
      { intros Z. rewrite Z in R. discriminate. }
      destruct B as [ | b B].
      + cbn [Py.splitlines_go].
        destruct (Py.rev_onto (String x h) ""); [ congruence | ].
        left. exact R.
      + cbn [starts_lf] in SB. apply Ascii.eqb_eq in SB. subst b.
        cbn [Py.splitlines_go]. cbn [andb].
        replace (Py.is_linebreak "010") with true by reflexivity.
        left. exact R.
    - cbn [String.append Py.splitlines_go].
      assert (EA' : ends_lf A = true).
      { destruct A; [ reflexivity | exact EA ]. }
      destruct (acr && (Py.code a =? 10)%nat)%bool.
      + apply IH; auto.
      + destruct (Py.is_linebreak a) eqn:Lb.
        * right. apply IH; auto.
        * apply IH; auto. intros ->. cbn [ends_lf] in EA.
          apply Ascii.eqb_eq in EA. subst a. discriminate. }
  apply G. auto.
Qed.

Lemma nobreak_rev_onto (s acc : string) :
  nobreak (Py.rev_onto s acc) = nobreak s && nobreak acc.
Proof.
  revert acc. induction s as [ | c s IH]; intros acc; [ reflexivity | ].
  cbn [Py.rev_onto]. rewrite IH. unfold nobreak. cbn [all_chars].
  destruct (negb (Py.is_linebreak c)), (all_chars _ s); reflexivity.
Qed.

Lemma splitlines_go_nobreak (s cur : string) (acr : bool) (l : string) :
  nobreak cur = true ->
  In l (Py.splitlines_go s cur acr) -> nobreak l = true.
Proof.
  revert cur acr. induction s as [ | c s IH]; intros cur acr Nc I.
  - cbn [Py.splitlines_go] in I. destruct cur as [ | x cur]; [ destruct I | ].
    destruct I as [<- | []]. unfold Py.rev. rewrite nobreak_rev_onto.
    now rewrite Nc.
  - cbn [Py.splitlines_go] in I.
    destruct (acr && (Py.code c =? 10)%nat)%bool.
    + eapply IH; [ | exact I ]. reflexivity.
    + destruct (Py.is_linebreak c) eqn:Lb.
      * destruct I as [<- | I].
        -- unfold Py.rev. rewrite nobreak_rev_onto. now rewrite Nc.
        -- eapply IH; [ | exact I ]. reflexivity.
      * eapply IH; [ | exact I ].
        unfold nobreak in *. cbn [all_chars]. now rewrite Lb, Nc.
Qed.

Lemma rstrip_prefix (s : string) : exists ws, s = Py.rstrip s ++ ws.
Proof.
  induction s as [ | c s [ws IH]]; [ now exists "" | ].
  rewrite rstrip_cons. destruct (Py.rstrip s) as [ | x r].
  - destruct (Py.isspace c).
    + now exists (String c s).
    + exists s. reflexivity.
  - exists ws. cbn [String.append]. f_equal. exact IH.
Qed.

Lemma nobreak_rstrip (s : string) :
  nobreak s = true -> nobreak (Py.rstrip s) = true.
Proof.
  destruct (rstrip_prefix s) as [ws E]. intros H. rewrite E in H.
  unfold nobreak in *. rewrite all_chars_append in H.
  now apply andb_prop in H as [H _].
Qed.

Lemma lstrip_cons (c : ascii) (s : string) :
  Py.lstrip (String c s) = if Py.isspace c then Py.lstrip s else String c s.
Proof. reflexivity. Qed.

Lemma lstrip_rstrip_comm (s : string) :
  Py.lstrip (Py.rstrip s) = Py.rstrip (Py.lstrip s).
Proof.
  induction s as [ | c s IH]; [ reflexivity | ].
  rewrite lstrip_cons, rstrip_cons. destruct (Py.isspace c) eqn:Sp.
  - rewrite <- IH. destruct (Py.rstrip s) as [ | x r]; [ reflexivity | ].
    now rewrite lstrip_cons, Sp.
  - rewrite rstrip_cons.
    destruct (Py.rstrip s); now rewrite lstrip_cons, Sp.
Qed.

Lemma strip_rstrip (s : string) : Py.strip (Py.rstrip s) = Py.strip s.
Proof.
  unfold Py.strip. rewrite lstrip_rstrip_comm. apply rstrip_idempotent.
Qed.

Lemma is_header_solid (h : string) :
  is_header h = true -> Py.rstrip h <> "" /\ h <> "".
Proof.
  unfold is_header, Py.strip. rewrite <- lstrip_rstrip_comm. intros H.
  split; intros E; rewrite E in H; discriminate H.
Qed.

Lemma find_header_split (lines : list string) (i k : nat) :
  find_header lines i = Some k ->
  exists l1 hd l2,
    lines = (l1 ++ hd :: l2)%list /\ is_header hd = true /\
    k = (i + List.length l1)%nat.
Proof.
  revert i. induction lines as [ | line lines IH]; intros i H;
    [ discriminate | ].
  cbn [find_header] in H.
  destruct (Py.startswith (Py.strip line) "| Rank | Hunter") eqn:Hd.
  - injection H as <-. exists [], line, lines.
    split; [ reflexivity | ]. split; [ exact Hd | cbn; lia ].
  - destruct (IH _ H) as (l1 & hd & l2 & -> & Hh & ->).
    exists (line :: l1), hd, l2.
    split; [ reflexivity | ]. split; [ exact Hh | cbn; lia ].
Qed.

Lemma find_header_In (lines : list string) (i : nat) (hd : string) :
  In hd lines -> is_header hd = true ->
  exists k, find_header lines i = Some k.
Proof.
  revert i. induction lines as [ | line lines IH]; intros i I H;
    [ destruct I | ].
  cbn [find_header].
  destruct (Py.startswith (Py.strip line) "| Rank | Hunter") eqn:Hd;
    [ eauto | ].
  destruct I as [-> | I]; [ unfold is_header in H; congruence | ].
  now apply IH.
Qed.

Lemma holds_line_join (l1 : list string) (hd : string) (l2 : list string) :
  holds_line hd (Py.join LF (l1 ++ hd :: l2)).
Proof.
  unfold Py.join.
  assert (T : exists below,
             concat LF (hd :: l2) = hd ++ below /\ starts_lf below = true).
  { destruct l2 as [ | x l2].
    - exists "". cbn. now rewrite append_nil_r.
    - exists (LF ++ concat LF (x :: l2)). now split. }
  destruct T as (below & T & Sb).
  induction l1 as [ | y l1 IH].
  - exists "", below. now split.
  - destruct IH as (above & below' & E & Ea & Sb').
    exists (y ++ LF ++ above), below'.
    split.
    + change ((y :: l1) ++ hd :: l2)%list with (y :: (l1 ++ hd :: l2))%list.
      destruct (l1 ++ hd :: l2)%list as [ | z rest] eqn:Z.
      * destruct l1; discriminate.
      * cbn [concat]. cbn [concat] in E. rewrite E.
        now rewrite !append_assoc.
    + split; [ | exact Sb' ].
      destruct above as [ | a above].
      * rewrite append_nil_r. now rewrite ends_lf_last.
      * replace (y ++ LF ++ String a above)
          with ((y ++ LF) ++ String a above) by (now rewrite append_assoc).
        now rewrite ends_lf_last.
Qed.

Lemma update_keeps_header (int_float : string -> option Z)
    (stamp md actor : string) (gained_xp : Z) (reason : string)
    (labels : list string)
    (out : string) (total lvl : Z) (ttl : string) (unlocked : list string) :
  update_table_in_md int_float stamp md actor gained_xp reason labels
  = Ok (out, total, lvl, ttl, unlocked) ->
  exists hd, In hd (Py.splitlines out) /\ is_header hd = true.
Proof.
  unfold update_table_in_md at 1. unfold update_lines. intros H.
  destruct (updated_ledger int_float stamp (Py.splitlines md) actor
              gained_xp reason labels) as [[[start stop] aw] | e] eqn:U;
    [ | discriminate ].
  injection H as <- _ _ _ _.
  apply updated_ledger_ok in U. destruct U as [L _].
  unfold locate_table in L.
  destruct (find_header (Py.splitlines md) 0) as [k | ] eqn:F;
    [ | discriminate ].
  injection L as <- _.
  destruct (find_header_split _ _ _ F) as (l1 & hd & l2 & E & Hd & ->).
  assert (Nb : nobreak hd = true).
  { apply (splitlines_go_nobreak md "" false); [ reflexivity | ].
    fold (Py.splitlines md). rewrite E. apply in_elt. }
  destruct (is_header_solid hd Hd) as [Rs Ne].
  unfold serialize. cbv zeta. rewrite E. unfold upto.
  replace (0 + List.length l1 + 2)%nat with (List.length l1 + 2)%nat by lia.
  rewrite firstn_app_2. cbn [firstn]. rewrite <- app_assoc.
  cbn [app].
  match goal with
  | |- context [ insert_award (Py.join LF (l1 ++ hd :: ?r)) ?line ] =>
      pose proof (holds_line_insert hd _ line Nb Ne
                    (holds_line_join l1 hd r)) as K
  end.
  destruct (holds_line_rstrip _ _ K Rs) as [K' | K'].
  - exists hd. split; [ | exact Hd ].
    now apply holds_line_splitlines.
  - exists (Py.rstrip hd). split.
    + apply holds_line_splitlines; auto. now apply nobreak_rstrip.
    + unfold is_header. now rewrite strip_rstrip.
Qed.

Lemma header_accepted (int_float : string -> option Z)
    (stamp md actor : string) (gained_xp : Z) (reason : string)
    (labels : list string) :
  (exists hd, In hd (Py.splitlines md) /\ is_header hd = true) ->
  exists res,
    update_table_in_md int_float stamp md actor gained_xp reason labels
    = Ok res.
Proof.
  intros (hd & I & Hh).
  destruct (find_header_In _ 0 _ I Hh) as [k Fk].
  pose proof (update_table_in_md_header int_float stamp md actor gained_xp
                reason labels) as K.
  rewrite Fk in K. exact K.
Qed.

(** The document an update returns is a ledger again: the header line of
    the table is still one of its lines, so a further update of it, for
    any actor and award, finds the table and does not raise. *)
Theorem updated_document_is_ledger (int_float : string -> option Z)
    (stamp md actor : string) (gained_xp : Z) (reason : string)
    (labels : list string)
    (out : string) (total lvl : Z) (ttl : string) (unlocked : list string) :
  update_table_in_md int_float stamp md actor gained_xp reason labels
  = Ok (out, total, lvl, ttl, unlocked) ->
  (exists hd, In hd (Py.splitlines out) /\ is_header hd = true) /\
  forall (int_float' : string -> option Z) (stamp' actor' : string)
         (gained_xp' : Z) (reason' : string) (labels' : list string),
  exists res,
    update_table_in_md int_float' stamp' out actor' gained_xp' reason' labels'
    = Ok res.
Proof.
  intros H. apply update_keeps_header in H.
  split; [ exact H | ]. intros. now apply header_accepted.
Qed.

Lemma updated_document_is_ledger_witness :
  exists out total lvl ttl unlocked,
    update_table_in_md int_float_digits example_stamp stale_ledger
      "Bob" 600 "bounty approved" []
    = Ok (out, total, lvl, ttl, unlocked) /\
    exists res,
      update_table_in_md int_float_digits example_stamp out
        "amy" 50 "base action" ["bug"]
      = Ok res.
Proof.
  assert (U : exists out total lvl ttl unlocked,
             update_table_in_md int_float_digits example_stamp stale_ledger
               "Bob" 600 "bounty approved" []
             = Ok (out, total, lvl, ttl, unlocked)).
  { vm_compute. do 5 eexists. reflexivity. }
  destruct U as (out & total & lvl & ttl & unlocked & U).
  exists out, total, lvl, ttl, unlocked. split; [ exact U | ].
  apply (proj2 (updated_document_is_ledger _ _ _ _ _ _ _ _ _ _ _ _ U)).
Defined.

(** ** More labels, same award or more *)

Lemma sum_contributing_mono (rules rules' : list (bool * Z)) :
  Forall2 (fun r r' => snd r = snd r' /\ 0 <= snd r /\
                       (fst r = true -> fst r' = true)) rules rules' ->
  sum_Z (contributing rules) <= sum_Z (contributing rules').
Proof.
  induction 1 as [ | [b n] [b' n'] rules rules' (E & P & M) _ IH];
    [ cbn; lia | ].
  rewrite !sum_contributing_cons. cbn [fst snd] in *. subst n'.
  destruct b; [ rewrite M by reflexivity; lia | ].
  destruct b'; lia.
Qed.

(** Labels and the merge flag only add to an award: with more labels an
    event that earned at least one bonus earns the same or more, and any
    event earns at most 20 less, the base award of 50 against the
    smallest bonus, 30. *)
Theorem calculate_xp_monotone (event_type event_action : string)
    (labels labels' : list string) (pr_merged pr_merged' : bool) :
  (forall l, mem l labels = true -> mem l labels' = true) ->
  (pr_merged = true -> pr_merged' = true) ->
  let before := fst (calculate_xp event_type event_action labels pr_merged) in
  let after := fst (calculate_xp event_type event_action labels' pr_merged') in
  before - 20 <= after /\
  (contributing (bonus_rules event_type event_action labels pr_merged) <> []
   -> before <= after).
Proof.
  intros Hl Hm. cbv zeta. rewrite !calculate_xp_fst. cbv zeta.
  assert (S : sum_Z (contributing
                (bonus_rules event_type event_action labels pr_merged))
              <= sum_Z (contributing
                (bonus_rules event_type event_action labels' pr_merged'))).
  { apply sum_contributing_mono. unfold bonus_rules.
    repeat constructor; cbn [fst snd]; try lia; try assumption;
      try (intros H; exact H);
      intros H;
      repeat match type of H with
             | (_ || _)%bool = true =>
                 apply orb_prop in H; destruct H as [H | H]
             end;
      rewrite (Hl _ H); rewrite ?orb_true_r; reflexivity. }
  pose proof (contributing_positive _
                (bonus_rules_positive event_type event_action labels
                   pr_merged)) as [P0 P1].
  assert (L : Forall (fun r => 30 <= snd r)
                (bonus_rules event_type event_action labels' pr_merged')).
  { unfold bonus_rules. repeat constructor; cbn [snd]; lia. }
  pose proof (contributing_at_least 30 _ ltac:(lia) L) as Lo.
  set (a := contributing (bonus_rules _ _ labels pr_merged)) in *.
  set (b := contributing (bonus_rules _ _ labels' pr_merged')) in *.
  unfold BASE_ACTION_XP.
  assert (Nb : sum_Z b <> 0 -> b <> [])
    by (intros N ->; apply N; reflexivity).
  destruct (Z.eqb_spec (sum_Z a) 0) as [Ea | Ea];
    destruct (Z.eqb_spec (sum_Z b) 0) as [Eb | Eb].
  - split; [ lia | ]. intros N. specialize (P1 N). lia.
  - specialize (Lo (Nb Eb)). split; [ lia | ].
    intros N. specialize (P1 N). lia.
  - lia.
  - split; [ lia | intros _; lia ].
Qed.

Lemma calculate_xp_monotone_witness :
  fst (calculate_xp "issues" "closed" ["micro"] false)
  <= fst (calculate_xp "issues" "closed" ["micro"; "bug"; "major"] true).
Proof.
  apply (calculate_xp_monotone "issues" "closed" ["micro"]
           ["micro"; "bug"; "major"] false true).
  - intros l H. unfold mem in *. cbn [existsb] in *.
    destruct (l =? "micro")%string; [ reflexivity | discriminate ].
  - discriminate.
  - vm_compute. discriminate.
Defined.

(** ** Flags *)

Lemma rstrip_blank (ws : string) :
  all_chars Py.isspace ws = true -> Py.rstrip ws = "".
Proof.
  induction ws as [ | c ws IH]; [ reflexivity | ].
  cbn [all_chars]. intros H. apply andb_prop in H as [Hc H].
  rewrite rstrip_cons, (IH H). now rewrite Hc.
Qed.

Lemma strip_padding (ws s ws' : string) :
  all_chars Py.isspace ws = true -> all_chars Py.isspace ws' = true ->
  Py.strip (ws ++ s ++ ws') = Py.strip s.
Proof.
  intros W W'. unfold Py.strip, Py.lstrip.
  rewrite (drop_while_all _ _ _ W). fold (Py.lstrip (s ++ ws')).
  rewrite <- lstrip_rstrip_comm.
  rewrite (rstrip_app_blank s ws' (rstrip_blank ws' W')).
  apply lstrip_rstrip_comm.
Qed.

(** A flag is read the same whatever its letter case and whatever white
    space surrounds it. *)
Theorem is_true_insensitive (value ws ws' : string) :
  all_chars Py.isspace ws = true -> all_chars Py.isspace ws' = true ->
  is_true (ws ++ value ++ ws') = is_true value /\
  is_true (Py.lower value) = is_true value.
Proof.
  intros W W'. unfold is_true. split.
  - now rewrite strip_padding.
  - now rewrite lower_strip, lower_idempotent.
Qed.

Lemma is_true_insensitive_witness :
  is_true (" " ++ "YES" ++ String "010" "") = is_true "YES" /\
  is_true (Py.lower "YES") = is_true "YES".
Proof.
  apply (is_true_insensitive "YES" " " (String "010" "")); reflexivity.
Defined.

(** ** The end of the document *)

Lemma rstrip_solid_end (s : string) :
  Py.rstrip s <> "" -> solid_end (Py.rstrip s) = true.
Proof.
  unfold Py.rstrip, solid_end. rewrite rev_involutive. intros H.
  destruct (Py.drop_while Py.isspace (Py.rev s)) as [ | c r] eqn:D;
    [ now elim H | ].
  apply drop_while_head in D. now rewrite D.
Qed.

(** The document an update returns is never empty and ends with one line
    feed that follows a character that is not white space. *)
Theorem document_ends_with_newline (int_float : string -> option Z)
    (stamp md actor : string) (gained_xp : Z) (reason : string)
    (labels : list string)
    (out : string) (total lvl : Z) (ttl : string) (unlocked : list string) :
  update_table_in_md int_float stamp md actor gained_xp reason labels
  = Ok (out, total, lvl, ttl, unlocked) ->
  exists body, out = body ++ LF /\ solid_end body = true.
Proof.
  unfold update_table_in_md, update_lines. intros H.
  destruct (updated_ledger int_float stamp (Py.splitlines md) actor
              gained_xp reason labels) as [[[start stop] aw] | e] eqn:U;
    [ | discriminate ].
  injection H as <- _ _ _ _.
  apply updated_ledger_ok in U. destruct U as [_ ->].
  set (parsed := parse_rows int_float _).
  destruct (apply_award_shape stamp parsed actor gained_xp reason labels)
    as (bf & old & af & _ & Sh).
  cbv zeta in Sh. destruct Sh as (_ & _ & _ & _ & _ & Un).
  set (aw := apply_award stamp parsed actor gained_xp reason labels) in *.
  assert (So : solid_end (award_line_of stamp actor gained_xp reason aw)
               = true).
  { apply solid_end_award_line. intros n I. rewrite Un in I.
    eapply unlocked_solid_end; eauto. }
  unfold serialize. cbv zeta.
  match goal with
  | |- context [ insert_award ?m ?l ] =>
      destruct (insert_award_shape m l) as (a & b & ->)
  end.
  eexists. split; [ reflexivity | ].
  destruct (solid_end_rstrip _ So) as (c & r & E & Fx).
  set (line := award_line_of stamp actor gained_xp reason aw) in *.
  assert (N : Py.rstrip (line ++ LF ++ b) <> "").
  { rewrite rstrip_app. destruct (Py.rstrip (LF ++ b)).
    - congruence.
    - rewrite <- Fx, E. discriminate. }
  rewrite rstrip_app_solid by exact N.
  apply solid_end_app. now apply rstrip_solid_end.
Qed.

Lemma document_ends_with_newline_witness :
  exists out total lvl ttl unlocked,
    update_table_in_md int_float_digits example_stamp stale_ledger
      "Bob" 600 "bounty approved" []
    = Ok (out, total, lvl, ttl, unlocked) /\
    exists body, out = body ++ LF /\ solid_end body = true.
Proof.
  assert (U : exists out total lvl ttl unlocked,
             update_table_in_md int_float_digits example_stamp stale_ledger
               "Bob" 600 "bounty approved" []
             = Ok (out, total, lvl, ttl, unlocked)).
  { vm_compute. do 5 eexists. reflexivity. }
  destruct U as (out & total & lvl & ttl & unlocked & U).
  exists out, total, lvl, ttl, unlocked. split; [ exact U | ].
  exact (document_ends_with_newline _ _ _ _ _ _ _ _ _ _ _ _ U).
Defined.

(** ** The front matter and the table *)

Lemma ends_break_app (x y : string) :
  ends_break (x ++ y) = match y with "" => ends_break x | _ => ends_break y end.
Proof.
  induction x as [ | c x IH].
  - cbn. now destruct y.
  - cbn [String.append]. destruct y as [ | d y].
    + now rewrite append_nil_r.
    + cbn [ends_break]. destruct x as [ | e x]; cbn [String.append] in *.
      * reflexivity.
      * exact IH.
Qed.

Lemma ends_break_cons (c : ascii) (s : string) :
  s <> "" -> ends_break (String c s) = ends_break s.
Proof. now destruct s. Qed.

Lemma ends_break_snoc (s : string) :
  s <> "" -> ends_break s = true ->
  exists s0 b, s = s0 ++ String b "" /\ Py.is_linebreak b = true.
Proof.
  induction s as [ | c s IH]; intros Ne E; [ congruence | ].
  destruct s as [ | d s].
  - exists "", c. now split.
  - destruct IH as (s0 & b & -> & B); [ discriminate | exact E | ].
    exists (String c s0), b. now split.
Qed.

Lemma code_lf_break (c : ascii) :
  (Py.code c =? 10)%nat = true -> Py.is_linebreak c = true.
Proof.
  intros H. apply Nat.eqb_eq in H. unfold Py.is_linebreak. cbv zeta.
  now rewrite H.
Qed.

Lemma splitlines_go_split (s cur : string) (acr : bool) (h : string) :
  In h (Py.splitlines_go s cur acr) ->
  (exists t B, s = t ++ B /\ h = Py.rev cur ++ t) \/
  (exists A B, s = A ++ h ++ B /\ ends_break A = true /\ A <> "").
Proof.
  revert cur acr. induction s as [ | c s IH]; intros cur acr I.
  - cbn [Py.splitlines_go] in I. destruct cur as [ | x cur]; [ destruct I | ].
    destruct I as [<- | []]. left. exists "", "".
    split; [ reflexivity | now rewrite append_nil_r ].
  - cbn [Py.splitlines_go] in I.
    assert (Next : forall a', Py.is_linebreak c = true ->
              In h (Py.splitlines_go s "" a') ->
              exists A B, String c s = A ++ h ++ B /\ ends_break A = true
                          /\ A <> "").
    { intros a' Lb J.
      destruct (IH _ _ J) as [(t & B & -> & ->) | (A & B & -> & E & N)].
      - exists (String c ""), B. split; [ reflexivity | ]. now split.
      - exists (String c A), B. split; [ reflexivity | ].
        split; [ now rewrite ends_break_cons | discriminate ]. }
    destruct (acr && (Py.code c =? 10)%nat)%bool eqn:Cr.
    + right. apply andb_prop in Cr as [_ Cr].
      apply (Next false); [ now apply code_lf_break | exact I ].
    + destruct (Py.is_linebreak c) eqn:Lb.
      * destruct I as [<- | I].
        -- left. exists "", (String c s).
           split; [ reflexivity | now rewrite append_nil_r ].
        -- right. now apply (Next (Py.code c =? 13)%nat).
      * destruct (IH _ _ I) as [(t & B & -> & ->) | (A & B & -> & E & N)].
        -- left. exists (String c t), B. split; [ reflexivity | ].
           rewrite rev_cons, append_assoc. reflexivity.
        -- right. exists (String c A), B. split; [ reflexivity | ].
           split; [ now rewrite ends_break_cons | discriminate ].
Qed.

Lemma lstrip_split (s : string) :
  exists ws, s = ws ++ Py.lstrip s /\ all_chars Py.isspace ws = true.
Proof.
  unfold Py.lstrip. induction s as [ | c s (ws & E & W)].
  - now exists "".
  - cbn [Py.drop_while]. destruct (Py.isspace c) eqn:Sp.
    + exists (String c ws). cbn [String.append all_chars].
      rewrite Sp, W. split; [ now rewrite <- E | reflexivity ].
    + now exists "".
Qed.

Lemma header_line_opens (md hd : string) :
  In hd (Py.splitlines md) -> is_header hd = true -> opens_table md.
Proof.
  intros I Hd.
  assert (Nb : nobreak hd = true)
    by (apply (splitlines_go_nobreak md "" false); auto).
  assert (P : exists sp t, hd = sp ++ HEADER_PREFIX ++ t
                           /\ all_chars Py.isspace sp = true).
  { destruct (lstrip_split hd) as (sp & E & W).
    destruct (rstrip_prefix (Py.lstrip hd)) as [ws E'].
    unfold is_header, Py.startswith in Hd.
    destruct (prefix_split _ _ Hd) as [q Q]. unfold Py.strip in Q.
    exists sp, (q ++ ws). split; [ | exact W ].
    rewrite E at 1. rewrite E' at 1. rewrite Q.
    unfold HEADER_PREFIX. now rewrite !append_assoc. }
  destruct P as (sp & t & E & W).
  assert (Ns : nobreak sp = true).
  { rewrite E in Nb. unfold nobreak in *. rewrite all_chars_append in Nb.
    now apply andb_prop in Nb as [Nb _]. }
  unfold Py.splitlines in I.
  destruct (splitlines_go_split _ _ _ _ I)
    as [(u & B & -> & Eh) | (A & B & -> & Ea & _)].
  - change (Py.rev "" ++ u) with u in Eh. subst u. exists "", sp, (t ++ B).
    split; [ | now split ].
    rewrite E. rewrite !append_assoc. reflexivity.
  - exists A, sp, (t ++ B). split; [ | now split ].
    rewrite E. now rewrite !append_assoc.
Qed.

Lemma line_in_splitlines (h A B : string) :
  nobreak h = true -> h <> "" ->
  ends_break A = true -> starts_break B = true ->
  In h (Py.splitlines (A ++ h ++ B)).
Proof.
  intros Nb Ne EA SB. unfold Py.splitlines.
  assert (G : forall cur acr, (A = "" -> cur = "") ->
              In h (Py.splitlines_go (A ++ h ++ B) cur acr)).
  { induction A as [ | a A IH]; intros cur acr C.
    - rewrite (C eq_refl). cbn [String.append].
      rewrite splitlines_go_line by exact Nb.
      destruct h as [ | x h]; [ congruence | ].
      assert (R : Py.rev (Py.rev_onto (String x h) "") = String x h)
        by exact (rev_involutive (String x h)).
      assert (N : Py.rev_onto (String x h) "" <> "").
      { intros Z. rewrite Z in R. discriminate. }
      destruct B as [ | b B].
      + cbn [Py.splitlines_go].
        destruct (Py.rev_onto (String x h) ""); [ congruence | ].
        left. exact R.
      + cbn [starts_break] in SB.
        cbn [Py.splitlines_go]. cbn [andb]. rewrite SB.
        left. exact R.
    - cbn [String.append Py.splitlines_go].
      assert (EA' : ends_break A = true).
      { destruct A; [ reflexivity | exact EA ]. }
      destruct (acr && (Py.code a =? 10)%nat)%bool.
      + apply IH; auto.
      + destruct (Py.is_linebreak a) eqn:Lb.
        * right. apply IH; auto.
        * apply IH; auto. intros ->. cbn [ends_break] in EA. congruence. }
  apply G. auto.
Qed.

Lemma take_drop_while (p : ascii -> bool) (s : string) :
  s = Py.take_while p s ++ Py.drop_while p s /\
  all_chars p (Py.take_while p s) = true.
Proof.
  induction s as [ | c s [E A]]; [ now split | ].
  cbn [Py.take_while Py.drop_while]. destruct (p c) eqn:Pc.
  - cbn [String.append all_chars]. rewrite Pc, A.
    split; [ now rewrite <- E | reflexivity ].
  - now split.
Qed.

Lemma drop_while_starts (p : ascii -> bool) (s : string) :
  match Py.drop_while p s with "" => True | String c _ => p c = false end.
Proof.
  destruct (Py.drop_while p s) as [ | c r] eqn:D; [ exact I | ].
  now apply drop_while_head in D.
Qed.

Lemma opens_table_header (md : string) : opens_table md -> has_header md.
Proof.
  intros (A & sp & R & -> & EA & W & Ns).
  set (nb := fun c => negb (Py.is_linebreak c)).
  destruct (take_drop_while nb R) as [E T].
  set (t := Py.take_while nb R) in *.
  set (R' := Py.drop_while nb R) in *.
  exists (sp ++ HEADER_PREFIX ++ t). split.
  - replace (A ++ sp ++ HEADER_PREFIX ++ R)
      with (A ++ (sp ++ HEADER_PREFIX ++ t) ++ R')
      by (rewrite !append_assoc; now rewrite <- E).
    apply line_in_splitlines.
    + unfold nobreak in *. rewrite !all_chars_append, Ns. fold nb.
      now rewrite T.
    + destruct sp; discriminate.
    + exact EA.
    + pose proof (drop_while_starts nb R) as S. fold R' in S.
      destruct R' as [ | c r]; [ reflexivity | ].
      cbn [starts_break]. unfold nb in S. now apply negb_false_iff in S.
  - unfold is_header, Py.strip, Py.lstrip.
    rewrite (drop_while_all _ _ _ W).
    change (Py.drop_while Py.isspace (HEADER_PREFIX ++ t))
      with (HEADER_PREFIX ++ t).
    rewrite rstrip_app. unfold Py.startswith.
    destruct (Py.rstrip t).
    + reflexivity.
    + apply prefix_append.
Qed.

Lemma match_last_updated_shape (s rest : string) :
  match_last_updated s = Some rest ->
  exists ws y1 y2 y3 y4 m1 m2 d1 d2,
    s = "last_updated:" ++ ws ++ iso_date y1 y2 y3 y4 m1 m2 d1 d2 ++ rest /\
    all_chars Py.isspace ws = true /\
    all_digits [y1; y2; y3; y4; m1; m2; d1; d2] = true.
Proof.
  unfold match_last_updated, Py.startswith. intros H.
  destruct (prefix "last_updated:" s) eqn:P; [ | discriminate ].
  destruct (prefix_split _ _ P) as [q ->].
  replace (Py.slice_from 13 ("last_updated:" ++ q)) with q in H
    by (symmetry; exact (proj2 (slice_split "last_updated:" q))).
  destruct (lstrip_split q) as (ws & E & W). unfold Py.lstrip in E.
  destruct (Py.drop_while Py.isspace q)
    as [ | y1 [ | y2 [ | y3 [ | y4 [ | h1 [ | m1 [ | m2 [ | h2 [ | d1
         [ | d2 r]]]]]]]]]]; try discriminate H;
    repeat match type of H with
           | context [ match ?c with _ => _ end ] =>
               is_var c; destruct c as [[] [] [] [] [] [] [] []];
               try discriminate H
           end.
  change (Ascii true false true true false true false false)
    with "-"%char in *.
  destruct (all_digits [y1; y2; y3; y4; m1; m2; d1; d2]) eqn:D;
    [ | discriminate ].
  injection H as <-.
  exists ws, y1, y2, y3, y4, m1, m2, d1, d2.
  split; [ | now split ]. rewrite E at 1. reflexivity.
Qed.

Lemma update_frontmatter_pass (today q r : string) :
  all_chars (fun c => negb (Ascii.eqb c "l")) q = true ->
  update_frontmatter today (q ++ r) = q ++ update_frontmatter today r.
Proof.
  induction q as [ | c q IH]; [ reflexivity | ].
  cbn [all_chars]. intros H. apply andb_prop in H as [Hc H].
  cbn [String.append update_frontmatter].
  assert (N : match_last_updated (String c (q ++ r)) = None).
  { unfold match_last_updated, Py.startswith. cbn [prefix].
    destruct (ascii_dec "l" c) as [<- | ]; [ discriminate Hc | reflexivity ]. }
  now rewrite N, IH.
Qed.

Lemma space_not_l (s : string) :
  all_chars Py.isspace s = true ->
  all_chars (fun c => negb (Ascii.eqb c "l")) s = true.
Proof.
  apply all_chars_weaken. intros c H.
  destruct (Ascii.eqb_spec c "l") as [-> | ]; [ discriminate H | reflexivity ].
Qed.

Lemma digit_not_break (c : ascii) :
  Py.isdigit c = true -> Py.is_linebreak c = false.
Proof.
  unfold Py.isdigit, Py.is_linebreak. cbv zeta. intros H.
  apply andb_prop in H as [A B].
  apply Nat.leb_le in A. apply Nat.leb_le in B.
  repeat match goal with
  | |- context [ (?a <=? ?b)%nat ] => destruct (Nat.leb_spec a b)
  | |- context [ (?a =? ?b)%nat ] => destruct (Nat.eqb_spec a b)
  end; cbn; try reflexivity; lia.
Qed.

Lemma iso_date_nobreak (y1 y2 y3 y4 m1 m2 d1 d2 : ascii) :
  all_digits [y1; y2; y3; y4; m1; m2; d1; d2] = true ->
  nobreak (iso_date y1 y2 y3 y4 m1 m2 d1 d2) = true /\
  ends_break (iso_date y1 y2 y3 y4 m1 m2 d1 d2) = false /\
  Py.isdigit y1 = true.
Proof.
  unfold all_digits. cbn [forallb]. intros H.
  repeat (apply andb_prop in H as [?D H]).
  unfold nobreak, iso_date. cbn [all_chars ends_break].
  rewrite (digit_not_break y1), (digit_not_break y2), (digit_not_break y3),
    (digit_not_break y4), (digit_not_break m1), (digit_not_break m2),
    (digit_not_break d1), (digit_not_break d2) by assumption.
  repeat split; try reflexivity; assumption.
Qed.

Lemma space_prefix_match (sp ws a b : string) (x y : ascii) :
  all_chars Py.isspace sp = true -> all_chars Py.isspace ws = true ->
  Py.isspace x = false -> Py.isspace y = false ->
  sp ++ String x a = ws ++ String y b -> x = y.
Proof.
  intros S W X Y E.
  apply (f_equal (Py.drop_while Py.isspace)) in E.
  rewrite !drop_while_all in E by assumption.
  cbn [Py.drop_while] in E. rewrite X, Y in E. now injection E.
Qed.

Lemma frontmatter_opens_table (today md : string) :
  opens_table md -> opens_table (update_frontmatter today md).
Proof.
  intros (A & sp & R & -> & EA & W & Ns).
  assert (G : exists A' R',
             update_frontmatter today (A ++ sp ++ HEADER_PREFIX ++ R)
             = A' ++ sp ++ HEADER_PREFIX ++ R' /\
             ends_break A' = true /\ (A' = "" -> A = "")).
  { induction A as [ | c A IH].
    - exists "", (update_frontmatter today R). cbn [String.append].
      split; [ | now split ].
      rewrite update_frontmatter_pass by now apply space_not_l.
      now rewrite update_frontmatter_pass.
    - assert (EA' : ends_break A = true).
      { destruct A; [ reflexivity | exact EA ]. }
      cbn [String.append update_frontmatter].
      destruct (match_last_updated
                  (String c (A ++ sp ++ HEADER_PREFIX ++ R)))
        as [rest | ] eqn:M.
      + destruct (match_last_updated_shape _ _ M)
          as (ws & y1 & y2 & y3 & y4 & m1 & m2 & d1 & d2 & E & Ws & D).
        destruct (iso_date_nobreak _ _ _ _ _ _ _ _ D) as (Dn & De & Dy).
        set (date := iso_date y1 y2 y3 y4 m1 m2 d1 d2) in *.
        assert (Dd : date <> "") by discriminate.
        change (String c (A ++ sp ++ HEADER_PREFIX ++ R))
          with (String c A ++ sp ++ HEADER_PREFIX ++ R) in E.
        remember "last_updated:" as label eqn:Lbl.
        assert (Nl : nobreak label = true) by (subst label; reflexivity).
        replace (label ++ ws ++ date ++ rest)
          with ((label ++ ws ++ date) ++ rest) in E
          by (now rewrite !append_assoc).
        destruct (append_eq_append _ _ _ _ E)
          as [(m & E1 & E2) | (m & E1 & E2)].
        * (* the match runs over the end of [above] *)
          exfalso.
          destruct (ends_break_snoc (String c A) ltac:(discriminate) EA)
            as (A0 & b & Eb & Lb).
          rewrite Eb in E1.
          replace ((A0 ++ String b "") ++ m) with (A0 ++ String b m) in E1
            by (now rewrite append_assoc).
          assert (K : exists k, ws ++ date = k ++ String b m).
          { destruct (append_eq_append _ _ _ _ E1)
              as [(k & _ & K) | (k & K1 & K2)]; [ now exists k | ].
            destruct k as [ | b' k].
            - exists "". symmetry. exact K2.
            - cbn [String.append] in K2. injection K2 as <- _.
              rewrite K1 in Nl. unfold nobreak in Nl.
              rewrite all_chars_append in Nl. cbn [all_chars] in Nl.
              rewrite Lb in Nl. cbn in Nl.
              rewrite andb_false_r in Nl. discriminate Nl. }
          destruct K as (k & K).
          destruct (append_eq_append _ _ _ _ K)
            as [(j & J1 & J2) | (j & J1 & J2)].
          -- (* the boundary lies in the date *)
             rewrite J2 in Dn. unfold nobreak in Dn.
             rewrite all_chars_append in Dn. cbn [all_chars] in Dn.
             rewrite Lb in Dn. cbn in Dn.
             rewrite andb_false_r in Dn. discriminate Dn.
          -- (* the boundary lies in the white space *)
             destruct j as [ | b' j].
             ++ cbn [String.append] in J2. unfold date, iso_date in J2.
                injection J2 as <- _. rewrite (digit_not_break _ Dy) in Lb.
                discriminate Lb.
             ++ cbn [String.append] in J2. injection J2 as <- J2.
                assert (Sj : all_chars Py.isspace j = true).
                { rewrite J1 in Ws. rewrite all_chars_append in Ws.
                  apply andb_prop in Ws as [_ Ws]. cbn [all_chars] in Ws.
                  now apply andb_prop in Ws as [_ Ws]. }
                rewrite J2 in E2. rewrite append_assoc in E2.
                unfold date, iso_date, HEADER_PREFIX in E2.
                cbn [String.append] in E2.
                apply space_prefix_match in E2; auto.
                ** subst y1. discriminate Dy.
                ** now apply isdigit_not_space.
        * destruct m as [ | x m].
          -- exfalso. rewrite append_nil_r in E1. rewrite E1 in EA.
             replace (label ++ ws ++ date)
               with ((label ++ ws) ++ date) in EA
               by (now rewrite append_assoc).
             rewrite ends_break_app in EA.
             destruct date; [ congruence | ]. congruence.
          -- exists ("last_updated: " ++ today ++ String x m), R.
             split; [ | split ].
             ++ rewrite E2. cbn [String.append]. now rewrite !append_assoc.
             ++ rewrite E1 in EA. rewrite ends_break_app in EA.
                replace ("last_updated: " ++ today ++ String x m)
                  with (("last_updated: " ++ today) ++ String x m)
                  by (now rewrite append_assoc).
                now rewrite ends_break_app.
             ++ discriminate.
      + destruct (IH EA') as (A' & R' & -> & E' & Z).
        exists (String c A'), R'. split; [ reflexivity | ].
        split; [ | discriminate ].
        destruct A' as [ | x A']; [ | exact E' ].
        rewrite (Z eq_refl) in EA. exact EA. }
  destruct G as (A' & R' & -> & E' & _).
  now exists A', sp, R'.
Qed.

(** The front-matter update never loses the table: a document with a
    header line still has one afterwards, whatever date is written and
    wherever the [last_updated:] label stands. *)
Theorem frontmatter_keeps_header (today md : string) :
  has_header md -> has_header (update_frontmatter today md).
Proof.
  intros (hd & I & H).
  apply opens_table_header, frontmatter_opens_table.
  now apply (header_line_opens md hd).
Qed.

Lemma frontmatter_keeps_header_witness :
  has_header (update_frontmatter "2026-03-01" stale_ledger).
Proof.
  apply (frontmatter_keeps_header "2026-03-01" stale_ledger).
  exists table_header. split; [ | reflexivity ].
  vm_compute. do 3 right. left. reflexivity.
Defined.

(** What one run writes, the next run accepts: the document an update
    returns, once its front matter is refreshed as every run does before
    updating, is updated again without the missing-header error, for any
    actor and award. *)
Theorem next_run_finds_table (int_float : string -> option Z)
    (stamp md actor : string) (gained_xp : Z) (reason : string)
    (labels : list string)
    (out : string) (total lvl : Z) (ttl : string) (unlocked : list string) :
  update_table_in_md int_float stamp md actor gained_xp reason labels
  = Ok (out, total, lvl, ttl, unlocked) ->
  forall (int_float' : string -> option Z) (today' stamp' actor' : string)
         (gained_xp' : Z) (reason' : string) (labels' : list string),
  exists res,
    update_table_in_md int_float' stamp' (update_frontmatter today' out)
      actor' gained_xp' reason' labels'
    = Ok res.
Proof.
  intros H. apply update_keeps_header in H. destruct H as (hd & I & Hd).
  intros. apply header_accepted.
  apply opens_table_header, frontmatter_opens_table.
  now apply (header_line_opens out hd).
Qed.

Lemma next_run_finds_table_witness :
  exists out total lvl ttl unlocked,
    update_table_in_md int_float_digits example_stamp stale_ledger
      "Bob" 600 "bounty approved" []
    = Ok (out, total, lvl, ttl, unlocked) /\
    exists res,
      update_table_in_md int_float_digits example_stamp
        (update_frontmatter "2026-03-01" out) "amy" 50 "base action" ["bug"]
      = Ok res.
Proof.
  assert (U : exists out total lvl ttl unlocked,
             update_table_in_md int_float_digits example_stamp stale_ledger
               "Bob" 600 "bounty approved" []
             = Ok (out, total, lvl, ttl, unlocked)).
  { vm_compute. do 5 eexists. reflexivity. }
  destruct U as (out & total & lvl & ttl & unlocked & U).
  exists out, total, lvl, ttl, unlocked. split; [ exact U | ].
  apply (next_run_finds_table _ _ _ _ _ _ _ _ _ _ _ _ U).
Defined.

(** ** The award-log heading *)

Lemma serialize_rebuilt (stamp : string) (lines : list string)
    (start stop : nat) (aw : awarded) (actor : string) (gained_xp : Z)
    (reason : string) :
  serialize stamp lines start stop aw actor gained_xp reason =
  Py.rstrip (insert_award (rebuilt_document lines start stop aw)
               (award_line_of stamp actor gained_xp reason aw)) ++ LF.
Proof. reflexivity. Qed.

Lemma find_at_ge (sub s : string) (start n : nat) :
  Py.find_at sub s start = Some n -> (start <= n)%nat.
Proof. unfold Py.find_at. apply find_from_ge. Qed.

Lemma find_at_split (sub s : string) (start n : nat) :
  sub <> "" ->
  Py.find_at sub s start = Some n ->
  exists p q, s = p ++ sub ++ q /\ n = String.length p /\
              Py.slice_to (n + String.length sub) s = p ++ sub /\
              Py.slice_from (n + String.length sub) s = q.
Proof.
  intros Ne F. destruct (find_at_sound _ _ _ _ Ne F) as (p & q & -> & ->).
  exists p, q. split; [ reflexivity | ]. split; [ reflexivity | ].
  rewrite <- length_append, <- append_assoc.
  apply slice_split.
Qed.

(** Wherever the award line goes, the heading stands before it. *)
Lemma insert_award_heading (md line : string) :
  exists pre mid below,
    insert_award md line
    = (pre ++ AWARDS_HEADING ++ mid) ++ line ++ LF ++ below.
Proof.
  unfold insert_award. fold AWARDS_HEADING.
  destruct (Py.find AWARDS_HEADING md) as [idx | ] eqn:F.
  2:{ exists (md ++ LF ++ LF), (LF ++ LF), "".
      now rewrite !append_assoc, append_nil_r. }
  unfold Py.find in F.
  destruct (find_from_sound _ _ _ _ F) as (p & q & E & Ei).
  cbn [Nat.add] in Ei.
  destruct (Py.find_at (LF ++ LF) md idx) as [ins | ] eqn:G.
  2:{ exists p, (q ++ LF ++ LF), "". rewrite E.
      now rewrite !append_assoc, append_nil_r. }
  pose proof (find_at_ge _ _ _ _ G) as Ge.
  destruct (find_at_split (LF ++ LF) md idx ins ltac:(discriminate) G)
    as (P & Q & E' & Ep & St & Sf).
  change (String.length (LF ++ LF)) with 2%nat in St, Sf.
  rewrite St, Sf.
  assert (K : exists m, P = p ++ AWARDS_HEADING ++ m).
  { rewrite E in E'.
    destruct (append_eq_append _ _ _ _ E') as [(m & Em & E1) | (m & Em & E1)].
    - destruct (append_eq_append _ _ _ _ E1)
        as [(m' & -> & _) | (m' & Eh & E2)].
      + exists m'. exact Em.
      + destruct m' as [ | c m'].
        * rewrite append_nil_r in Eh. subst m. exists "".
          now rewrite append_nil_r.
        * exfalso. unfold LF in E2. cbn [String.append] in E2.
          injection E2 as <- _.
          assert (N : nobreak AWARDS_HEADING = true) by reflexivity.
          rewrite Eh, nobreak_lf in N. discriminate N.
    - exfalso. subst idx ins. rewrite Em, length_append in Ge.
      destruct m as [ | c m]; [ | cbn [String.length] in Ge; lia ].
      cbn [String.append] in E1. unfold LF, AWARDS_HEADING in E1.
      cbn [String.append] in E1. discriminate E1. }
  destruct K as [m ->].
  exists p, (m ++ LF ++ LF), Q. now rewrite !append_assoc.
Qed.

Lemma rstrip_line_end (x line : string) :
  solid_end line = true ->
  Py.rstrip (x ++ line ++ LF) ++ LF = x ++ line ++ LF.
Proof.
  intros So. destruct (solid_end_rstrip line So) as (c & r & E & Fx).
  assert (R : Py.rstrip (line ++ LF) = line).
  { rewrite rstrip_app_blank by reflexivity. exact Fx. }
  rewrite rstrip_app_solid by (rewrite R, <- Fx, E; discriminate).
  rewrite R. apply append_assoc.
Qed.

(** C6, as the code has it. The update fails if and only if no line of
    the document starts, once stripped, with the table header marker, and
    the error is then the missing-header error; the award-log heading
    plays no part in it: every update of a document with a table returns
    a document in which the heading text stands before the new award
    line, and where the document rebuilt around the new table holds no
    heading, heading and award line are appended at its end. In the
    driver the error ends the run at the attempt that meets it, with no
    write and no further read. *)
Theorem malformed_ledger_iff_no_header (int_float : string -> option Z)
    (w : World) (args : Args)
    (stamp md actor : string) (gained_xp : Z) (reason : string)
    (labels : list string) :
  (find_header (Py.splitlines md) 0 = None <->
   exists e,
     update_table_in_md int_float stamp md actor gained_xp reason labels
     = Raise e) /\
  (forall e,
      update_table_in_md int_float stamp md actor gained_xp reason labels
      = Raise e -> e = missing_header) /\
  (forall out total lvl ttl unlocked,
      update_table_in_md int_float stamp md actor gained_xp reason labels
      = Ok (out, total, lvl, ttl, unlocked) ->
      exists start stop aw,
        updated_ledger int_float stamp (Py.splitlines md) actor gained_xp
          reason labels = Ok (start, stop, aw) /\
        let line := award_line_of stamp actor gained_xp reason aw in
        let doc := rebuilt_document (Py.splitlines md) start stop aw in
        (exists pre mid post,
            out = pre ++ "## Latest Awards" ++ mid ++ line ++ LF ++ post) /\
        (Py.find "## Latest Awards" doc = None ->
         out = doc ++ LF ++ LF ++ "## Latest Awards" ++ LF ++ LF
               ++ line ++ LF)) /\
  (forall N content sha,
      remote_mode args ->
      (1 <= N <= max_attempts)%nat ->
      (forall k, (1 <= k < N)%nat -> conflicting int_float w args k) ->
      remote_get w N = Ok (content, sha) ->
      find_header (Py.splitlines (fresh_document w N content)) 0 = None ->
      snd (main int_float w args) = Raise missing_header /\
      gets (fst (main int_float w args)) = seq 1 N /\
      puts (fst (main int_float w args)) = seq 1 (N - 1)).
Proof.
  pose proof (update_table_in_md_header int_float stamp md actor gained_xp
                reason labels) as H.
  split; [ | split; [ | split ] ].
  - destruct (find_header (Py.splitlines md) 0).
    + destruct H as (res & ->). split; [ discriminate | ].
      intros (e & E). discriminate.
    + split; [ intros _; eauto | reflexivity ].
  - intros e E. destruct (find_header (Py.splitlines md) 0).
    + destruct H as (res & H). congruence.
    + congruence.
  - clear H. intros out total lvl ttl unlocked H.
    unfold update_table_in_md, update_lines in H.
    destruct (updated_ledger int_float stamp (Py.splitlines md) actor
                gained_xp reason labels) as [[[start stop] aw] | e] eqn:U;
      [ | discriminate ].
    injection H as <- _ _ _ _.
    exists start, stop, aw. split; [ reflexivity | ]. cbv zeta.
    pose proof U as U'. apply updated_ledger_ok in U'.
    destruct U' as [_ Eaw].
    assert (So : solid_end (award_line_of stamp actor gained_xp reason aw)
                 = true).
    { apply solid_end_award_line. intros n I. rewrite Eaw in I.
      destruct (apply_award_shape stamp
                  (parse_rows int_float
                     (table_lines (Py.splitlines md) start stop))
                  actor gained_xp reason labels)
        as (bf & old & af & _ & Sh).
      cbv zeta in Sh. destruct Sh as (_ & _ & _ & _ & _ & Un).
      rewrite Un in I. eapply unlocked_solid_end; eauto. }
    rewrite serialize_rebuilt. split.
    + destruct (insert_award_heading
                  (rebuilt_document (Py.splitlines md) start stop aw)
                  (award_line_of stamp actor gained_xp reason aw))
        as (pre & mid & below & ->).
      destruct (rstrip_keeps_line (pre ++ AWARDS_HEADING ++ mid) _ below So)
        as [post ->].
      exists pre, mid, post. unfold AWARDS_HEADING.
      now rewrite !append_assoc.
    + intros F. unfold insert_award. rewrite F.
      replace (rebuilt_document (Py.splitlines md) start stop aw ++ LF ++ LF
               ++ "## Latest Awards" ++ LF ++ LF
               ++ award_line_of stamp actor gained_xp reason aw ++ LF)
        with ((rebuilt_document (Py.splitlines md) start stop aw ++ LF ++ LF
               ++ "## Latest Awards" ++ LF ++ LF)
              ++ award_line_of stamp actor gained_xp reason aw ++ LF)
        by (now rewrite !append_assoc).
      now rewrite rstrip_line_end.
  - intros N content sha R B C G F.
    rewrite (main_remote int_float w args R).
    assert (Sq : seq 1 max_attempts =
                 (seq 1 (N - 1) ++ N :: seq (S N) (max_attempts - N))%list).
    { replace max_attempts with ((N - 1) + S (max_attempts - N))%nat at 1
        by lia.
      rewrite seq_app. cbn [seq]. repeat f_equal; lia. }
    rewrite Sq.
    assert (CF : forall k, (1 <= k < 1 + (N - 1))%nat ->
                           conflicting int_float w args k).
    { intros k K. apply C. lia. }
    destruct (loop_conflicts int_float w args (N - 1) 1
                (N :: seq (S N) (max_attempts - N))
                (mkLoop "" 0 1 "Starting Hunter" [] false)
                ltac:(lia) CF) as (st' & _ & _ & E).
    rewrite E. rewrite loop_step.
    assert (AN : attempt_update int_float w args N = Raise missing_header).
    { unfold attempt_update. rewrite G.
      pose proof (update_table_in_md_header int_float (clock_stamp w N)
                    (fresh_document w N content) (arg_actor args)
                    (fst (award_of args)) (snd (award_of args))
                    (labels_of args)) as HN.
      rewrite F in HN. rewrite HN. reflexivity. }
    rewrite AN. cbn [fst snd].
    destruct (conflicts_events int_float w args (N - 1) 1 CF)
      as (Gs & Ps & _). cbn zeta in Gs, Ps.
    rewrite gets_app, puts_app, Gs, Ps. cbn [gets puts].
    split; [ reflexivity | ]. split; [ | apply app_nil_r ].
    replace N with ((N - 1) + 1)%nat at 3 by lia.
    rewrite seq_app. cbn [seq]. repeat f_equal; lia.
Qed.

Lemma malformed_ledger_iff_no_header_witness :
  update_table_in_md int_float_digits example_stamp "no table here" "bob" 50
    "base action" [] = Raise missing_header /\
  snd (main int_float_digits
         (mkWorld (fun _ => "2026-01-05") (fun _ => example_stamp)
            (fun _ => Ok ("no table here", "v1"))
            (fun _ => Ok "https://example.test/commit/1")
            (Raise (OtherException "FileNotFoundError")) None)
         example_args) = Raise missing_header.
Proof.
  destruct (malformed_ledger_iff_no_header int_float_digits
              (mkWorld (fun _ => "2026-01-05") (fun _ => example_stamp)
                 (fun _ => Ok ("no table here", "v1"))
                 (fun _ => Ok "https://example.test/commit/1")
                 (Raise (OtherException "FileNotFoundError")) None)
              example_args example_stamp "no table here" "bob" 50
              "base action" []) as (A & B & _ & D).
  split.
  - destruct (proj1 A eq_refl) as (e & E). rewrite E. f_equal.
    exact (B e E).
  - destruct (D 1%nat "no table here" "v1") as (M & _).
    + split; [ reflexivity | split; discriminate ].
    + unfold max_attempts. lia.
    + intros k K. lia.
    + reflexivity.
    + reflexivity.
    + exact M.
Defined.

(** ** The rows on their lines *)

































